(** * TestSphere-AI: the sandboxed test-execution engine

    A shallow embedding of [backend/utils/docker_executor.py] and of
    [parse_pytest_output] from [backend/routes/tests_routes.py], with the
    properties of the engine stated over it.

    Modelling conventions.
    - Python [str] is [string]: the bytes of the UTF-8 encoding.  Character
      classes ([\s], [\w], [\d]), [str.strip], [str.lower] and
      [str.splitlines] follow Python on the ASCII range; a byte above 127 is
      neither white space nor a word character and has no case.  The one
      exception is re.IGNORECASE: a letter of a pattern also matches the
      letters beyond ASCII that Python folds to it, and [str.upper] knows
      those of them that have an ASCII capital.
    - Python's [re] is a backtracking matcher over a small regex syntax
      ([Re]); every pattern of the source is transcribed into that syntax.
    - [ast.parse], [json.loads], [JSONDecoder.raw_decode], the XML reader and
      the container run are outside the repository: they are parameters
      (section variables or oracle records), never fixed to a behaviour.
    - [try]/[except]/[finally] and the file-system effects of the
      orchestrator are written out over an explicit [World]; a call gives
      back a value or the exception that leaves it ([Returned]). *)

From Stdlib Require Import ZArith Ascii String DecimalString.
From Stdlib Require OrderedTypeEx.
From stdpp Require Import base option list sorting gmap strings.

Local Open Scope string_scope.

(* ===================================================================== *)
(** * Python string operations *)
(* ===================================================================== *)

Module PyStr.

Definition byte (n : nat) : ascii := ascii_of_nat n.

Definition code (c : ascii) : nat := nat_of_ascii c.

Definition in_range (lo hi : nat) (c : ascii) : bool :=
  (lo <=? code c)%nat && (code c <=? hi)%nat.

(** [str.isspace] on the ASCII range: TAB, LF, VT, FF, CR, FS, GS, RS, US
    and the space. *)
Definition is_space (c : ascii) : bool :=
  in_range 9 13 c || in_range 28 32 c.

Definition is_digit (c : ascii) : bool := in_range 48 57 c.

Definition is_upper (c : ascii) : bool := in_range 65 90 c.

Definition is_lower (c : ascii) : bool := in_range 97 122 c.

Definition is_alpha (c : ascii) : bool := is_upper c || is_lower c.

(** [\w] *)
Definition is_word (c : ascii) : bool :=
  is_alpha c || is_digit c || Ascii.eqb c "_"%char.

Definition lower_char (c : ascii) : ascii :=
  if is_upper c then byte (code c + 32) else c.

Definition upper_char (c : ascii) : ascii :=
  if is_lower c then byte (code c - 32) else c.

Fixpoint smap (f : ascii -> ascii) (s : string) : string :=
  match s with
  | EmptyString => EmptyString
  | String c r => String (f c) (smap f r)
  end.

(** [s.lower()] *)
Definition lower : string -> string := smap lower_char.

(** [s.upper()]: the ASCII letters and, given by their UTF-8 bytes, the two
    letters beyond them whose capital is an ASCII letter: U+0131 (dotless
    i, capital I) and U+017F (long s, capital S).  These are the letters
    without case in ASCII that a pattern of ASCII letters can match under
    re.IGNORECASE and that [upper] changes. *)
Fixpoint upper (s : string) : string :=
  match s with
  | EmptyString => EmptyString
  | String c r =>
      match r with
      | String d r' =>
          if Ascii.eqb c (byte 196) && Ascii.eqb d (byte 177) then String "I" (upper r')
          else if Ascii.eqb c (byte 197) && Ascii.eqb d (byte 191) then String "S" (upper r')
          else String (upper_char c) (upper r)
      | EmptyString => String (upper_char c) EmptyString
      end
  end.

(** [s.lstrip()], [s.rstrip()], [s.strip()] *)
Fixpoint lstrip (s : string) : string :=
  match s with
  | String c r => if is_space c then lstrip r else s
  | EmptyString => EmptyString
  end.

Fixpoint rstrip (s : string) : string :=
  match s with
  | EmptyString => EmptyString
  | String c r =>
      match rstrip r with
      | EmptyString => if is_space c then EmptyString else String c EmptyString
      | r' => String c r'
      end
  end.

Definition strip (s : string) : string := rstrip (lstrip s).

(** [s.lstrip('\n')] *)
Fixpoint lstrip_char (x : ascii) (s : string) : string :=
  match s with
  | String c r => if Ascii.eqb c x then lstrip_char x r else s
  | EmptyString => EmptyString
  end.

(** Truthiness of a string. *)
Definition nonempty (s : string) : bool :=
  match s with EmptyString => false | _ => true end.

(** [s.startswith(p)] and [s.endswith(p)] *)
Definition startswith (p s : string) : bool := String.prefix p s.

Fixpoint sdrop (n : nat) (s : string) : string :=
  match n, s with
  | O, _ => s
  | S n', String _ r => sdrop n' r
  | S _, EmptyString => EmptyString
  end.

Fixpoint stake (n : nat) (s : string) : string :=
  match n, s with
  | O, _ => EmptyString
  | S n', String c r => String c (stake n' r)
  | S _, EmptyString => EmptyString
  end.

Definition endswith (p s : string) : bool :=
  (String.length p <=? String.length s)%nat
  && String.eqb (sdrop (String.length s - String.length p) s) p.

(** Slice [s[a:b]] for indices that are not negative. *)
Definition slice (a b : Z) (s : string) : string :=
  stake (Z.to_nat (b - a)) (sdrop (Z.to_nat a) s).

(** [s.find(sub)]: the lowest index where [sub] occurs, or [-1]. *)
Fixpoint find_from (sub s : string) (i : nat) : Z :=
  if String.prefix sub s then Z.of_nat i
  else match s with
       | EmptyString => (-1)%Z
       | String _ r => find_from sub r (S i)
       end.

Definition find (sub s : string) : Z := find_from sub s 0.

(** [s.rfind(sub)]: the highest index where [sub] occurs, or [-1]. *)
Fixpoint rfind_from (sub s : string) (i : nat) : Z :=
  let here := if String.prefix sub s then Z.of_nat i else (-1)%Z in
  match s with
  | EmptyString => here
  | String _ r =>
      let later := rfind_from sub r (S i) in
      if (later =? -1)%Z then here else later
  end.

Definition rfind (sub s : string) : Z := rfind_from sub s 0.

(** [s.rfind(sub, 0, stop)] *)
Definition rfind_before (sub s : string) (stop : Z) : Z :=
  rfind sub (stake (Z.to_nat stop) s).

(** [sub in s] *)
Definition contains (sub s : string) : bool := negb (find sub s =? -1)%Z.

(** [sep.join(parts)] *)
Definition join (sep : string) (parts : list string) : string :=
  String.concat sep parts.

(** [s.split(c)] for a one-character separator. *)
Fixpoint split_acc (sep : ascii) (s acc : string) : list string :=
  match s with
  | EmptyString => [String.rev acc]
  | String c r =>
      if Ascii.eqb c sep then String.rev acc :: split_acc sep r EmptyString
      else split_acc sep r (String c acc)
  end.

Definition split (sep : ascii) (s : string) : list string :=
  split_acc sep s EmptyString.

(** [s.split(c)[0]] *)
Fixpoint before (sep : ascii) (s : string) : string :=
  match s with
  | EmptyString => EmptyString
  | String c r => if Ascii.eqb c sep then EmptyString else String c (before sep r)
  end.

(** Line boundaries of [str.splitlines] on the ASCII range:
    LF, VT, FF, CR, FS, GS, RS (and CR LF as one boundary). *)
Definition is_linebreak (c : ascii) : bool :=
  in_range 10 13 c || in_range 28 30 c.

Definition CR : ascii := byte 13.
Definition LF : ascii := byte 10.

(** Lines, each as the characters before its boundary.  [cur] holds the
    line being read; a line is emitted at each boundary and, when the text
    does not end with one, at the end of the text. *)
Fixpoint lines_from (s : string) : string * list string :=
  match s with
  | EmptyString => (EmptyString, [])
  | String c r =>
      let '(cur, rest) := lines_from r in
      if is_linebreak c then
        if Ascii.eqb c CR && (match r with String d _ => Ascii.eqb d LF | _ => false end)
        then (EmptyString, rest)
        else (EmptyString,
              match r with
              | EmptyString => rest
              | _ => cur :: rest
              end)
      else (String c cur, rest)
  end.

Definition splitlines (s : string) : list string :=
  match s with
  | EmptyString => []
  | _ => let '(cur, rest) := lines_from s in cur :: rest
  end.

(** [s.replace(old, new)] for a non-empty [old]. *)
Fixpoint replace_go (old new : string) (skip : nat) (s : string) : string :=
  match s with
  | EmptyString => EmptyString
  | String c r =>
      match skip with
      | S n => replace_go old new n r
      | O =>
          if String.prefix old s
          then new ++ replace_go old new (String.length old - 1) r
          else String c (replace_go old new 0 r)
      end
  end.

Definition replace (old new s : string) : string := replace_go old new 0 s.

(** [s.replace(old, new, 1)] *)
Fixpoint replace_first (old new s : string) : string :=
  if String.prefix old s then new ++ sdrop (String.length old) s
  else match s with
       | EmptyString => EmptyString
       | String c r => String c (replace_first old new r)
       end.

(** [s.count(c)] for a one-character [c]. *)
Fixpoint count_char (x : ascii) (s : string) : nat :=
  match s with
  | EmptyString => 0
  | String c r => (if Ascii.eqb c x then 1 else 0) + count_char x r
  end.

(** The double quote and the backslash. *)
Definition DQ : ascii := byte 34.
Definition is_quote (c : ascii) : bool := Ascii.eqb c "'"%char || Ascii.eqb c DQ.

(** [str(n)] for an integer. *)
Definition str_of_Z (n : Z) : string := NilZero.string_of_int (Z.to_int n).

Definition digit_val (c : ascii) : Z := Z.of_nat (code c - 48).

(** [int(s)] for a string of ASCII digits. *)
Definition int_of_digits (s : string) : Z :=
  fold_left (fun acc c => (10 * acc + digit_val c)%Z) (list_ascii_of_string s) 0%Z.

(** [a or b] on strings that may be missing ([dict.get] without default). *)
Definition or_else (a : option string) (b : string) : string :=
  match a with
  | Some s => if nonempty s then s else b
  | None => b
  end.

Definition or_opt (a b : option string) : option string :=
  match a with
  | Some s => if nonempty s then a else b
  | None => b
  end.

End PyStr.

Import PyStr.

(* ===================================================================== *)
(** * A backtracking matcher for the patterns of the source *)
(* ===================================================================== *)

Module Re.

(** The pattern syntax.  [Chr p] is any one-character item (a literal, a
    class, [\s], [\w], [\d], [.]); [Star true r] is [r*], [Star false r]
    is [r*?]; [Group i r] is the [i]-th capturing group. *)
Inductive regex : Type :=
| Eps
| Chr (p : ascii -> bool)
| Seq (a b : regex)
| Alt (a b : regex)
| Star (greedy : bool) (a : regex)
| Group (i : nat) (a : regex)
| Bol                      (* [^] under re.MULTILINE *)
| Eos                      (* [$] without re.MULTILINE *)
| Eol                      (* [$] under re.MULTILINE *)
| WordB                    (* [\b] *)
| NotBehind (p : ascii -> bool)   (* [(?<![...])] *)
| NotAhead (p : ascii -> bool).   (* [(?![...])] *)

(** Position of the matcher: the character before the cursor, the text
    after it, the offset from the start of the attempt, and the spans of
    the groups closed so far. *)
Record mstate : Type := MState {
  m_prev : option ascii;
  m_rest : string;
  m_pos : nat;
  m_groups : list (nat * (nat * nat))
}.

Definition cont : Type := mstate -> option mstate.

Definition head_is (p : ascii -> bool) (s : string) : bool :=
  match s with String c _ => p c | EmptyString => false end.

Definition prev_is (p : ascii -> bool) (o : option ascii) : bool :=
  match o with Some c => p c | None => false end.

Definition is_LF (c : ascii) : bool := Ascii.eqb c LF.

(** The iterations of a star, [step] being one match of its body.  An
    iteration that consumes nothing is cut, so a [fuel] of one more than
    the remaining length suffices. *)
Fixpoint star_loop (step : cont -> cont) (greedy : bool) (k : cont)
    (fuel : nat) (st0 : mstate) {struct fuel} : option mstate :=
  match fuel with
  | O => k st0
  | S fuel' =>
      let again (_ : unit) :=
        step (fun st1 =>
                if (m_pos st0 <? m_pos st1)%nat
                then star_loop step greedy k fuel' st1 else None) st0 in
      if greedy then
        match again tt with
        | Some st' => Some st'
        | None => k st0
        end
      else
        match k st0 with
        | Some st' => Some st'
        | None => again tt
        end
  end.

Fixpoint run (r : regex) (k : cont) (st : mstate) {struct r} : option mstate :=
  match r with
  | Eps => k st
  | Chr p =>
      match m_rest st with
      | String c rest =>
          if p c then k (MState (Some c) rest (S (m_pos st)) (m_groups st)) else None
      | EmptyString => None
      end
  | Seq a b => run a (run b k) st
  | Alt a b =>
      match run a k st with
      | Some st' => Some st'
      | None => run b k st
      end
  | Star greedy a =>
      star_loop (run a) greedy k (S (String.length (m_rest st))) st
  | Group i a =>
      run a (fun st1 =>
               k (MState (m_prev st1) (m_rest st1) (m_pos st1)
                         ((i, (m_pos st, m_pos st1)) :: m_groups st1))) st
  | Bol =>
      match m_prev st with
      | None => k st
      | Some c => if is_LF c then k st else None
      end
  | Eos =>
      match m_rest st with
      | EmptyString => k st
      | String c EmptyString => if is_LF c then k st else None
      | _ => None
      end
  | Eol =>
      match m_rest st with
      | EmptyString => k st
      | String c _ => if is_LF c then k st else None
      end
  | WordB =>
      if xorb (prev_is is_word (m_prev st)) (head_is is_word (m_rest st))
      then k st else None
  | NotBehind p => if prev_is p (m_prev st) then None else k st
  | NotAhead p => if head_is p (m_rest st) then None else k st
  end.

(** A match object: the text from the start of the match, where the match
    ends in it, and the group spans (relative to the start). *)
Record rmatch : Type := RMatch {
  mo_src : string;
  mo_end : nat;
  mo_groups : list (nat * (nat * nat))
}.

Fixpoint span_of (i : nat) (gs : list (nat * (nat * nat))) : option (nat * nat) :=
  match gs with
  | [] => None
  | (j, sp) :: gs' => if Nat.eqb i j then Some sp else span_of i gs'
  end.

(** [m.group(0)] *)
Definition group0 (m : rmatch) : string := stake (mo_end m) (mo_src m).

(** [m.group(i)], [None] when the group took no part in the match. *)
Definition group (i : nat) (m : rmatch) : option string :=
  match span_of i (mo_groups m) with
  | Some (a, b) => Some (stake (b - a) (sdrop a (mo_src m)))
  | None => None
  end.

Definition group_or (i : nat) (m : rmatch) : string := default EmptyString (group i m).

(** One attempt at the cursor. *)
Definition match_here (r : regex) (prev : option ascii) (s : string) : option rmatch :=
  match run r Some (MState prev s 0 []) with
  | Some st => Some (RMatch s (m_pos st) (m_groups st))
  | None => None
  end.

(** [re.match(r, s)] *)
Definition rematch (r : regex) (s : string) : option rmatch := match_here r None s.

(** [re.search(r, s)]: the leftmost start that matches. *)
Fixpoint search_from (r : regex) (prev : option ascii) (s : string) : option rmatch :=
  match match_here r prev s with
  | Some m => Some m
  | None =>
      match s with
      | EmptyString => None
      | String c rest => search_from r (Some c) rest
      end
  end.

Definition search (r : regex) (s : string) : option rmatch := search_from r None s.

Definition matches (r : regex) (s : string) : bool := bool_decide (is_Some (search r s)).

(** [re.sub(r, repl, s)] for a pattern that never matches the empty
    string: scan left to right, replace each match, resume after it.
    [skip] counts the characters of the current match still to pass. *)
Fixpoint sub_go (r : regex) (repl : rmatch -> string) (skip : nat)
    (prev : option ascii) (s : string) : string :=
  match s with
  | EmptyString => EmptyString
  | String c rest =>
      match skip with
      | S n => sub_go r repl n (Some c) rest
      | O =>
          match match_here r prev s with
          | Some m =>
              match mo_end m with
              | O => String c (sub_go r repl 0 (Some c) rest)
              | S n => repl m ++ sub_go r repl n (Some c) rest
              end
          | None => String c (sub_go r repl 0 (Some c) rest)
          end
      end
  end.

Definition sub (r : regex) (repl : rmatch -> string) (s : string) : string :=
  sub_go r repl 0 None s.

(** The matches that [sub] replaces, in order ([re.finditer]). *)
Fixpoint finditer_go (r : regex) (skip : nat) (prev : option ascii) (s : string)
    : list rmatch :=
  match s with
  | EmptyString => []
  | String c rest =>
      match skip with
      | S n => finditer_go r n (Some c) rest
      | O =>
          match match_here r prev s with
          | Some m =>
              match mo_end m with
              | O => finditer_go r 0 (Some c) rest
              | S n => m :: finditer_go r n (Some c) rest
              end
          | None => finditer_go r 0 (Some c) rest
          end
      end
  end.

Definition finditer (r : regex) (s : string) : list rmatch := finditer_go r 0 None s.

(** ** Pattern constructors *)

Definition is_char (x : ascii) : ascii -> bool := Ascii.eqb x.
Definition is_char_i (x : ascii) (c : ascii) : bool :=
  Ascii.eqb (lower_char x) (lower_char c).
Definition any_of (s : string) (c : ascii) : bool :=
  existsb (Ascii.eqb c) (list_ascii_of_string s).
Definition not_of (s : string) (c : ascii) : bool := negb (any_of s c).
Definition dot (c : ascii) : bool := negb (is_LF c).
Definition anything (c : ascii) : bool := true.

(** A literal string. *)
Fixpoint Lit (s : string) : regex :=
  match s with
  | EmptyString => Eps
  | String c EmptyString => Chr (is_char c)
  | String c r => Seq (Chr (is_char c)) (Lit r)
  end.

Definition Plus (a : regex) : regex := Seq a (Star true a).
Definition PlusLazy (a : regex) : regex := Seq a (Star false a).
Definition Opt (a : regex) : regex := Alt a Eps.
Definition Many (p : ascii -> bool) : regex := Star true (Chr p).
Definition Some1 (p : ascii -> bool) : regex := Plus (Chr p).

Fixpoint Seqs (rs : list regex) : regex :=
  match rs with
  | [] => Eps
  | [r] => r
  | r :: rs' => Seq r (Seqs rs')
  end.

Fixpoint Alts (rs : list regex) : regex :=
  match rs with
  | [] => Chr (fun _ => false)
  | [r] => r
  | r :: rs' => Alt r (Alts rs')
  end.

(** The letters beyond the ASCII range that re.IGNORECASE takes for an
    ASCII letter, by their UTF-8 bytes: U+0130 (capital I with dot) and
    U+0131 (dotless i) for [i], U+017F (long s) for [s], U+212A (the Kelvin
    sign) for [k]. *)
Definition fold_extra (x : ascii) : list string :=
  let l := lower_char x in
  if Ascii.eqb l "i" then
    [ String (byte 196) (String (byte 176) EmptyString);
      String (byte 196) (String (byte 177) EmptyString) ]
  else if Ascii.eqb l "s" then [ String (byte 197) (String (byte 191) EmptyString) ]
  else if Ascii.eqb l "k" then
    [ String (byte 226) (String (byte 132) (String (byte 170) EmptyString)) ]
  else [].

(** One character of a literal under re.IGNORECASE: the character in
    either case, or one of the letters that fold to it. *)
Definition ChrI (x : ascii) : regex := Alts (Chr (is_char_i x) :: (Lit <$> fold_extra x)).

(** A literal string under re.IGNORECASE. *)
Fixpoint LitI (s : string) : regex :=
  match s with
  | EmptyString => Eps
  | String c EmptyString => ChrI c
  | String c r => Seq (ChrI c) (LitI r)
  end.

End Re.

Import Re.

(** The one-character string "\n". *)
Definition NL : string := String LF EmptyString.

(** [x in (a, b, ...)] for strings. *)
Definition str_in (x : string) (l : list string) : bool := existsb (String.eqb x) l.

(** [any(p in text for p in patterns)] *)
Definition any_in (patterns : list string) (text : string) : bool :=
  existsb (fun p => contains p text) patterns.

(* ===================================================================== *)
(** * Language detection and image selection *)
(* ===================================================================== *)

(** The keys of the [config] dictionary that the engine reads. *)
Record Config : Type := {
  executor_type : option string;
  framework : option string;
  allow_network : bool
}.

Definition no_config : Config :=
  {| executor_type := None; framework := None; allow_network := false |}.

Definition _TS_PATTERNS : list string :=
  [ ": string"; ": number"; ": boolean"; ": void"; ": never"; ": any";
    ": null"; ": undefined"; ": object";
    "interface "; "type "; "enum ";
    ": string[]"; ": number[]"; ": boolean[]";
    "as string"; "as number"; "as boolean";
    "<T>"; "<T,"; "<T extends";
    "@ts-"; "// @ts";
    "private "; "public "; "protected "; "readonly ";
    ": Promise<"; ": Array<";
    "export interface"; "export type"; "export enum";
    "@ts-expect-error"; "@ts-ignore" ].

(** The pattern [\b public \s+ class \b] (patterns are shown with their
    items spaced out, and DQ for the double quote). *)
Definition re_public_class : regex :=
  Seqs [WordB; Lit "public"; Some1 is_space; Lit "class"; WordB].

Definition _detect_language (source_code test_code : string) (language : option string)
    : string :=
  let lang := strip (lower (default "" language)) in
  if str_in lang ["python"; "java"] then lang
  else
    let combined := source_code ++ NL ++ test_code in
    let has_ts_syntax := any_in _TS_PATTERNS combined in
    if String.eqb lang "typescript" || String.eqb lang "ts" || has_ts_syntax
    then "typescript"
    else if str_in lang ["javascript"; "js"] then "javascript"
    else if nonempty lang then lang
    else
      let has_public_class := matches re_public_class combined in
      let has_java_imports :=
        contains "import java." combined || contains "import org." combined in
      if has_public_class && has_java_imports then "java"
      else if any_in ["describe("; "it("; "test("; "expect("; "jest."; "require("] combined
      then (if has_ts_syntax then "typescript" else "javascript")
      else "python".

Definition _select_executor_image (source_code test_code language : string)
    (config : Config) : string :=
  match executor_type config with
  | Some (String _ _ as et) =>
      if String.eqb et "python-basic" then "genaiqa/python-basic:latest"
      else if String.eqb et "python-web" then "genaiqa/python-web:latest"
      else if String.eqb et "java-basic" then "genaiqa/java-basic:latest"
      else if String.eqb et "javascript-basic" then "genaiqa/javascript-basic:latest"
      else "genaiqa/python-basic:latest"
  | _ =>
      let combined := lower (source_code ++ NL ++ test_code) in
      if String.eqb language "java" then "genaiqa/java-basic:latest"
      else if str_in language ["javascript"; "typescript"]
      then "genaiqa/javascript-basic:latest"
      else if any_in ["from flask"; "import flask"; "flask."; "requests"; "httpx"; "fastapi"]
                     combined
      then "genaiqa/python-web:latest"
      else "genaiqa/python-basic:latest"
  end.

(* ===================================================================== *)
(** * Dependency inference and requirements merging *)
(* ===================================================================== *)

(** What the engine reads of a syntax tree built by [ast.parse]: the
    import statements, in the order [ast.walk] yields them, and the names
    of the functions and classes defined at top level. *)
Record alias : Type := Alias {
  alias_name : string;
  alias_asname : option string
}.

Inductive import_node : Type :=
| Import (names : list alias)
| ImportFrom (module : option string) (names : list alias) (level : nat).

(** [walk_imports]: every [Import] and [ImportFrom] node of the tree, in
    [ast.walk] order.  [top_defs]: the names of the [FunctionDef],
    [AsyncFunctionDef] and [ClassDef] nodes of [tree.body].
    [loaded_names]: the [id] of every [Name] node in [Load] context.
    [source_attrs]: the [attr] of every [Attribute] node whose value is the
    name [source]. *)
Record module_view : Type := {
  walk_imports : list import_node;
  top_defs : list string;
  loaded_names : list string;
  source_attrs : list string
}.

Definition _IMPORT_TO_PIP : gmap string string :=
  list_to_map
    [ ("PIL", "Pillow"); ("cv2", "opencv-python"); ("sklearn", "scikit-learn");
      ("bs4", "beautifulsoup4"); ("serial", "pyserial"); ("yaml", "PyYAML");
      ("dateutil", "python-dateutil"); ("dotenv", "python-dotenv");
      ("Crypto", "pycryptodome"); ("nacl", "PyNaCl"); ("google", "google-cloud");
      ("boto3", "boto3"); ("botocore", "botocore"); ("pymysql", "PyMySQL");
      ("psycopg2", "psycopg2-binary"); ("motor", "motor"); ("aiohttp", "aiohttp");
      ("httpx", "httpx"); ("pydantic", "pydantic"); ("fastapi", "fastapi");
      ("starlette", "starlette"); ("celery", "celery"); ("redis", "redis");
      ("elasticsearch", "elasticsearch"); ("mongoengine", "mongoengine");
      ("passlib", "passlib"); ("jwt", "PyJWT"); ("freezegun", "freezegun");
      ("faker", "Faker"); ("factory_boy", "factory_boy"); ("hypothesis", "hypothesis");
      ("responses", "responses"); ("moto", "moto"); ("pytest_mock", "pytest-mock");
      ("respx", "respx"); ("time_machine", "time-machine") ].

(** The literal part of [_STDLIB_MODULES]. *)
Definition stdlib_listed : list string :=
  [ "os"; "sys"; "re"; "json"; "datetime"; "time"; "collections"; "functools";
    "itertools"; "typing"; "unittest"; "pytest"; "logging"; "pathlib"; "subprocess";
    "tempfile"; "shutil"; "uuid"; "random"; "math"; "decimal"; "statistics";
    "hashlib"; "hmac"; "secrets"; "urllib"; "io"; "abc"; "copy"; "dataclasses";
    "enum"; "contextlib"; "threading"; "multiprocessing"; "socket"; "ssl";
    "struct"; "base64"; "binascii"; "codecs"; "csv"; "xml"; "html"; "http";
    "email"; "mimetypes"; "builtins"; "warnings"; "weakref"; "gc"; "inspect";
    "ast"; "dis"; "tokenize"; "importlib"; "pkgutil"; "site"; "traceback";
    "pprint"; "textwrap"; "string"; "difflib"; "fnmatch"; "glob"; "zipfile";
    "tarfile"; "gzip"; "bz2"; "lzma"; "zlib"; "sqlite3"; "configparser";
    "argparse"; "getopt"; "shlex"; "operator"; "numbers"; "array"; "queue";
    "heapq"; "bisect"; "calendar"; "locale"; "gettext"; "platform"; "signal";
    "mock"; "_pytest"; "conftest";
    "pytest"; "flask"; "requests"; "werkzeug" ].

(** Python orders strings by code point, which on UTF-8 bytes is the
    order of [String.leb]. *)
Definition str_le (a b : string) : Prop := String.leb a b = true.

#[global] Instance str_le_dec a b : Decision (str_le a b).
Proof. unfold str_le. apply _. Defined.

#[global] Instance str_le_total : Total str_le.
Proof. intros a b. apply String.leb_total. Qed.

(** [sorted(s)] for a set of strings. *)
Definition sorted (s : gset string) : list string := merge_sort str_le (elements s).

Definition _ALLOWED_REWRITE_MODULES : list string :=
  ["app"; "main"; "your_module"; "module"; "solution"; "program"].

Section Python.

(** [sys.stdlib_module_names] of the interpreter that runs the engine. *)
Variable stdlib_module_names : list string.

(** [ast.parse]: [None] is a [SyntaxError]. *)
Variable ast_parse : string -> option module_view.

Definition _STDLIB_MODULES : gset string :=
  list_to_set stdlib_module_names ∪ list_to_set stdlib_listed.

Definition in_set (x : string) (s : gset string) : bool := bool_decide (x ∈ s).

(** The body of the loop over [ast.walk(tree)]. *)
Definition collect_import (acc : gset string) (node : import_node) : gset string :=
  match node with
  | Import names => acc ∪ list_to_set ((fun a => before "." (alias_name a)) <$> names)
  | ImportFrom (Some m) _ O => if nonempty m then acc ∪ {[ before "." m ]} else acc
  | ImportFrom _ _ _ => acc
  end.

Definition top_level_imports (tree : module_view) : gset string :=
  fold_left collect_import (walk_imports tree) ∅.

Definition excluded (exclude : option (gset string)) (m : string) : bool :=
  match exclude with
  | Some ex => bool_decide (ex ≠ ∅) && in_set m ex
  | None => false
  end.

(** The loop over [sorted(top_level_imports)]. *)
Definition packages_of (names : list string) (exclude : option (gset string))
    : list string :=
  (fun m => default m (_IMPORT_TO_PIP !! m)) <$>
  filter (fun m => in_set m _STDLIB_MODULES = false ∧ excluded exclude m = false) names.

Definition _auto_detect_pip_requirements (test_code : string)
    (exclude : option (gset string)) : string :=
  match ast_parse test_code with
  | None => ""
  | Some tree => join NL (packages_of (sorted (top_level_imports tree)) exclude)
  end.

(** The two loops of [_merge_requirements]. *)
Definition add_user_line (combined : gset string) (line : string) : gset string :=
  let line := strip line in
  if nonempty line && negb (startswith "#" line) then combined ∪ {[ lower line ]}
  else combined.

Definition add_auto_line (st : list string * gset string) (line : string)
    : list string * gset string :=
  let '(auto_lines, combined) := st in
  let line := strip line in
  if nonempty line && negb (in_set (lower line) combined)
  then ((auto_lines ++ [line])%list, combined ∪ {[ lower line ]})
  else st.

Definition _merge_requirements (user_req : option string) (auto_req : string)
    : option string :=
  let user := default "" user_req in
  let combined := fold_left add_user_line (splitlines user) ∅ in
  let auto_lines := fst (fold_left add_auto_line (splitlines auto_req) ([], combined)) in
  let all_lines :=
    (filter (fun l => nonempty (strip l) = true) (splitlines user) ++ auto_lines)%list in
  match all_lines with
  | [] => None
  | _ => Some (join NL all_lines)
  end.

(** ** Repairs of the generated test code *)

(** [^ \s* with \s+] *)
Definition re_with : regex := Seqs [Bol; Many is_space; Lit "with"; Some1 is_space].

Definition needs_continuation (rstripped : string) : bool :=
  bool_decide (is_Some (rematch re_with rstripped))
  && endswith "," rstripped
  && negb (endswith "\" rstripped)
  && (count_char "(" rstripped =? count_char ")" rstripped)%nat.

(** The inner [while j < len(lines)] loop: the lines that continue a
    [with] header, up to the one that closes it. *)
Fixpoint collect_block (rest : list string) : list string :=
  match rest with
  | [] => []
  | l :: rest' =>
      let cont := rstrip l in
      if negb (nonempty (strip cont)) then []
      else if endswith ":" cont || endswith ":\" cont then [cont]
      else cont :: collect_block rest'
  end.

(** The outer loop; [skip] counts the lines of a patched block that
    [i = i + len(block)] jumps over. *)
Fixpoint fix_with_go (skip : nat) (lines : list string) : list string :=
  match lines with
  | [] => []
  | line :: rest =>
      match skip with
      | S n => fix_with_go n rest
      | O =>
          let rstripped := rstrip line in
          let block := rstripped :: collect_block rest in
          if needs_continuation rstripped
             && endswith ":" (rstrip (List.last block ""))
             && (1 <? length block)%nat
          then app ((fun b => b ++ " \") <$> List.removelast block)
                   (List.last block "" :: fix_with_go (length block - 1) rest)
          else line :: fix_with_go 0 rest
      end
  end.

Definition _fix_multiline_with_statements (code : string) : string :=
  join NL (fix_with_go 0 (split LF code)).

Definition skip_if (p : string -> bool) (lines : list string) (i : nat) : nat :=
  match lines !! i with
  | Some l => if p l then S i else i
  | None => i
  end.

Fixpoint skip_while (p : string -> bool) (lines : list string) (i : nat) : nat :=
  match lines with
  | l :: rest => if p l then skip_while p rest (S i) else i
  | [] => i
  end.

Definition _insert_import_after_import_block (code import_stmt : string) : string :=
  let lines := splitlines code in
  let i := skip_if (startswith "#!") lines 0 in
  let i := skip_if (contains "coding") lines i in
  let i := skip_while (fun l => String.eqb (strip l) "") (drop i lines) i in
  let start := i in
  let i := skip_while (fun l => startswith "import " (strip l) || startswith "from " (strip l))
                      (drop i lines) i in
  let insert_at := if (start <? i)%nat then i else 0 in
  join NL (app (take insert_at lines) (import_stmt :: drop insert_at lines))
  ++ (if endswith NL code then NL else "").

(** [from \s+ ( [A-Za-z_] \w* ) \s+ import] *)
Definition ident_start (c : ascii) : bool := is_alpha c || Ascii.eqb c "_"%char.

Definition re_from_import : regex :=
  Seqs [Lit "from"; Some1 is_space; Group 1 (Seq (Chr ident_start) (Many is_word));
        Some1 is_space; Lit "import"].

Definition _safe_rewrite_imports_to_source (test_code : string) : string :=
  let repl (m : rmatch) : string :=
    let mod_ := group_or 1 m in
    if str_in mod_ _ALLOWED_REWRITE_MODULES then "from source import" else group0 m in
  sub re_from_import repl test_code.

(** [( patch\( \s* ['DQ] ) ( m1 | m2 | ... ) \.] and the same with [@patch];
    the replacement template is [\1source.]  The source joins the names
    of a set, in an order that Python leaves open; as each alternative
    must be followed by a dot and no name holds one, at most one
    alternative matches at a position and the order is immaterial. *)
Definition re_patch_target (opener : string) (mods : list string) : regex :=
  Seqs [Group 1 (Seqs [Lit opener; Many is_space; Chr is_quote]);
        Group 2 (Alts (Lit <$> mods)); Lit "."].

Definition to_source (m : rmatch) : string := group_or 1 m ++ "source.".

Definition _rewrite_patch_targets_to_source (test_code : string) : string :=
  let test_code := sub (re_patch_target "patch(" _ALLOWED_REWRITE_MODULES) to_source test_code in
  sub (re_patch_target "@patch(" _ALLOWED_REWRITE_MODULES) to_source test_code.

(** [^ {import_line} \s* $] under re.MULTILINE *)
Definition re_import_line (import_line : string) : regex :=
  Seqs [Bol; Lit import_line; Many is_space; Eol].

Definition _ensure_import (test_code import_line : string) : string :=
  if matches (re_import_line import_line) test_code then test_code
  else if contains "import pytest" test_code
  then replace_first "import pytest" ("import pytest" ++ NL ++ import_line) test_code
  else import_line ++ NL ++ test_code.

(** [^ \s* ( [A-Za-z_] \w* ) \s* = \s* Flask \s* \(] under re.MULTILINE *)
Definition re_flask_app : regex :=
  Seqs [Bol; Many is_space; Group 1 (Seq (Chr ident_start) (Many is_word)); Many is_space;
        Lit "="; Many is_space; Lit "Flask"; Many is_space; Lit "("].

Definition _detect_flask_app_var (source_code : string) : option string :=
  match search re_flask_app source_code with
  | Some m => group 1 m
  | None => None
  end.

(** [def \s+ test_ \w+ \s* \( [^)]* \b client \b [^)]* \) \s* :] *)
Definition re_client_arg : regex :=
  Seqs [Lit "def"; Some1 is_space; Lit "test_"; Some1 is_word; Many is_space; Lit "(";
        Many (not_of ")"); WordB; Lit "client"; WordB; Many (not_of ")"); Lit ")";
        Many is_space; Lit ":"].

(** [@pytest\.fixture [\s\S]*? \n def \s+ client \s* \(] *)
Definition re_client_fixture : regex :=
  Seqs [Lit "@pytest.fixture"; Star false (Chr anything); Lit NL; Lit "def"; Some1 is_space;
        Lit "client"; Many is_space; Lit "("].

Definition fixture_code (flask_app_var : string) : string :=
  NL ++ NL ++ "@pytest.fixture" ++ NL
  ++ "def client():" ++ NL
  ++ "    from source import " ++ flask_app_var ++ " as _app" ++ NL
  ++ "    _app.config[" ++ String DQ "TESTING" ++ String DQ "] = True" ++ NL
  ++ "    with _app.test_client() as c:" ++ NL
  ++ "        yield c" ++ NL.

Definition _inject_flask_client_fixture (test_code flask_app_var : string) : string :=
  let uses_client_arg := matches re_client_arg test_code in
  let has_client_fixture := matches re_client_fixture test_code in
  if negb uses_client_arg || has_client_fixture then test_code
  else if contains "import pytest" test_code
  then replace_first "import pytest" ("import pytest" ++ fixture_code flask_app_var) test_code
  else "import pytest" ++ fixture_code flask_app_var ++ NL ++ test_code.

(** Insertion into a Python set that is later iterated.  Python leaves the
    iteration order of a set open; the model iterates in insertion order. *)
Definition set_add (x : string) (l : list string) : list string :=
  if str_in x l then l else app l [x].

(** [ImportVisitor] of [_auto_import_from_source_if_missing]:
    the names bound by imports, and whether [source] itself is imported. *)
Definition visit_import (st : list string * bool) (node : import_node)
    : list string * bool :=
  let '(imported, uses_source_module) := st in
  match node with
  | Import names =>
      fold_left
        (fun st a =>
           (set_add (or_else (alias_asname a) (before "." (alias_name a))) (fst st),
            snd st || String.eqb (alias_name a) "source"))
        names (imported, uses_source_module)
  | ImportFrom (Some "source") names _ =>
      (fold_left
         (fun imp a =>
            if String.eqb (alias_name a) "*" then set_add "*" imp
            else set_add (or_else (alias_asname a) (alias_name a)) imp)
         names imported,
       uses_source_module)
  | ImportFrom _ _ _ => st
  end.

Definition _auto_import_from_source_if_missing (processed_test fixed_source : string)
    : string :=
  match ast_parse fixed_source with
  | None => processed_test
  | Some src_tree =>
      let defined := top_defs src_tree in
      match ast_parse processed_test with
      | None => processed_test
      | Some test_tree =>
          let '(imported, uses_source_module) :=
            fold_left visit_import (walk_imports test_tree) ([], false) in
          if str_in "*" imported then processed_test
          else
            let used := app (loaded_names test_tree) (source_attrs test_tree) in
            let uses_source_module :=
              uses_source_module || bool_decide (source_attrs test_tree ≠ []) in
            if uses_source_module then processed_test
            else
              let missing :=
                sorted (list_to_set
                          (filter (fun d => str_in d used = true ∧ str_in d imported = false)
                                  defined)) in
              match missing with
              | [] => processed_test
              | _ =>
                  _insert_import_after_import_block processed_test
                    ("from source import " ++ join ", " missing)
              end
      end
  end.

(** [#\s* File: \s* ( [\w]+ ) \.py] *)
Definition re_file_header : regex :=
  Seqs [Lit "#"; Many is_space; Lit "File:"; Many is_space; Group 1 (Some1 is_word);
        Lit ".py"].

(** [^ \s* from \s+ {module} \s+ import \s+] under re.MULTILINE *)
Definition re_from_module (m : string) : regex :=
  Seqs [Bol; Many is_space; Lit "from"; Some1 is_space; Lit m; Some1 is_space;
        Lit "import"; Some1 is_space].

(** The modules from which the test imports a name that the source
    defines at top level (or everything): the loop over [ast.walk(test_tree)]. *)
Definition user_module_of (source_top_defs : list string) (node : import_node)
    : option string :=
  match node with
  | ImportFrom (Some m) names O =>
      if nonempty m then
        let mod_ := before "." m in
        if in_set mod_ _STDLIB_MODULES || String.eqb mod_ "source" then None
        else if existsb (fun a => String.eqb (alias_name a) "*"
                                  || str_in (alias_name a) source_top_defs) names
        then Some mod_
        else None
      else None
  | _ => None
  end.

(** The substitution of [^ \s* from \s+ {module} \s+ import \s+] by
    [from source import ], which step 0 and step 3.7 of
    [_preprocess_python] apply for each module of their sets. *)
Definition repoint_import (user_mod processed_test : string) : string :=
  sub (re_from_module user_mod) (fun _ => "from source import ") processed_test.

(** The body of the loop of step 0 over [user_source_modules]: the
    import and the two forms of patch target. *)
Definition repoint_module (processed_test user_mod : string) : string :=
  let processed_test := repoint_import user_mod processed_test in
  let processed_test :=
    sub (re_patch_target "patch(" [user_mod]) to_source processed_test in
  sub (re_patch_target "@patch(" [user_mod]) to_source processed_test.

(** [patch\( \s* ['DQ] requests\.NAME ['DQ] \s* \)] *)
Definition re_patch_requests (name : string) : regex :=
  Seqs [Lit "patch("; Many is_space; Chr is_quote; Lit ("requests." ++ name); Chr is_quote;
        Many is_space; Lit ")"].

(** [\b Mock \s* \(] *)
Definition re_mock_call : regex := Seqs [WordB; Lit "Mock"; Many is_space; Lit "("].

(** [^ \s* from \s+ unittest\.mock \s+ import \s+ .* \b Mock \b] under re.MULTILINE *)
Definition re_mock_imported : regex :=
  Seqs [Bol; Many is_space; Lit "from"; Some1 is_space; Lit "unittest.mock"; Some1 is_space;
        Lit "import"; Some1 is_space; Many dot; WordB; Lit "Mock"; WordB].

(** [^ \s* from \s+ unittest\.mock \s+ import \s+ patch \s* $] under re.MULTILINE *)
Definition re_mock_patch_only : regex :=
  Seqs [Bol; Many is_space; Lit "from"; Some1 is_space; Lit "unittest.mock"; Some1 is_space;
        Lit "import"; Some1 is_space; Lit "patch"; Many is_space; Eol].

(** [\b requests \.] and [^ \s* import \s+ requests \b] under re.MULTILINE *)
Definition re_requests_use : regex := Seqs [WordB; Lit "requests."].
Definition re_requests_imported : regex :=
  Seqs [Bol; Many is_space; Lit "import"; Some1 is_space; Lit "requests"; WordB].

(** [(?<![_]) _name_ (?![_])] and [(?<![_]) ___name___ (?![_])] *)
Definition re_name_typo (typo : string) : regex :=
  Seqs [NotBehind (is_char "_"); Lit typo; NotAhead (is_char "_")].

(** [^ from \s+ \.+ ( \w+ ) \s+ import \s+] and [^ import \s+ \.+ ( \w+ ) \s+],
    under re.MULTILINE *)
Definition re_relative_from : regex :=
  Seqs [Bol; Lit "from"; Some1 is_space; Some1 (is_char "."); Group 1 (Some1 is_word);
        Some1 is_space; Lit "import"; Some1 is_space].
Definition re_relative_import : regex :=
  Seqs [Bol; Lit "import"; Some1 is_space; Some1 (is_char "."); Group 1 (Some1 is_word);
        Some1 is_space].

(** [^ \s* from \s+ ( \w+ ) \s+ import \s+] and the same followed by [( .+ ) $] *)
Definition re_from_line : regex :=
  Seqs [Bol; Many is_space; Lit "from"; Some1 is_space; Group 1 (Some1 is_word);
        Some1 is_space; Lit "import"; Some1 is_space].
Definition re_from_line_items : regex :=
  Seqs [re_from_line; Group 2 (Some1 dot); Eos].

(** [^ import \s+ os \b] under re.MULTILINE *)
Definition re_os_imported : regex := Seqs [Bol; Lit "import"; Some1 is_space; Lit "os"; WordB].

(** The set [stdlib_modules] local to step 3.6. *)
Definition kept_modules : list string :=
  [ "os"; "sys"; "re"; "json"; "datetime"; "time"; "collections";
    "functools"; "itertools"; "typing"; "unittest"; "pytest"; "logging";
    "pathlib"; "subprocess"; "tempfile"; "shutil"; "uuid"; "random";
    "math"; "decimal"; "statistics"; "hashlib"; "hmac"; "secrets";
    "urllib"; "requests"; "flask"; "django"; "sqlalchemy" ].

(** The loop of step 3.6 over the lines of the source: the lines kept and
    the modules whose import was removed. *)
Definition filter_line (st : list string * list string) (line : string)
    : list string * list string :=
  let '(filtered_lines, removed_imports) := st in
  let keep := (app filtered_lines [line], removed_imports) in
  if startswith "from __future__" (strip line) then keep
  else
    match rematch re_from_line line with
    | Some _ =>
        match rematch re_from_line_items line with
        | Some mm =>
            let module_name := group_or 1 mm in
            if str_in module_name kept_modules then keep
            else (filtered_lines, set_add module_name removed_imports)
        | None => keep
        end
    | None => keep
    end.

(** The set [user_source_modules] of step 0 of [_preprocess_python]: the
    module of a [# File: x.py] header of the source, and the modules from
    which the test imports a name that the source defines. *)
Definition user_source_modules (test_code source_code : string) : list string :=
  let source_top_defs :=
    match ast_parse source_code with
    | Some src_tree => top_defs src_tree
    | None => []
    end in
  let user_source_modules :=
    match search re_file_header source_code with
    | Some m => [group_or 1 m]
    | None => []
    end in
  match source_top_defs, ast_parse test_code with
  | _ :: _, Some test_tree =>
      fold_left
        (fun acc node =>
           match user_module_of source_top_defs node with
           | Some m => set_add m acc
           | None => acc
           end)
        (walk_imports test_tree) user_source_modules
  | _, _ => user_source_modules
  end.

Definition _preprocess_python (test_code source_code : string) : string * string :=
  (* 0a *)
  let processed_test := _fix_multiline_with_statements test_code in
  (* 0: the user's own module names *)
  let processed_test :=
    fold_left repoint_module (user_source_modules test_code source_code) processed_test in
  (* 1 *)
  let processed_test := _safe_rewrite_imports_to_source processed_test in
  let processed_test := _rewrite_patch_targets_to_source processed_test in
  let processed_test :=
    sub (re_patch_requests "get") (fun _ => "patch('source.requests.get')") processed_test in
  let processed_test :=
    sub (re_patch_requests "request") (fun _ => "patch('source.requests.request')")
        processed_test in
  (* 2 *)
  let processed_test :=
    if any_in ["@patch"; "patch("; "mock_open"] processed_test then
      if contains "mock_open" processed_test
      then _ensure_import processed_test "from unittest.mock import patch, mock_open"
      else _ensure_import processed_test "from unittest.mock import patch"
    else processed_test in
  let needs_mock := matches re_mock_call processed_test in
  let has_mock := matches re_mock_imported processed_test in
  let processed_test :=
    if needs_mock && negb has_mock then
      if matches re_mock_patch_only processed_test
      then sub re_mock_patch_only (fun _ => "from unittest.mock import patch, Mock")
               processed_test
      else _ensure_import processed_test "from unittest.mock import Mock"
    else processed_test in
  let processed_test :=
    if any_in ["os."; "os.environ"; "os.getenv"] processed_test
    then _ensure_import processed_test "import os"
    else processed_test in
  let processed_test :=
    if matches re_requests_use processed_test
       && negb (matches re_requests_imported processed_test)
    then _ensure_import processed_test "import requests"
    else processed_test in
  (* 3 *)
  let fixed_source := sub (re_name_typo "_name_") (fun _ => "__name__") source_code in
  let fixed_source := sub (re_name_typo "___name___") (fun _ => "__name__") fixed_source in
  let future_import := "from __future__ import annotations" ++ NL in
  let fixed_source :=
    if startswith future_import fixed_source then fixed_source
    else future_import ++ fixed_source in
  (* 3.5 *)
  let fixed_source :=
    sub re_relative_from (fun m => "from " ++ group_or 1 m ++ " import ") fixed_source in
  let fixed_source :=
    sub re_relative_import (fun m => "import " ++ group_or 1 m ++ " ") fixed_source in
  (* 3.6 *)
  let '(filtered_lines, removed_imports) :=
    fold_left filter_line (split LF fixed_source) ([], []) in
  let fixed_source := join NL filtered_lines in
  (* 3.7 *)
  let processed_test :=
    fold_left (fun pt internal_module => repoint_import internal_module pt)
      removed_imports processed_test in
  (* 4 *)
  let fixed_source :=
    if any_in ["os."; "os.environ"; "os.getenv"] fixed_source
       && negb (matches re_os_imported fixed_source)
    then "import os" ++ NL ++ fixed_source
    else fixed_source in
  (* 5 *)
  let processed_test :=
    match _detect_flask_app_var fixed_source with
    | Some (String _ _ as flask_var) => _inject_flask_client_fixture processed_test flask_var
    | _ => processed_test
    end in
  (* 6 *)
  let processed_test := _auto_import_from_source_if_missing processed_test fixed_source in
  (processed_test, fixed_source).

End Python.

(* ===================================================================== *)
(** * Structured test results *)
(* ===================================================================== *)

Inductive Status : Type := passed | failed.

#[global] Instance Status_eq_dec : EqDecision Status.
Proof. solve_decision. Defined.

(** One entry of a [tests] list. *)
Record TestCase : Type := {
  tc_name : string;
  tc_status : Status;
  tc_duration : Z;
  tc_description : string;
  tc_error : option string
}.

(** The [test_results_json] dictionary; the Java path has no [tests] key. *)
Record Summary : Type := {
  total : Z;
  passed_count : Z;
  failed_count : Z;
  skipped : Z;
  failures : list string;
  tests : option (list TestCase)
}.

(** The dictionary that an executor returns. *)
Record Result : Type := {
  success : bool;
  exit_code : Z;
  output : string;
  errors : string;
  xml_reports : option (list string);
  test_results_json : option Summary;
  container_name : option string
}.

(** ** Reports of the JavaScript runners, as [json.loads] returns them

    A key that is absent is [None]; for a list, absent and empty coincide
    ([.get(key, [])]).  Durations are whole milliseconds. *)

Record JestTest : Type := {
  jt_fullName : option string;
  jt_title : option string;
  jt_status : option string;
  jt_duration : option Z;
  jt_failureMessages : list string
}.

Record JestSuite : Type := { suite_testResults : list JestTest }.

Record JestReport : Type := { testResults : list JestSuite }.

(** [err_str] is [str(err_obj)]. *)
Record MochaErr : Type := {
  err_message : option string;
  err_stack : option string;
  err_str : string
}.

Definition no_err : MochaErr :=
  {| err_message := None; err_stack := None; err_str := "{}" |}.

Record MochaTest : Type := {
  mt_fullTitle : option string;
  mt_title : option string;
  mt_duration : option Z;
  mt_err : option MochaErr
}.

Record MochaReport : Type := {
  passes : list MochaTest;
  mocha_failures : list MochaTest;
  pending : list MochaTest
}.

Definition quoted (s : string) : string := String DQ (s ++ String DQ "").

(** The body of the loop of [_jest_json_to_tests]. *)
Definition jest_case (t : JestTest) : TestCase :=
  let name := or_else (or_opt (jt_fullName t) (jt_title t)) "unknown" in
  let status_raw := default "unknown" (jt_status t) in
  let status := if String.eqb status_raw "passed" then passed else failed in
  let duration := default 0%Z (jt_duration t) in
  let failure_msgs := jt_failureMessages t in
  let error := match failure_msgs with [] => None | _ => Some (join NL failure_msgs) end in
  {| tc_name := name; tc_status := status; tc_duration := duration;
     tc_description := name; tc_error := error |}.

Definition _jest_json_to_tests (data : JestReport) : list TestCase :=
  suite ← testResults data;
  t ← suite_testResults suite;
  [jest_case t].

Definition mocha_title (t : MochaTest) : string :=
  or_else (or_opt (mt_fullTitle t) (mt_title t)) "unknown".

(** The bodies of the three loops of [_mocha_json_to_tests]. *)
Definition mocha_pass_case (t : MochaTest) : TestCase :=
  {| tc_name := mocha_title t; tc_status := passed;
     tc_duration := default 0%Z (mt_duration t);
     tc_description := mocha_title t; tc_error := None |}.

Definition mocha_failure_case (t : MochaTest) : TestCase :=
  let err_obj := default no_err (mt_err t) in
  let msg :=
    or_else (or_opt (err_message err_obj) (err_stack err_obj))
            (or_else (Some (err_str err_obj)) "Test failed") in
  {| tc_name := mocha_title t; tc_status := failed;
     tc_duration := default 0%Z (mt_duration t);
     tc_description := mocha_title t; tc_error := Some msg |}.

Definition mocha_pending_case (t : MochaTest) : TestCase :=
  {| tc_name := mocha_title t; tc_status := failed; tc_duration := 0%Z;
     tc_description := mocha_title t; tc_error := Some "Test was pending/skipped" |}.

Definition _mocha_json_to_tests (data : MochaReport) : list TestCase :=
  app (mocha_pass_case <$> passes data)
      (app (mocha_failure_case <$> mocha_failures data)
           (mocha_pending_case <$> pending data)).

(** The marks of the verbose reporters, as UTF-8. *)
Definition utf8 (bytes : list nat) : string := string_of_list_ascii (byte <$> bytes).

Definition CHECK : string := utf8 [226; 156; 147].        (* U+2713 *)
Definition HEAVY_CHECK : string := utf8 [226; 156; 148].  (* U+2714 *)
Definition SQRT : string := utf8 [226; 136; 154].         (* U+221A *)
Definition MULT_X : string := utf8 [226; 156; 149].       (* U+2715 *)
Definition TIMES : string := utf8 [195; 151].             (* U+00D7 *)
Definition BALLOT_X : string := utf8 [226; 156; 151].     (* U+2717 *)
Definition HEAVY_BALLOT_X : string := utf8 [226; 156; 152]. (* U+2718 *)
Definition BULLET : string := utf8 [226; 151; 143].       (* U+25CF *)

Definition one_of (glyphs : list string) : regex := Alts (Lit <$> glyphs).

(** Jasmine: [[CHECK HEAVY_CHECK SQRT] \s+ ( .+ )] and
    [[BALLOT_X HEAVY_BALLOT_X TIMES] \s+ ( .+ )] *)
Definition re_jasmine_passed : regex :=
  Seqs [one_of [CHECK; HEAVY_CHECK; SQRT]; Some1 is_space; Group 1 (Some1 dot)].
Definition re_jasmine_failed : regex :=
  Seqs [one_of [BALLOT_X; HEAVY_BALLOT_X; TIMES]; Some1 is_space; Group 1 (Some1 dot)].

(** The inner loop of [_parse_jasmine_text]: the indented lines that
    follow a failure. *)
Fixpoint indented_lines (lines : list string) : list string :=
  match lines with
  | next_line :: rest =>
      if startswith "  " next_line || startswith (String (byte 9) "") next_line
      then strip next_line :: indented_lines rest
      else []
  | [] => []
  end.

Fixpoint jasmine_go (skip : nat) (lines : list string) : list TestCase :=
  match lines with
  | [] => []
  | l :: rest =>
      match skip with
      | S n => jasmine_go n rest
      | O =>
          let line := strip l in
          match rematch re_jasmine_passed line, rematch re_jasmine_failed line with
          | Some m, _ =>
              let name := strip (group_or 1 m) in
              {| tc_name := name; tc_status := passed; tc_duration := 0;
                 tc_description := name; tc_error := None |} :: jasmine_go 0 rest
          | None, Some m =>
              let name := strip (group_or 1 m) in
              let err_lines := indented_lines rest in
              let error := match err_lines with [] => "Test failed" | _ => join NL err_lines end in
              {| tc_name := name; tc_status := failed; tc_duration := 0;
                 tc_description := name; tc_error := Some error |}
                :: jasmine_go (length err_lines) rest
          | None, None => jasmine_go 0 rest
          end
      end
  end.

Definition _parse_jasmine_text (raw : string) : list TestCase :=
  jasmine_go 0 (splitlines raw).

(** Jest, verbose: [[CHECK HEAVY_CHECK SQRT] \s+ ( .+? ) (?: \s+ \( \d+ \s* ms \) )? $],
    the same with [[MULT_X TIMES BALLOT_X BULLET]], and [\( ( \d+ ) \s* ms \)] *)
Definition re_ms_suffix : regex :=
  Opt (Seqs [Some1 is_space; Lit "("; Some1 is_digit; Many is_space; Lit "ms)"]).
Definition re_jest_passed : regex :=
  Seqs [one_of [CHECK; HEAVY_CHECK; SQRT]; Some1 is_space; Group 1 (PlusLazy (Chr dot));
        re_ms_suffix; Eos].
Definition re_jest_failed : regex :=
  Seqs [one_of [MULT_X; TIMES; BALLOT_X; BULLET]; Some1 is_space; Group 1 (PlusLazy (Chr dot));
        re_ms_suffix; Eos].
Definition re_ms : regex :=
  Seqs [Lit "("; Group 1 (Some1 is_digit); Many is_space; Lit "ms)"].

Definition jest_text_line (line : string) : list TestCase :=
  let stripped := strip line in
  let dur :=
    match search re_ms stripped with
    | Some m => int_of_digits (group_or 1 m)
    | None => 0%Z
    end in
  match rematch re_jest_passed stripped, rematch re_jest_failed stripped with
  | Some p, _ =>
      let name := strip (group_or 1 p) in
      [ {| tc_name := name; tc_status := passed; tc_duration := dur;
           tc_description := name; tc_error := None |} ]
  | None, Some f =>
      let name := strip (group_or 1 f) in
      [ {| tc_name := name; tc_status := failed; tc_duration := dur;
           tc_description := name; tc_error := Some "See output for details" |} ]
  | None, None => []
  end.

Definition _parse_jest_text (raw : string) : list TestCase :=
  l ← splitlines raw; jest_text_line l.

Definition is_failed (t : TestCase) : bool := bool_decide (tc_status t = failed).
Definition is_passed (t : TestCase) : bool := bool_decide (tc_status t = passed).

Definition _build_js_test_results (tests_ : list TestCase) (raw_output : string) : Summary :=
  let total_ := Z.of_nat (length tests_) in
  let passed_ := Z.of_nat (length (filter (fun t => tc_status t = passed) tests_)) in
  {| total := total_;
     passed_count := passed_;
     failed_count := total_ - passed_;
     skipped := 0;
     failures :=
       t ← tests_;
       match tc_status t, tc_error t with
       | failed, Some (String _ _ as e) => [tc_name t ++ ": " ++ e]
       | _, _ => []
       end;
     tests := Some tests_ |}.

(* ===================================================================== *)
(** * The world of one job *)
(* ===================================================================== *)

Inductive Event : Type :=
| DockerRun (name : string)       (* [docker run --rm --name name ...] *)
| DockerKill (name : string)      (* [docker kill name] was called *)
| Rmtree (path : string)          (* [shutil.rmtree(path)] was called *)
| LogError (msg : string).        (* [logger.error] *)

#[global] Instance Event_eq_dec : EqDecision Event.
Proof. solve_decision. Defined.

(** The directories that exist, and what the engine did, oldest first.
    The files written into the job directory and the other arguments of
    [docker run] are left out. *)
Record World : Type := {
  dirs : gset string;
  events : list Event
}.

Definition emit (e : Event) (w : World) : World :=
  {| dirs := dirs w; events := app (events w) [e] |}.

(** [os.path.join(a, b)] for a relative [b]. *)
Definition path_join (a b : string) : string :=
  if nonempty a && negb (endswith "/" a) then a ++ "/" ++ b else a ++ b.

(** [os.makedirs(os.path.join(base, *segs), exist_ok=True)] *)
Fixpoint makedirs (base : string) (segs : list string) (fs : gset string) : gset string :=
  match segs with
  | [] => {[ base ]} ∪ fs
  | s :: rest => makedirs (path_join base s) rest ({[ base ]} ∪ fs)
  end.

Definition under (root p : string) : bool :=
  String.eqb p root || startswith (path_join root "") p.

(** What a successful [shutil.rmtree(root)] leaves. *)
Definition rmtree (root : string) (fs : gset string) : gset string :=
  filter (fun p => under root p = false) fs.

(** Where an exception other than [TimeoutExpired] escapes from. *)
Inductive Stage : Type := Preparing | Launching | Parsing.

(** What [subprocess.run(docker_cmd, ..., timeout=timeout)] and the stages
    around it do. *)
Inductive Outcome : Type :=
| Completed (returncode : Z) (stdout stderr : string)
| TimeoutExpired
| Raised (stage : Stage) (msg : string).

(** ** Surefire reports, as [xml.etree.ElementTree] reads them *)

(** [int(root.get(key, 0))]: the key is absent, holds an integer, or holds
    a text on which [int] raises. *)
Inductive Attr : Type := AttrAbsent | AttrInt (z : Z) | AttrBad.

Record MessageElem : Type := { me_message : option string; me_text : option string }.

Record TestcaseElem : Type := {
  te_name : option string;
  te_classname : option string;
  te_failure : option MessageElem;
  te_error : option MessageElem
}.

Record ReportRoot : Type := {
  rr_xml : string;                (* [ET.tostring(root, encoding='unicode')] *)
  rr_tests : Attr;
  rr_failures : Attr;
  rr_errors : Attr;
  rr_skipped : Attr;
  rr_testcases : list TestcaseElem
}.

(** An entry of [os.listdir(surefire_dir)]; [rf_root = None] when
    [ET.parse] raises. *)
Record ReportFile : Type := { rf_name : string; rf_root : option ReportRoot }.

(** What the environment decides for one call of [execute_tests_in_docker]. *)
Record Env : Type := {
  SHARED_WORK_DIR : option string;
  DOCKER_VOLUME_NAME : option string;
  uuid8 : string;                      (* [uuid.uuid4().hex[:8]] *)
  job_id : string;                     (* [uuid.uuid4().hex] *)
  mkdtemp : string + string;           (* [tempfile.mkdtemp(...)]: [inl msg] when it raises *)
  makedirs_error : option string;      (* [os.makedirs(temp_dir)] raises *)
  outcome : Outcome;
  kill_error : option string;          (* [subprocess.run(["docker", "kill", ...])] raises *)
  surefire : option (list ReportFile); (* [None]: target/surefire-reports is absent *)
  rmtree_error : option string         (* [shutil.rmtree(temp_dir)] raises *)
}.

Definition synthetic_failure (msg : string) : Result :=
  {| success := false; exit_code := -1; output := ""; errors := msg;
     xml_reports := None; test_results_json := None; container_name := None |}.

Definition timed_out (timeout : Z) : Result :=
  synthetic_failure ("Execution timed out after " ++ str_of_Z timeout ++ "s").

(** What a call gives: the value it returns, or the exception that leaves
    it, as its [str(e)]. *)
Inductive Returned (A : Type) : Type :=
| Returns (a : A)
| Raises (msg : string).
Arguments Returns {A} a.
Arguments Raises {A} msg.

(** The handler [except subprocess.TimeoutExpired], the same in the three
    pipelines.  [docker kill] is run without a guard: when the call itself
    raises, its exception leaves the handler (the clause [except Exception]
    of the same [try] does not apply to it) and no result is returned. *)
Definition on_timeout (timeout : Z) (container : string) (env : Env) (w : World)
    : Returned Result * World :=
  let w := emit (DockerKill container) w in
  match kill_error env with
  | None => (Returns (timed_out timeout), w)
  | Some msg => (Raises msg, w)
  end.

(* ===================================================================== *)
(** * The Java pipeline *)
(* ===================================================================== *)

Definition read_attr (a : Attr) : option Z :=
  match a with
  | AttrAbsent => Some 0%Z
  | AttrInt z => Some z
  | AttrBad => None
  end.

Definition py_str (o : option string) : string := default "None" o.

(** The loop over [root.findall("testcase")]. *)
Definition failure_line (tc : TestcaseElem) : list string :=
  match te_failure tc, te_error tc with
  | Some fe, _ =>
      let msg := or_else (or_opt (me_message fe) (me_text fe)) "Assertion Failed" in
      [py_str (te_classname tc) ++ "." ++ py_str (te_name tc) ++ ": " ++ msg]
  | None, Some ee =>
      let msg := or_else (or_opt (me_message ee) (me_text ee)) "Error" in
      [py_str (te_classname tc) ++ "." ++ py_str (te_name tc) ++ ": " ++ msg]
  | None, None => []
  end.

Definition empty_summary : Summary :=
  {| total := 0; passed_count := 0; failed_count := 0; skipped := 0;
     failures := []; tests := None |}.

Definition with_total (s : Summary) (n : Z) : Summary :=
  {| total := total s + n; passed_count := passed_count s; failed_count := failed_count s;
     skipped := skipped s; failures := failures s; tests := tests s |}.

(** The body of the loop over [os.listdir(surefire_dir)].  An exception
    ([ET.parse], [int]) ends the work on that file and keeps what was
    already added. *)
Definition read_report (st : Summary * list string) (f : ReportFile)
    : Summary * list string :=
  let '(test_summary, reports) := st in
  if endswith ".xml" (rf_name f) then
    match rf_root f with
    | None => st
    | Some root =>
        let reports := app reports [rr_xml root] in
        match read_attr (rr_tests root) with
        | None => (test_summary, reports)
        | Some n =>
            let test_summary := with_total test_summary n in
            match read_attr (rr_failures root), read_attr (rr_errors root),
                  read_attr (rr_skipped root) with
            | Some failures_, Some errors_, Some skipped_ =>
                ({| total := total test_summary;
                    passed_count := passed_count test_summary;
                    failed_count := failed_count test_summary + (failures_ + errors_);
                    skipped := skipped test_summary + skipped_;
                    failures :=
                      app (failures test_summary) (tc ← rr_testcases root; failure_line tc);
                    tests := None |}, reports)
            | _, _, _ => (test_summary, reports)
            end
        end
    end
  else st.

Definition java_summary (reports : option (list ReportFile)) : Summary * list string :=
  let '(s, xml) := fold_left read_report (default [] reports) (empty_summary, []) in
  ({| total := total s;
      passed_count := total s - failed_count s - skipped s;
      failed_count := failed_count s; skipped := skipped s;
      failures := failures s; tests := None |}, xml).

Definition java_dirs (temp_dir : string) (fs : gset string) : gset string :=
  makedirs temp_dir ["src"; "test"; "java"; "com"; "test"]
    (makedirs temp_dir ["src"; "main"; "java"; "com"; "test"] fs).

(** [execute_java_tests], from the result of [subprocess.run] on.  An
    exception of the preparation is taken to escape before any directory
    is made; [xml.etree.ElementTree] is taken to be importable. *)
Definition execute_java_tests (timeout : Z) (temp_dir container : string)
    (env : Env) (w : World) : Returned Result * World :=
  match outcome env with
  | Raised Preparing msg => (Returns (synthetic_failure msg), w)
  | Raised _ msg =>
      (Returns (synthetic_failure msg),
       emit (DockerRun container) {| dirs := java_dirs temp_dir (dirs w); events := events w |})
  | TimeoutExpired =>
      on_timeout timeout container env
        (emit (DockerRun container)
           {| dirs := java_dirs temp_dir (dirs w); events := events w |})
  | Completed returncode stdout stderr =>
      let w := emit (DockerRun container)
                 {| dirs := java_dirs temp_dir (dirs w); events := events w |} in
      let '(test_summary, xml) := java_summary (surefire env) in
      let success_ :=
        (returncode =? 0)%Z
        && (if (0 <? total test_summary)%Z then (failed_count test_summary =? 0)%Z else true) in
      (Returns {| success := success_; output := stdout; errors := stderr;
                  exit_code := returncode; xml_reports := Some xml;
                  test_results_json := Some test_summary; container_name := None |}, w)
  end.

(* ===================================================================== *)
(** * The JavaScript / TypeScript pipeline *)
(* ===================================================================== *)

Inductive JsFramework : Type := Jest | Mocha | Jasmine.

(** [\.to\. ( equal | be | have | throw | include | deep )] and
    [\.tobe\( | \.toequal\( | \.tomatch\(] *)
Definition re_chai_style : regex :=
  Seq (Lit ".to.") (Alts (Lit <$> ["equal"; "be"; "have"; "throw"; "include"; "deep"])).
Definition re_jest_matchers : regex :=
  Alts (Lit <$> [".tobe("; ".toequal("; ".tomatch("]).

(** Step 1 of [execute_javascript_tests]. *)
Definition detect_js_framework (config : Config) (test_code : string) : JsFramework :=
  let cfg_framework := lower (default "" (framework config)) in
  if String.eqb cfg_framework "jest" then Jest
  else if String.eqb cfg_framework "mocha" then Mocha
  else if String.eqb cfg_framework "jasmine" then Jasmine
  else
    let test_lower := lower test_code in
    let is_jasmine := contains "jasmine" test_lower in
    let has_chai_style := matches re_chai_style test_lower in
    let is_mocha :=
      negb is_jasmine
      && (contains "mocha" test_lower
          || contains "chai" test_lower
          || has_chai_style
          || (contains "describe(" test_code
              && contains "it(" test_code
              && negb (contains "jest." test_lower)
              && negb (matches re_jest_matchers test_lower))) in
    if is_jasmine then Jasmine else if is_mocha then Mocha else Jest.

(** Step 4 of [execute_javascript_tests]: the [test] script of
    package.json for Jest, [ext] being [js] or [ts].  [npm test] runs it,
    after it has printed it. *)
Definition jest_test_script (ext : string) : string :=
  "jest --json --outputFile=/tmp/jest-results.json test." ++ ext ++ " ; "
  ++ "echo '===JEST_JSON_START===' ; "
  ++ "cat /tmp/jest-results.json 2>/dev/null || echo '{}' ; "
  ++ "echo '===JEST_JSON_END==='".

Section JavaScript.

(** [json.loads] followed by the reading of the value as a report of the
    runner, and [json.JSONDecoder().raw_decode(raw, idx)]; [None] when the
    decoder raises. *)
Variable loads_jest : string -> option JestReport.
Variable loads_mocha : string -> option MochaReport.
Variable raw_decode_mocha : string -> Z -> option MochaReport.

Definition _parse_jest_json (raw : string) : option JestReport :=
  let idx := find (quoted "numFailedTestSuites") raw in
  let idx := if (idx =? -1)%Z then find (quoted "testResults") raw else idx in
  if (idx =? -1)%Z then None
  else
    let brace_idx := rfind_before "{" raw idx in
    if (brace_idx =? -1)%Z then None
    else loads_jest (sdrop (Z.to_nat brace_idx) raw).

Definition MOCHA_START : string := "===MOCHA_JSON_START===".
Definition MOCHA_END : string := "===MOCHA_JSON_END===".
Definition JEST_START : string := "===JEST_JSON_START===".
Definition JEST_END : string := "===JEST_JSON_END===".

Definition len (s : string) : Z := Z.of_nat (String.length s).

Definition mocha_fallback (raw : string) : option MochaReport :=
  let idx := find (quoted "stats") raw in
  if (idx =? -1)%Z then None
  else
    let brace_idx := rfind_before "{" raw idx in
    if (brace_idx =? -1)%Z then None
    else raw_decode_mocha raw brace_idx.

Definition _parse_mocha_json (raw : string) : option MochaReport :=
  let si := rfind MOCHA_START raw in
  let ei := rfind MOCHA_END raw in
  let delimited :=
    if negb (si =? -1)%Z && negb (ei =? -1)%Z && (si <? ei)%Z then
      let blob := strip (slice (si + len MOCHA_START) ei raw) in
      if nonempty blob && negb (String.eqb blob "{}") then loads_mocha blob else None
    else None in
  match delimited with
  | Some data => Some data
  | None => mocha_fallback raw
  end.

Definition nonempty_list {A} (l : list A) : bool :=
  match l with [] => false | _ => true end.

Definition parse_jest (raw : string) : list TestCase :=
  let si := find JEST_START raw in
  let ei := find JEST_END raw in
  let parsed_tests :=
    if negb (si =? -1)%Z && negb (ei =? -1)%Z then
      let blob := strip (slice (si + len JEST_START) ei raw) in
      match loads_jest blob with
      | Some jest_data => _jest_json_to_tests jest_data
      | None => []
      end
    else [] in
  let parsed_tests :=
    if nonempty_list parsed_tests then parsed_tests
    else match _parse_jest_json raw with
         | Some jest_data => _jest_json_to_tests jest_data
         | None => parsed_tests
         end in
  if nonempty_list parsed_tests then parsed_tests else _parse_jest_text raw.

Definition suite_failed_entry (raw : string) : TestCase :=
  let lines := splitlines raw in
  let error_lines :=
    filter (fun l => nonempty (strip l) = true ∧ startswith "> " l = false
                     ∧ contains "MOCHA_JSON" l = false) lines in
  let error_detail :=
    or_else (Some (strip (join NL (take 30 error_lines)))) "Test suite failed to run" in
  {| tc_name := "Test suite failed to run"; tc_status := failed; tc_duration := 0;
     tc_description := "The test suite could not be executed.";
     tc_error := Some (stake 2000 error_detail) |}.

Definition parse_mocha (raw : string) : list TestCase :=
  let parsed_tests :=
    match _parse_mocha_json raw with
    | Some mocha_data => _mocha_json_to_tests mocha_data
    | None => []
    end in
  let parsed_tests :=
    if nonempty_list parsed_tests then parsed_tests else _parse_jest_text raw in
  if nonempty_list parsed_tests then parsed_tests
  else
    let has_mocha_stats := contains (quoted "stats") raw || contains (quoted "passes") raw in
    if negb has_mocha_stats then [suite_failed_entry raw] else parsed_tests.

Definition parse_jasmine (raw : string) : list TestCase :=
  let parsed_tests := _parse_jasmine_text raw in
  if nonempty_list parsed_tests then parsed_tests else _parse_jest_text raw.

(** Step 7 of [execute_javascript_tests]. *)
Definition js_parsed_tests (fw : JsFramework) (raw : string) : list TestCase :=
  match fw with
  | Jest => parse_jest raw
  | Mocha => parse_mocha raw
  | Jasmine => parse_jasmine raw
  end.

Definition js_result (fw : JsFramework) (returncode : Z) (stdout stderr : string) : Result :=
  let raw := stdout ++ NL ++ stderr in
  let parsed_tests := js_parsed_tests fw raw in
  let test_results := _build_js_test_results parsed_tests raw in
  let success_ := (returncode =? 0)%Z in
  let success_ :=
    if (0 <? total test_results)%Z then (failed_count test_results =? 0)%Z else success_ in
  {| success := success_; output := stdout; errors := stderr; exit_code := returncode;
     xml_reports := Some []; test_results_json := Some test_results;
     container_name := None |}.

Definition execute_javascript_tests (test_code : string) (timeout : Z) (config : Config)
    (container : string) (env : Env) (w : World) : Returned Result * World :=
  let fw := detect_js_framework config test_code in
  match outcome env with
  | Raised Preparing msg => (Returns (synthetic_failure msg), w)
  | Raised _ msg => (Returns (synthetic_failure msg), emit (DockerRun container) w)
  | TimeoutExpired => on_timeout timeout container env (emit (DockerRun container) w)
  | Completed returncode stdout stderr =>
      (Returns (js_result fw returncode stdout stderr), emit (DockerRun container) w)
  end.

(* ===================================================================== *)
(** * The orchestrator *)
(* ===================================================================== *)

Definition truthy (o : option string) : bool :=
  match o with Some s => nonempty s | None => false end.

(** The first statements of the [try] block: the job directory is
    created, or the creation raises (with [temp_dir] already assigned in
    the named-volume deployment, still [None] otherwise). *)
Inductive Created : Type :=
| CreatedAt (temp_dir : string)
| CreateFailed (msg : string) (temp_dir : option string).

Definition create_job_dir (env : Env) (w : World) : Created * World :=
  if truthy (SHARED_WORK_DIR env) && truthy (DOCKER_VOLUME_NAME env) then
    let temp_dir := path_join (default "" (SHARED_WORK_DIR env)) (job_id env) in
    match makedirs_error env with
    | Some msg => (CreateFailed msg (Some temp_dir), w)
    | None => (CreatedAt temp_dir, {| dirs := {[ temp_dir ]} ∪ dirs w; events := events w |})
    end
  else
    match mkdtemp env with
    | inl msg => (CreateFailed msg None, w)
    | inr temp_dir =>
        (CreatedAt temp_dir, {| dirs := {[ temp_dir ]} ∪ dirs w; events := events w |})
    end.

Definition temp_dir_of (c : Created) : option string :=
  match c with
  | CreatedAt d => Some d
  | CreateFailed _ d => d
  end.

(** The [finally] block. *)
Definition cleanup (env : Env) (temp_dir : option string) (w : World) : World :=
  match temp_dir with
  | Some (String _ _ as d) =>
      if bool_decide (d ∈ dirs w) then
        match rmtree_error env with
        | None => emit (Rmtree d) {| dirs := rmtree d (dirs w); events := events w |}
        | Some e =>
            emit (LogError ("Failed to clean up temp dir: " ++ e)) (emit (Rmtree d) w)
        end
      else w
  | _ => w
  end.

(** The Python path, from the call of [subprocess.run] on. *)
Definition python_result (timeout : Z) (container : string) (env : Env) (w : World)
    : Returned Result * World :=
  match outcome env with
  | Raised Preparing msg => (Returns (synthetic_failure msg), w)
  | Raised _ msg => (Returns (synthetic_failure msg), emit (DockerRun container) w)
  | TimeoutExpired => on_timeout timeout container env (emit (DockerRun container) w)
  | Completed returncode stdout stderr =>
      (Returns {| success := (returncode =? 0)%Z; exit_code := returncode;
                  output := stdout; errors := stderr; xml_reports := None;
                  test_results_json := None; container_name := Some container |},
       emit (DockerRun container) w)
  end.

(** The clause [except Exception as e] of [execute_tests_in_docker], for
    an exception that leaves [execute_java_tests] or
    [execute_javascript_tests]: both are called inside the [try] block. *)
Definition caught (x : Returned Result * World) : Returned Result * World :=
  match fst x with
  | Returns _ => x
  | Raises msg => (Returns (synthetic_failure msg), snd x)
  end.

(** [execute_tests_in_docker].  The parameters that only shape the files
    of the job directory and the arguments of [docker run] ([env_vars],
    [execution_mode], [project_id], [requirements], [custom_deps]) have no
    part in the result or in the [World], and are left out.  An exception
    of [docker kill] on the Python path leaves the function, after the
    [finally] block. *)
Definition execute_tests_in_docker (test_code source_code : string)
    (language : option string) (timeout : Z) (config : Config)
    (env : Env) (w : World) : Returned Result * World :=
  let container := "genai-test-" ++ uuid8 env in
  let '(created, w) := create_job_dir env w in
  let '(result, w) :=
    match created with
    | CreatedAt temp_dir =>
        let detected_language := _detect_language source_code test_code language in
        if String.eqb detected_language "java"
        then caught (execute_java_tests timeout temp_dir container env w)
        else if str_in detected_language ["javascript"; "typescript"]
        then caught (execute_javascript_tests test_code timeout config container env w)
        else python_result timeout container env w
    | CreateFailed msg _ => (Returns (synthetic_failure msg), w)
    end in
  (result, cleanup env (temp_dir_of created) w).

End JavaScript.

(* ===================================================================== *)
(** * The pytest output parser of the route handler *)
(* ===================================================================== *)

(** Under re.IGNORECASE:
    [(?: test\.py | test_ \w+ \.py ) :: (?: \w+ :: )? ( test_ \w+ ) \s+ ( PASSED | FAILED | ERROR )],
    [( test_ \w+ ) \s+ ( PASSED | FAILED | ERROR )] and
    [( \d+ ) \s+ passed (?: , \s* ( \d+ ) \s+ failed )?] *)
Definition re_verdict : regex := Group 2 (Alts (LitI <$> ["PASSED"; "FAILED"; "ERROR"])).

Definition re_pytest_node : regex :=
  Seqs [Alt (LitI "test.py") (Seqs [LitI "test_"; Some1 is_word; LitI ".py"]); Lit "::";
        Opt (Seq (Some1 is_word) (Lit "::"));
        Group 1 (Seq (LitI "test_") (Some1 is_word)); Some1 is_space; re_verdict].

Definition re_pytest_name : regex :=
  Seqs [Group 1 (Seq (LitI "test_") (Some1 is_word)); Some1 is_space; re_verdict].

Definition re_pytest_summary : regex :=
  Seqs [Group 1 (Some1 is_digit); Some1 is_space; LitI "passed";
        Opt (Seqs [Lit ","; Many is_space; Group 2 (Some1 is_digit); Some1 is_space;
                   LitI "failed"])].

Definition pytest_line (line : string) : list TestCase :=
  let found :=
    match search re_pytest_node line with
    | Some m => Some m
    | None => search re_pytest_name line
    end in
  match found with
  | Some m =>
      let name := group_or 1 m in
      let status := group_or 2 m in
      [ {| tc_name := name;
           tc_status := if String.eqb (upper status) "PASSED" then passed else failed;
           tc_duration := 0;
           tc_description := replace "_" " " (replace "test_" "" name);
           tc_error :=
             if str_in (upper status) ["FAILED"; "ERROR"]
             then Some "See output for details" else None |} ]
  | None => []
  end.

(** [range(n)] as the numbers [0 .. n-1]. *)
Definition range (n : Z) : list Z := Z.of_nat <$> seq 0 (Z.to_nat n).

Definition numbered_case (st : Status) (err : option string) (i : Z) : TestCase :=
  {| tc_name := "test_case_" ++ str_of_Z i; tc_status := st; tc_duration := 0;
     tc_description := "Test case " ++ str_of_Z i; tc_error := err |}.

Definition parse_pytest_output (output_ : string) (docker_data : Result) : list TestCase :=
  let tests_ := l ← split LF output_; pytest_line l in
  let tests_ :=
    if nonempty_list tests_ then tests_
    else match search re_pytest_summary output_ with
         | Some m =>
             let passed_n := int_of_digits (or_else (group 1 m) "0") in
             let failed_n := int_of_digits (or_else (group 2 m) "0") in
             app ((fun i => numbered_case passed None (i + 1)%Z) <$> range passed_n)
                 ((fun i => numbered_case failed (Some "See output for details")
                                          (passed_n + i + 1)%Z) <$> range failed_n)
         | None => tests_
         end in
  if nonempty_list tests_ then tests_
  else
    let success_ := (exit_code docker_data =? 0)%Z in
    [ {| tc_name := "test_execution";
         tc_status := if success_ then passed else failed;
         tc_duration := 0; tc_description := "Test execution";
         tc_error := if success_ then None else Some "Check raw output" |} ].


(** The [parsed_tests] list that the route handler [execute_tests] builds
    from the result of [execute_tests_in_docker]. *)
Fixpoint split_once (sep : ascii) (s : string) : string * option string :=
  match s with
  | EmptyString => (EmptyString, None)
  | String c r =>
      if Ascii.eqb c sep then (EmptyString, Some r)
      else let '(a, b) := split_once sep r in (String c a, b)
  end.

Definition legacy_failure (msg : string) : TestCase :=
  let '(name, rest) := split_once ":" msg in
  {| tc_name := name; tc_status := failed; tc_description := "Java Test Case";
     tc_duration := 0; tc_error := Some (strip (default "Unknown Error" rest)) |}.

Definition legacy_passed (i : Z) : TestCase :=
  {| tc_name := "Test_" ++ str_of_Z (i + 1); tc_status := passed;
     tc_description := "Java Test Case"; tc_duration := 0; tc_error := None |}.

Definition route_parsed_tests (result : Result) : list TestCase :=
  match test_results_json result with
  | Some ts =>
      match tests ts with
      | Some ((_ :: _) as ts_tests) =>
          (fun t =>
             {| tc_name := tc_name t; tc_status := tc_status t;
                tc_description := or_else (Some (tc_description t)) (tc_name t);
                tc_duration := tc_duration t; tc_error := tc_error t |}) <$> ts_tests
      | _ =>
          app (legacy_failure <$> failures ts) (legacy_passed <$> range (passed_count ts))
      end
  | None => parse_pytest_output (output result) result
  end.

(* ===================================================================== *)
(** * ESM to CommonJS *)
(* ===================================================================== *)

(** The quoted module path [['DQ] ( [^'DQ]+ ) ['DQ]], its text in group [i]. *)
Definition not_quote (c : ascii) : bool := negb (is_quote c).

Definition re_module_path (i : nat) : regex :=
  Seqs [Chr is_quote; Group i (Some1 not_quote); Chr is_quote].

(** The patterns of [_convert_esm_to_cjs], all under re.MULTILINE:
    [^ import \s* \{ ( [^}]+ ) \} \s* from \s* PATH],
    [^ import \s* \* \s* as \s+ ( \w+ ) \s+ from \s* PATH],
    [^ import \s+ ( \w+ ) \s+ from \s* PATH],
    [^ import \s* PATH],
    [^ export \s+ default \s+],
    [^ export \s* \{ ( [^}]+ ) \}] and
    [^ export \s+ ( (?: async \s+ )? (?: function | class | const | let | var ) )]. *)
Definition re_import_named : regex :=
  Seqs [Bol; Lit "import"; Many is_space; Lit "{"; Group 1 (Some1 (not_of "}")); Lit "}";
        Many is_space; Lit "from"; Many is_space; re_module_path 2].

Definition re_import_namespace : regex :=
  Seqs [Bol; Lit "import"; Many is_space; Lit "*"; Many is_space; Lit "as"; Some1 is_space;
        Group 1 (Some1 is_word); Some1 is_space; Lit "from"; Many is_space;
        re_module_path 2].

Definition re_import_default : regex :=
  Seqs [Bol; Lit "import"; Some1 is_space; Group 1 (Some1 is_word); Some1 is_space;
        Lit "from"; Many is_space; re_module_path 2].

Definition re_import_bare : regex :=
  Seqs [Bol; Lit "import"; Many is_space; re_module_path 1].

Definition re_export_default : regex :=
  Seqs [Bol; Lit "export"; Some1 is_space; Lit "default"; Some1 is_space].

Definition re_export_names : regex :=
  Seqs [Bol; Lit "export"; Many is_space; Lit "{"; Group 1 (Some1 (not_of "}")); Lit "}"].

Definition re_export_declaration : regex :=
  Seqs [Bol; Lit "export"; Some1 is_space;
        Group 1 (Seq (Opt (Seq (Lit "async") (Some1 is_space)))
                     (Alts (Lit <$> ["function"; "class"; "const"; "let"; "var"])))].

Definition require_of (m : rmatch) : string := " = require('" ++ group_or 2 m ++ "')".

Definition _convert_esm_to_cjs (code : string) : string :=
  let code :=
    sub re_import_named (fun m => "const {" ++ group_or 1 m ++ "}" ++ require_of m) code in
  let code :=
    sub re_import_namespace (fun m => "const " ++ group_or 1 m ++ require_of m) code in
  let code :=
    sub re_import_default (fun m => "const " ++ group_or 1 m ++ require_of m) code in
  let code := sub re_import_bare (fun m => "require('" ++ group_or 1 m ++ "')") code in
  let code := sub re_export_default (fun _ => "module.exports = ") code in
  let code :=
    sub re_export_names (fun m => "module.exports = {" ++ group_or 1 m ++ "}") code in
  sub re_export_declaration (fun m => group_or 1 m) code.

(* ===================================================================== *)
(** * Sources that hold several files *)
(* ===================================================================== *)

(** Under re.MULTILINE and re.IGNORECASE:
    [^ (?: # | // ) \s* (?: === \s* )? File: \s* ( .+? ) (?: \s* === )? \s* $] *)
Definition re_file_marker : regex :=
  Seqs [Bol; Alt (Lit "#") (Lit "//"); Many is_space; Opt (Seq (Lit "===") (Many is_space));
        LitI "File:"; Many is_space; Group 1 (PlusLazy (Chr dot));
        Opt (Seq (Many is_space) (Lit "===")); Many is_space; Eol].

(** [m.start()] and [m.end()] of a match found in [source]. *)
Definition m_start (source : string) (m : rmatch) : nat :=
  String.length source - String.length (mo_src m).

Definition m_end (source : string) (m : rmatch) : nat := m_start source m + mo_end m.

(** [files[k] = v] on a dictionary, which keeps the order of the first
    insertions. *)
Fixpoint dict_set (k v : string) (d : list (string * string)) : list (string * string) :=
  match d with
  | [] => [(k, v)]
  | (k', v') :: d' => if String.eqb k k' then (k, v) :: d' else (k', v') :: dict_set k v d'
  end.

(** The loop over [enumerate(markers)]. *)
Fixpoint split_files_go (source : string) (markers : list rmatch)
    (files : list (string * string)) : list (string * string) :=
  match markers with
  | [] => files
  | m :: rest =>
      let filename := strip (group_or 1 m) in
      let start := m_end source m in
      let end_ :=
        match rest with
        | m' :: _ => m_start source m'
        | [] => String.length source
        end in
      let content := rstrip (lstrip_char LF (stake (end_ - start) (sdrop start source))) in
      split_files_go source rest (dict_set filename content files)
  end.

Definition _split_source_files (source_code : string) : option (list (string * string)) :=
  match finditer re_file_marker source_code with
  | [] => None
  | markers =>
      match split_files_go source_code markers [] with
      | [] => None
      | files => Some files
      end
  end.

(* ===================================================================== *)
(** * The container command *)
(* ===================================================================== *)

Inductive ExecutionMode : Type := UNIT | INTEGRATION.

#[global] Instance ExecutionMode_eq_dec : EqDecision ExecutionMode.
Proof. solve_decision. Defined.

(** Truthiness of an optional project id. *)
Definition truthy_id (project_id : option Z) : bool :=
  match project_id with Some z => negb (z =? 0)%Z | None => false end.

Definition py_id (project_id : option Z) : string :=
  match project_id with Some z => str_of_Z z | None => "None" end.

Section DockerCommand.

(** [os.path.relpath] *)
Variable relpath : string -> string -> string.

Definition _get_docker_mount_args (env : Env) (job_dir : string) : list string :=
  if truthy (SHARED_WORK_DIR env) && truthy (DOCKER_VOLUME_NAME env) then
    let rel_path := relpath job_dir (default "" (SHARED_WORK_DIR env)) in
    ["-v"; default "" (DOCKER_VOLUME_NAME env) ++ ":/workspace";
     "-w"; "/workspace/" ++ rel_path]
  else ["-v"; job_dir ++ ":/app:rw"; "-w"; "/app"].

(** The [--env-file] arguments; [env_vars] is the dictionary as a list. *)
Definition env_file_args (env_vars : list (string * string)) (temp_dir : string)
    : list string :=
  match env_vars with
  | [] => []
  | _ => ["--env-file"; path_join temp_dir ".env"]
  end.

(** The command of [execute_java_tests]. *)
Definition java_docker_cmd (env : Env) (container_name temp_dir : string)
    (project_id : option Z) (env_vars : list (string * string)) : list string :=
  app ["docker"; "run"; "--rm"; "--name"; container_name; "--memory"; "1g"; "--cpus"; "2.0"]
  (app (_get_docker_mount_args env temp_dir)
  (app (if truthy_id project_id
        then ["-v"; "genai_project_" ++ py_id project_id ++ "_m2_cache:/root/.m2"] else [])
  (app (env_file_args env_vars temp_dir)
       ["genaiqa/java-basic:latest"; "sh"; "-c"; "mvn clean test -Dstyle.color=never"]))).

(** The command of [execute_javascript_tests]. *)
Definition js_docker_cmd (env : Env) (container_name temp_dir : string)
    (execution_mode : ExecutionMode) (env_vars : list (string * string)) : list string :=
  app ["docker"; "run"; "--rm"; "--name"; container_name;
       "--memory"; "512m"; "--cpus"; "1.0"]
  (app (_get_docker_mount_args env temp_dir)
  (app (env_file_args env_vars temp_dir)
  (app (if bool_decide (execution_mode = UNIT) then ["--network"; "none"] else [])
       ["genaiqa/javascript-basic:latest"; "sh"; "-c"; "npm test 2>&1"]))).

Definition pytest_cmd : string :=
  "python -m pytest test.py -v --tb=short --maxfail=0 -p no:cacheprovider".

(** The command of the Python path of [execute_tests_in_docker];
    [merged_requirements] is the result of [_merge_requirements]. *)
Definition python_docker_cmd (env : Env) (container_name temp_dir : string)
    (source_code processed_test : string) (config : Config)
    (execution_mode : ExecutionMode) (project_id : option Z)
    (env_vars : list (string * string)) (merged_requirements : option string)
    : list string :=
  let docker_image := _select_executor_image source_code processed_test "python" config in
  let allow_network_ :=
    bool_decide (merged_requirements ≠ None) || allow_network config in
  app ["docker"; "run"; "--rm"; "--name"; container_name;
       "--memory"; "512m"; "--cpus"; "1.0";
       "--tmpfs"; "/tmp:rw,noexec,nosuid,size=150m";
       "-e"; "PYTHONDONTWRITEBYTECODE=1";
       "-e"; "PYTHONPYCACHEPREFIX=/tmp/pycache"]
  (app (_get_docker_mount_args env temp_dir)
  (app (env_file_args env_vars temp_dir)
  (app (if bool_decide (execution_mode = UNIT) && negb allow_network_
        then ["--network"; "none"] else [])
  (app (if truthy_id project_id
        then ["-v"; "genai_project_" ++ py_id project_id ++ "_pip_cache:/root/.cache/pip"]
        else [])
       (if truthy merged_requirements
        then [docker_image; "sh"; "-c"; "pip install -r requirements.txt && " ++ pytest_cmd]
        else [docker_image; "sh"; "-c"; pytest_cmd]))))).

End DockerCommand.

(* ===================================================================== *)
(** * The package of the Java source *)
(* ===================================================================== *)

(** [^ \s* package \s+ [^;]+ ;] under re.MULTILINE *)
Definition re_package : regex :=
  Seqs [Bol; Many is_space; Lit "package"; Some1 is_space; Some1 (not_of ";"); Lit ";"].

(** What [execute_java_tests] writes as the source file: the source with
    its package statements replaced, and one added when none is there. *)
Definition java_source_text (source_code : string) : string :=
  let source_code := sub re_package (fun _ => "package com.test;") source_code in
  if contains "package com.test;" source_code then source_code
  else "package com.test;" ++ NL ++ NL ++ source_code.

(** [public \s+ class \s+ ( \w+ )] *)
Definition re_class_name : regex :=
  Seqs [Lit "public"; Some1 is_space; Lit "class"; Some1 is_space; Group 1 (Some1 is_word)].

(** The name of the source class: that of the first [public class] of the
    source as it was given, [Application] when there is none. *)
Definition source_class_name (source_code : string) : string :=
  match search re_class_name source_code with
  | Some m => group_or 1 m
  | None => "Application"
  end.

(** The directory [src_main], and the file that [execute_java_tests]
    writes the source to, with its text. *)
Definition src_main (temp_dir : string) : string :=
  fold_left path_join ["src"; "main"; "java"; "com"; "test"] temp_dir.

Definition java_source_file (temp_dir source_code : string) : string * string :=
  (path_join (src_main temp_dir) (source_class_name source_code ++ ".java"),
   java_source_text source_code).

(* ===================================================================== *)
(** * Scenarios of a request and the tests that ran *)
(* ===================================================================== *)

(** A row of [test_scenarios], as [get_test_scenarios_for_request] reads it. *)
Record Scenario : Type := {
  sc_title : string;
  sc_description : option string;
  sc_category : option string;
  sc_code : option string
}.

Definition normalized_test (test_name : string) : string :=
  replace "_" " " (replace "test_" "" (lower test_name)).

Definition normalized_title (title : string) : string :=
  replace "-" " " (replace "_" " " (lower title)).

Definition match_test_to_scenario (test_name : string) (scenarios : list Scenario)
    : option Scenario :=
  match scenarios with
  | [] => None
  | _ =>
      List.find
        (fun scenario =>
           contains (normalized_test test_name) (normalized_title (sc_title scenario))
           || contains (normalized_title (sc_title scenario)) (normalized_test test_name))
        scenarios
  end.

(* ===================================================================== *)
(** * The builder of Java test classes *)
(* ===================================================================== *)

Record JavaField : Type := {
  jf_annotations : list string;
  jf_type : string;
  jf_name : string
}.

(** The [metadata] dictionary; a list that is absent is empty. *)
Record JavaMetadata : Type := {
  jm_package_name : string;
  jm_class_name : string;
  jm_imports : list string;
  jm_class_annotations : list string;
  jm_fields : list JavaField;
  jm_setup_code : option string;
  jm_teardown_code : option string
}.

(** A scenario; [jsc_annotations = None] when the key is absent. *)
Record JavaScenario : Type := {
  jsc_title : string;
  jsc_test_code : string;
  jsc_annotations : option (list string);
  jsc_throws : list string
}.

Definition indent4 (s : string) : string := "    " ++ s.
Definition indent8 (s : string) : string := "        " ++ s.

(** [sorted(import_set)] *)
Definition import_lines (metadata : JavaMetadata) : list string :=
  sorted (list_to_set ((fun imp => "import " ++ imp ++ ";") <$> jm_imports metadata)
          ∪ {[ "import org.junit.jupiter.api.Test;" ]}
          ∪ {[ "import static org.junit.jupiter.api.Assertions.*;" ]}).

Definition field_lines (field : JavaField) : list string :=
  app (indent4 <$> jf_annotations field)
      [indent4 ("private " ++ jf_type field ++ " " ++ jf_name field ++ ";"); ""].

Definition hook_lines (annotation method : string) (code : option string) : list string :=
  match code with
  | Some (String _ _ as c) =>
      [indent4 annotation; indent4 ("void " ++ method ++ "() {"); indent8 c; indent4 "}"; ""]
  | _ => []
  end.

Definition scenario_lines (scenario : JavaScenario) : list string :=
  let throws :=
    match jsc_throws scenario with
    | [] => ""
    | ts => " throws " ++ join ", " ts
    end in
  app (indent4 <$> default ["@Test"] (jsc_annotations scenario))
  (app [indent4 ("void " ++ jsc_title scenario ++ "()" ++ throws ++ " {")]
  (app (indent8 <$> split LF (jsc_test_code scenario))
       [indent4 "}"; ""])).

Definition build_test_class (metadata : JavaMetadata) (scenarios : list JavaScenario)
    : string :=
  join NL
    (app ["package " ++ jm_package_name metadata ++ ";"; ""]
    (app (import_lines metadata)
    (app [""]
    (app (jm_class_annotations metadata)
    (app ["public class " ++ jm_class_name metadata ++ " {"; ""]
    (app (field ← jm_fields metadata; field_lines field)
    (app (hook_lines "@BeforeEach" "setUp" (jm_setup_code metadata))
    (app (hook_lines "@AfterEach" "tearDown" (jm_teardown_code metadata))
    (app (scenario ← scenarios; scenario_lines scenario)
         ["}"]))))))))).

(* ===================================================================== *)
(** * Properties as the specification words them *)
(* ===================================================================== *)

(** "The exit code indicates success and, when any structured result
    exists, the structured parse reports zero failures." *)
Definition success_as_specified (r : Result) : Prop :=
  exit_code r = 0%Z
  ∧ match test_results_json r with
    | Some s => (0 < total s)%Z → failed_count s = 0%Z
    | None => True
    end.

(** What the JavaScript pipeline computes: the structured result decides
    when there is one, the exit code otherwise. *)
Definition success_structured_first (r : Result) : Prop :=
  match test_results_json r with
  | Some s => if (0 <? total s)%Z then failed_count s = 0%Z else exit_code r = 0%Z
  | None => exit_code r = 0%Z
  end.

Definition is_js (detected : string) : bool := str_in detected ["javascript"; "typescript"].

(* ===================================================================== *)
(** * Concrete runs *)
(* ===================================================================== *)

(** Decoders for runs whose output holds no JSON. *)
Definition no_jest : string -> option JestReport := fun _ => None.
Definition no_mocha : string -> option MochaReport := fun _ => None.
Definition no_raw_decode : string -> Z -> option MochaReport := fun _ _ => None.

Definition empty_world : World := {| dirs := ∅; events := [] |}.

(** A local deployment (no named volume) where the container does [o]. *)
Definition local_env (o : Outcome) : Env :=
  {| SHARED_WORK_DIR := None; DOCKER_VOLUME_NAME := None;
     uuid8 := "1a2b3c4d"; job_id := "1a2b3c4d5e6f708192a3b4c5d6e7f809";
     mkdtemp := inr "/tmp/genai_exec_k3x9"; makedirs_error := None;
     outcome := o; kill_error := None; surefire := None; rmtree_error := None |}.

(** The same where [shutil.rmtree] raises. *)
Definition stuck_env (o : Outcome) : Env :=
  {| SHARED_WORK_DIR := None; DOCKER_VOLUME_NAME := None;
     uuid8 := "1a2b3c4d"; job_id := "1a2b3c4d5e6f708192a3b4c5d6e7f809";
     mkdtemp := inr "/tmp/genai_exec_k3x9"; makedirs_error := None;
     outcome := o; kill_error := None; surefire := None;
     rmtree_error := Some "[Errno 13] Permission denied: 'target'" |}.

(** A local deployment where the wait for the container times out and
    [docker kill] cannot be started. *)
Definition kill_fails_env : Env :=
  {| SHARED_WORK_DIR := None; DOCKER_VOLUME_NAME := None;
     uuid8 := "1a2b3c4d"; job_id := "1a2b3c4d5e6f708192a3b4c5d6e7f809";
     mkdtemp := inr "/tmp/genai_exec_k3x9"; makedirs_error := None;
     outcome := TimeoutExpired;
     kill_error := Some "[Errno 12] Cannot allocate memory";
     surefire := None; rmtree_error := None |}.

Definition with_framework (fw : string) : Config :=
  {| executor_type := None; framework := Some fw; allow_network := false |}.

Definition run_local (test_code source_code : string) (language : option string)
    (config : Config) (o : Outcome) : Returned Result * World :=
  execute_tests_in_docker no_jest no_mocha no_raw_decode test_code source_code language
    120 config (local_env o) empty_world.

(** The values of [declaredLanguage] that [_detect_language] knows. *)
Definition recognized_languages : list string :=
  ["python"; "java"; "typescript"; "ts"; "javascript"; "js"].

Definition has_ts_syntax (source_code test_code : string) : bool :=
  any_in _TS_PATTERNS (source_code ++ NL ++ test_code).

(** The tests of a Jest report, suite after suite. *)
Definition jest_tests (data : JestReport) : list JestTest :=
  suite ← testResults data; suite_testResults suite.

(** A Mocha report with one pending test and nothing else, and its text. *)
Definition pending_only : MochaReport :=
  {| passes := []; mocha_failures := [];
     pending := [ {| mt_fullTitle := Some "cart applies a coupon"; mt_title := Some "applies a coupon";
                     mt_duration := None; mt_err := None |} ] |}.

Definition pending_only_json : string :=
  "{" ++ quoted "stats" ++ ":{" ++ quoted "pending" ++ ":1}," ++ quoted "passes" ++ ":[],"
  ++ quoted "failures" ++ ":[]," ++ quoted "pending" ++ ":[{" ++ quoted "title" ++ ":"
  ++ quoted "applies a coupon" ++ "," ++ quoted "fullTitle" ++ ":"
  ++ quoted "cart applies a coupon" ++ "," ++ quoted "err" ++ ":{}}]}".

Definition loads_pending_only (s : string) : option MochaReport :=
  if String.eqb s pending_only_json then Some pending_only else None.

(** A Jest report with one skipped test and nothing else, and its text. *)
Definition skipped_only : JestReport :=
  {| testResults :=
       [ {| suite_testResults :=
              [ {| jt_fullName := Some "cart applies a coupon"; jt_title := Some "applies a coupon";
                   jt_status := Some "pending"; jt_duration := None;
                   jt_failureMessages := [] |} ] |} ] |}.

Definition skipped_only_json : string :=
  "{" ++ quoted "numFailedTestSuites" ++ ":0," ++ quoted "testResults" ++ ":[{"
  ++ quoted "testResults" ++ ":[{" ++ quoted "fullName" ++ ":"
  ++ quoted "cart applies a coupon" ++ "," ++ quoted "title" ++ ":"
  ++ quoted "applies a coupon" ++ "," ++ quoted "status" ++ ":" ++ quoted "pending" ++ ","
  ++ quoted "duration" ++ ":null," ++ quoted "failureMessages" ++ ":[]}]}]}".

Definition loads_skipped_only (s : string) : option JestReport :=
  if String.eqb s skipped_only_json then Some skipped_only else None.

(** The output of [npm test] around a report: the echoed delimiters. *)
Definition delimited (start_marker end_marker json : string) : string :=
  start_marker ++ NL ++ json ++ NL ++ end_marker ++ NL.

(** What [npm test] prints before it runs the script: the name and the
    version of package.json, and the script itself. *)
Definition npm_echo (script : string) : string :=
  NL ++ "> genai-test@1.0.0 test" ++ NL ++ "> " ++ script ++ NL ++ NL.

(** The text between the first start marker and the first end marker of
    an output that begins with the echo of the Jest script: a piece of the
    script. *)
Definition jest_echo_blob : string :=
  "' ; cat /tmp/jest-results.json 2>/dev/null || echo '{}' ; echo '".

(** The output of [npm test] for a Jest suite whose only test is skipped. *)
Definition skipped_only_run : string :=
  npm_echo (jest_test_script "js")
  ++ "Tests:       1 skipped, 1 total" ++ NL
  ++ delimited JEST_START JEST_END skipped_only_json.

(** The module names that one import statement contributes. *)
Definition names_of (node : import_node) : list string :=
  match node with
  | Import names => (fun a => before "." (alias_name a)) <$> names
  | ImportFrom (Some m) _ O => if nonempty m then [before "." m] else []
  | ImportFrom _ _ _ => []
  end.

Definition pip_name (m : string) : string := default m (_IMPORT_TO_PIP !! m).

(** The specification's wording of dependency inference: the imported
    names in the order in which the imports are discovered (each name at
    its first occurrence), without the standard-library and the excluded
    names, each mapped through the table. *)
Definition packages_in_discovery_order (stdlib_module_names : list string)
    (tree : module_view) (exclude : option (gset string)) : list string :=
  packages_of stdlib_module_names (remove_dups (node ← walk_imports tree; names_of node))
              exclude.

(** A test file that imports [yaml], then [bs4], and its syntax tree. *)
Definition yaml_then_bs4 : string :=
  "import yaml" ++ NL ++ "from bs4 import BeautifulSoup" ++ NL.

Definition yaml_then_bs4_tree : module_view :=
  {| walk_imports := [Import [Alias "yaml" None];
                      ImportFrom (Some "bs4") [Alias "BeautifulSoup" None] 0];
     top_defs := []; loaded_names := []; source_attrs := [] |}.

Definition parse_yaml_then_bs4 (code : string) : option module_view :=
  if String.eqb code yaml_then_bs4 then Some yaml_then_bs4_tree else None.

(** A text without line boundary: what [str.splitlines] yields as a line. *)
Fixpoint one_line (s : string) : bool :=
  match s with
  | EmptyString => true
  | String c r => negb (is_linebreak c) && one_line r
  end.

(** A comment line of a requirements text. *)
Definition is_comment (line : string) : bool := startswith "#" (strip line).

(** A requirements text with a comment line. *)
Definition pinned_flask : string := "# pinned for CI" ++ NL ++ "flask==2.0".

(** Every character of [s] satisfies [p]. *)
Fixpoint all_chars (p : ascii -> bool) (s : string) : bool :=
  match s with
  | EmptyString => true
  | String c r => p c && all_chars p r
  end.

(** A module name as the pattern of [_safe_rewrite_imports_to_source]
    reads it: a letter or underscore, then word characters. *)
Definition is_identifier (s : string) : bool :=
  match s with
  | String c r => ident_start c && all_chars is_word r
  | EmptyString => false
  end.

(** The character before the cursor once the text [pre] has been passed. *)
Fixpoint prev_after (prev : option ascii) (pre : string) : option ascii :=
  match pre with
  | EmptyString => prev
  | String c r => prev_after (Some c) r
  end.

(** Patterns that never look at the character before the cursor. *)
Fixpoint blind (r : regex) : bool :=
  match r with
  | Eps | Chr _ | Eos | Eol | NotAhead _ => true
  | Seq a b | Alt a b => blind a && blind b
  | Star _ a | Group _ a => blind a
  | Bol | WordB | NotBehind _ => false
  end.

(** The replacement function of [_safe_rewrite_imports_to_source]. *)
Definition repl_placeholder (m : rmatch) : string :=
  if str_in (group_or 1 m) _ALLOWED_REWRITE_MODULES then "from source import" else group0 m.

(** A test that imports from the user's own module [calculator], the
    source, and the syntax trees of the four texts that
    [_preprocess_python] parses on them. *)
Definition calculator_test : string :=
  "from calculator import add" ++ NL ++ NL
  ++ "def test_add():" ++ NL ++ "    assert add(2, 3) == 5" ++ NL.

Definition calculator_source : string :=
  "def add(a, b):" ++ NL ++ "    return a + b" ++ NL.

Definition calculator_test_repointed : string :=
  "from source import add" ++ NL ++ NL
  ++ "def test_add():" ++ NL ++ "    assert add(2, 3) == 5" ++ NL.

Definition calculator_source_fixed : string :=
  "from __future__ import annotations" ++ NL ++ calculator_source.

Definition tree_of (imports : list import_node) (defs loads : list string) : module_view :=
  {| walk_imports := imports; top_defs := defs; loaded_names := loads; source_attrs := [] |}.

Definition parse_calculator (code : string) : option module_view :=
  if String.eqb code calculator_test
  then Some (tree_of [ImportFrom (Some "calculator") [Alias "add" None] 0] ["test_add"] ["add"])
  else if String.eqb code calculator_test_repointed
  then Some (tree_of [ImportFrom (Some "source") [Alias "add" None] 0] ["test_add"] ["add"])
  else if String.eqb code calculator_source
  then Some (tree_of [] ["add"] ["a"; "b"])
  else if String.eqb code calculator_source_fixed
  then Some (tree_of [ImportFrom (Some "__future__") [Alias "annotations" None] 0]
                     ["add"] ["a"; "b"])
  else None.

(** A run of white space, as [\s+] reads it. *)
Definition blank_run (ws : string) : bool := nonempty ws && all_chars is_space ws.

(** [s.isascii()] *)
Definition is_ascii (s : string) : bool := all_chars (fun c => (code c <? 128)%nat) s.

(** The letters U+0130 (capital I with a dot above) and U+0131 (dotless
    i), by their UTF-8 bytes. *)
Definition DOTTED_I : string := String (byte 196) (String (byte 176) EmptyString).
Definition DOTLESS_I : string := String (byte 196) (String (byte 177) EmptyString).

(** [folded s w]: the text [w] is the literal [s] as re.IGNORECASE reads
    it: character by character the same up to the case of a letter, or a
    letter beyond ASCII that folds to the character. *)
Inductive folded : string -> string -> Prop :=
| folded_nil : folded "" ""
| folded_char c x s w :
    lower_char x = lower_char c → folded s w → folded (String c s) (String x w)
| folded_extra c e s w :
    e ∈ fold_extra c → folded s w → folded (String c s) (e ++ w).

(** A continuation of the matcher after which the second group of the
    match on [src] holds a part of [src] that is a verdict word of pytest
    as re.IGNORECASE reads it. *)
Definition reads_verdict (src : string) (k : cont) : Prop :=
  ∀ st res, k st = Some res →
    (∃ pre, src = pre ++ m_rest st ∧ m_pos st = String.length pre) →
    ∃ a w, a ∈ ["PASSED"; "FAILED"; "ERROR"] ∧ folded a w
           ∧ group 2 (RMatch src (m_pos res) (m_groups res)) = Some w
           ∧ ∃ pre post, src = pre ++ w ++ post.

(** A text whose only line boundary is the line feed. *)
Definition lf_only (s : string) : bool :=
  all_chars (fun c => negb (is_linebreak c) || Ascii.eqb c LF) s.

(** A local deployment in which the job directory cannot be created. *)
Definition full_disk_env : Env :=
  {| SHARED_WORK_DIR := None; DOCKER_VOLUME_NAME := None;
     uuid8 := "1a2b3c4d"; job_id := "1a2b3c4d5e6f708192a3b4c5d6e7f809";
     mkdtemp := inl "[Errno 28] No space left on device"; makedirs_error := None;
     outcome := Completed 0 "" ""; kill_error := None; surefire := None; rmtree_error := None |}.

(** A host on which another directory exists before the run. *)
Definition busy_world : World := {| dirs := {[ "/srv/uploads" ]}; events := [] |}.

(** A failed test case of a Surefire report, and a report whose
    [failures] attribute is not a number. *)
Definition failed_testcase : TestcaseElem :=
  {| te_name := Some "testDivide"; te_classname := Some "com.test.CalculatorTest";
     te_failure := Some {| me_message := Some "expected: <2> but was: <3>";
                           me_text := None |};
     te_error := None |}.

Definition damaged_report : ReportFile :=
  {| rf_name := "TEST-com.test.CalculatorTest.xml";
     rf_root := Some {| rr_xml := "<testsuite tests='3' failures='one'/>";
                        rr_tests := AttrInt 3; rr_failures := AttrBad;
                        rr_errors := AttrAbsent; rr_skipped := AttrAbsent;
                        rr_testcases := [] |} |}.

Definition damaged_env : Env :=
  {| SHARED_WORK_DIR := None; DOCKER_VOLUME_NAME := None;
     uuid8 := "1a2b3c4d"; job_id := "1a2b3c4d5e6f708192a3b4c5d6e7f809";
     mkdtemp := inr "/tmp/genai_exec_k3x9"; makedirs_error := None;
     outcome := Completed 0 "BUILD SUCCESS" ""; kill_error := None; surefire := Some [damaged_report];
     rmtree_error := None |}.

(* ===================================================================== *)
(** * The success rule of the three pipelines *)
(* ===================================================================== *)

Section Execution.

Variable loads_jest : string -> option JestReport.
Variable loads_mocha : string -> option MochaReport.
Variable raw_decode_mocha : string -> Z -> option MochaReport.

Local Abbreviation execute :=
  (execute_tests_in_docker loads_jest loads_mocha raw_decode_mocha).
Local Abbreviation execute_js :=
  (execute_javascript_tests loads_jest loads_mocha raw_decode_mocha).

Lemma synthetic_not_success msg :
  ¬ success_as_specified (synthetic_failure msg)
  ∧ ¬ success_structured_first (synthetic_failure msg)
  ∧ success (synthetic_failure msg) = false.
Proof. unfold success_as_specified, success_structured_first; cbn. intuition lia. Qed.

Lemma failure_rules r :
  success r = false → ¬ success_as_specified r → ¬ success_structured_first r →
  (success r = true ↔ success_as_specified r)
  ∧ (success r = true ↔ success_structured_first r).
Proof. intros -> H1 H2. split; split; intros; (discriminate || contradiction). Qed.

Ltac synthetic :=
  match goal with
  | |- context [synthetic_failure ?m] =>
      destruct (synthetic_not_success m) as (? & ? & ?);
      first [ apply failure_rules; assumption
            | apply (proj1 (failure_rules _ ltac:(eassumption) ltac:(eassumption)
                                          ltac:(eassumption))) ]
  end.

Lemma on_timeout_returns timeout c env w r :
  fst (on_timeout timeout c env w) = Returns r → r = timed_out timeout.
Proof. unfold on_timeout. destruct (kill_error env); cbn; congruence. Qed.

Lemma caught_returns x r :
  fst (caught x) = Returns r →
  fst x = Returns r ∨ ∃ msg, fst x = Raises msg ∧ r = synthetic_failure msg.
Proof.
  unfold caught. destruct (fst x) as [r0 | msg] eqn:E; cbn.
  - rewrite E. now left.
  - intros [= <-]. right. now exists msg.
Qed.

Lemma java_success_rule timeout d c env w r :
  fst (execute_java_tests timeout d c env w) = Returns r →
  success r = true ↔ success_as_specified r.
Proof.
  unfold execute_java_tests.
  destruct (outcome env) as [rc out err | | [] msg];
    try (cbn [fst]; intros [= <-]; synthetic).
  - destruct (java_summary (surefire env)) as [s xml]. cbn [fst]. intros [= <-].
    unfold success_as_specified; cbn.
    rewrite andb_true_iff, Z.eqb_eq.
    destruct (Z.ltb_spec 0 (total s)); rewrite ?Z.eqb_eq; intuition lia.
  - intros H. apply on_timeout_returns in H as ->. unfold timed_out. synthetic.
Qed.

Lemma python_success_rule timeout c env w r :
  fst (python_result timeout c env w) = Returns r →
  success r = true ↔ success_as_specified r.
Proof.
  unfold python_result.
  destruct (outcome env) as [rc out err | | [] msg];
    try (cbn [fst]; intros [= <-]; synthetic).
  - cbn [fst]. intros [= <-]. unfold success_as_specified; cbn. rewrite Z.eqb_eq. tauto.
  - intros H. apply on_timeout_returns in H as ->. unfold timed_out. synthetic.
Qed.

Lemma js_result_rule fw rc out err :
  let r := js_result loads_jest loads_mocha raw_decode_mocha fw rc out err in
  (success r = true ↔ success_structured_first r)
  ∧ (success_as_specified r → success r = true).
Proof.
  cbn zeta. unfold js_result.
  set (s := _build_js_test_results _ _).
  unfold success_structured_first, success_as_specified.
  cbn [success exit_code test_results_json].
  destruct (Z.ltb_spec 0 (total s)); rewrite ?Z.eqb_eq; intuition.
Qed.

Lemma synthetic_rules msg :
  (success (synthetic_failure msg) = true ↔ success_structured_first (synthetic_failure msg))
  ∧ (success (synthetic_failure msg) = true ↔ success_as_specified (synthetic_failure msg))
  ∧ (success_as_specified (synthetic_failure msg) → success (synthetic_failure msg) = true).
Proof.
  destruct (synthetic_not_success msg) as (H1 & H2 & H3).
  destruct (failure_rules _ H3 H1 H2) as [Ha Hb].
  split; [exact Hb | split; [exact Ha | apply Ha]].
Qed.

Lemma js_success_rule test_code timeout config c env w r :
  fst (execute_js test_code timeout config c env w) = Returns r →
  (success r = true ↔ success_structured_first r)
  ∧ (success_as_specified r → success r = true).
Proof.
  unfold execute_javascript_tests.
  destruct (outcome env) as [rc out err | | [] msg]; cbn [fst].
  - intros [= <-]. apply js_result_rule.
  - intros H. apply on_timeout_returns in H as ->. unfold timed_out.
    destruct (synthetic_rules ("Execution timed out after " ++ str_of_Z timeout ++ "s"))
      as (H1 & _ & H3). now split.
  - intros [= <-]. destruct (synthetic_rules msg) as (H1 & _ & H3). now split.
  - intros [= <-]. destruct (synthetic_rules msg) as (H1 & _ & H3). now split.
  - intros [= <-]. destruct (synthetic_rules msg) as (H1 & _ & H3). now split.
Qed.

(** C1 (amended): on the Java and Python pipelines [success] holds exactly
    when the exit code is zero and, if a structured result exists, it has no
    failure; on the JavaScript/TypeScript pipeline a structured result, when
    there is one, decides alone and the exit code is used only without it.
    On every pipeline a zero exit code with no failing structured result
    (an empty one included) gives [success]. *)
Theorem C1_success_rule test_code source_code language timeout config env w r :
  fst (execute test_code source_code language timeout config env w) = Returns r →
  (if is_js (_detect_language source_code test_code language)
   then success r = true ↔ success_structured_first r
   else success r = true ↔ success_as_specified r)
  ∧ (success_as_specified r → success r = true).
Proof.
  unfold execute_tests_in_docker.
  destruct (create_job_dir env w) as [[d | msg d] w1].
  - set (lang := _detect_language source_code test_code language).
    unfold is_js. destruct (String.eqb_spec lang "java") as [-> | Hj].
    + destruct (caught _) as [x w2] eqn:E. cbn [fst]. intros ->.
      assert (E' : fst (caught (execute_java_tests timeout d ("genai-test-" ++ uuid8 env)
                                  env w1)) = Returns r) by now rewrite E.
      apply caught_returns in E' as [E' | (msg & _ & ->)].
      * apply java_success_rule in E'. cbn. split; [exact E' | apply E'].
      * destruct (synthetic_rules msg) as (_ & H2 & H3). cbn. now split.
    + destruct (str_in lang ["javascript"; "typescript"]) eqn:Hjs.
      * destruct (caught _) as [x w2] eqn:E. cbn [fst]. intros ->.
        assert (E' : fst (caught (execute_js test_code timeout config
                                    ("genai-test-" ++ uuid8 env) env w1)) = Returns r)
          by now rewrite E.
        apply caught_returns in E' as [E' | (msg & _ & ->)].
        -- now apply js_success_rule in E'.
        -- destruct (synthetic_rules msg) as (H1 & _ & H3). now split.
      * destruct (python_result timeout _ env w1) as [x w2] eqn:E. cbn [fst]. intros ->.
        assert (E' : fst (python_result timeout ("genai-test-" ++ uuid8 env) env w1)
                     = Returns r) by now rewrite E.
        apply python_success_rule in E'. split; [exact E' | apply E'].
  - cbn [fst]. intros [= <-].
    destruct (synthetic_rules msg) as (H1 & H2 & H3).
    split; [destruct (is_js _); assumption | exact H3].
Qed.

End Execution.

(** The theorem at a pytest run that passes and exits with 0. *)
Lemma C1_witness :
  let r := {| success := true; exit_code := 0;
              output := "test.py::test_add PASSED"; errors := "";
              xml_reports := None; test_results_json := None;
              container_name := Some "genai-test-1a2b3c4d" |} in
  (success r = true ↔ success_as_specified r)
  ∧ (success_as_specified r → success r = true).
Proof.
  exact (C1_success_rule no_jest no_mocha no_raw_decode "" "" (Some "python") 120 no_config
           (local_env (Completed 0 "test.py::test_add PASSED" "")) empty_world _ eq_refl).
Defined.

(** C1 (as stated) fails on the JavaScript pipeline: Jasmine reports one
    passing test and exits with code 1; the structured result decides and
    [success] is true although the exit code is not zero. *)
Lemma C1_counterexample :
  ∃ r, fst (run_local "" "" (Some "javascript") (with_framework "jasmine")
              (Completed 1 (CHECK ++ " adds two numbers") "")) = Returns r
       ∧ ¬ (success r = true ↔ success_as_specified r).
Proof.
  eexists. split; [vm_compute; reflexivity | ].
  intros [H _].
  match type of H with ?a = true → _ => assert (E : a = true) by (vm_compute; reflexivity) end.
  destruct (H E) as [H0 _]. vm_compute in H0. discriminate.
Qed.

(* ===================================================================== *)
(** * The Java pipeline without a report directory *)
(* ===================================================================== *)

Section JavaReports.

Variable loads_jest : string -> option JestReport.
Variable loads_mocha : string -> option MochaReport.
Variable raw_decode_mocha : string -> Z -> option MochaReport.

Local Abbreviation execute :=
  (execute_tests_in_docker loads_jest loads_mocha raw_decode_mocha).

(** C2 (amended): on the Java path, when the Surefire report directory is
    absent the summary is empty (no synthetic test case is made, and the
    route handler derives no test case from it), no XML report is returned,
    stdout and stderr are passed on, and [success] is exactly "the exit
    code is zero". *)
Theorem C2_no_report_directory test_code source_code language timeout config env w
    d rc out err :
  fst (create_job_dir env w) = CreatedAt d →
  _detect_language source_code test_code language = "java" →
  outcome env = Completed rc out err →
  surefire env = None →
  let r := {| success := (rc =? 0)%Z; exit_code := rc; output := out; errors := err;
              xml_reports := Some []; test_results_json := Some empty_summary;
              container_name := None |} in
  fst (execute test_code source_code language timeout config env w) = Returns r
  ∧ route_parsed_tests r = [].
Proof.
  intros Hd Hl Ho Hs. cbn zeta. unfold execute_tests_in_docker.
  destruct (create_job_dir env w) as [c w1]. cbn in Hd. subst c.
  rewrite Hl. cbn [String.eqb Ascii.eqb Bool.eqb].
  unfold execute_java_tests. rewrite Ho, Hs. cbn.
  rewrite andb_true_r. split; reflexivity.
Qed.

End JavaReports.

(** The theorem at a Maven run that compiles nothing and exits with 1. *)
Lemma C2_witness :
  let r := {| success := false; exit_code := 1; output := ""; errors := "COMPILATION ERROR";
              xml_reports := Some []; test_results_json := Some empty_summary;
              container_name := None |} in
  fst (run_local "" "" (Some "java") no_config (Completed 1 "" "COMPILATION ERROR"))
  = Returns r
  ∧ route_parsed_tests r = [].
Proof.
  apply (C2_no_report_directory no_jest no_mocha no_raw_decode "" "" (Some "java") 120
           no_config (local_env (Completed 1 "" "COMPILATION ERROR")) empty_world
           "/tmp/genai_exec_k3x9" 1 "" "COMPILATION ERROR");
    vm_compute; reflexivity.
Defined.

(** C2 (as stated) fails: Maven finds no test to run, writes no report
    directory and exits with 0; the result has no test case at all and
    [success] is true. *)
Lemma C2_counterexample :
  let e := local_env (Completed 0 "BUILD SUCCESS" "") in
  ∃ r, fst (execute_tests_in_docker no_jest no_mocha no_raw_decode "" "" (Some "java")
              120 no_config e empty_world) = Returns r
       ∧ surefire e = None
       ∧ success r = true
       ∧ test_results_json r = Some empty_summary
       ∧ route_parsed_tests r = [].
Proof. eexists. split; [vm_compute; reflexivity | vm_compute; repeat split]. Qed.

(* ===================================================================== *)
(** * Timeouts and the cleanup of the job directory *)
(* ===================================================================== *)

Section Lifecycle.

Variable loads_jest : string -> option JestReport.
Variable loads_mocha : string -> option MochaReport.
Variable raw_decode_mocha : string -> Z -> option MochaReport.

Local Abbreviation execute :=
  (execute_tests_in_docker loads_jest loads_mocha raw_decode_mocha).
Local Abbreviation execute_js :=
  (execute_javascript_tests loads_jest loads_mocha raw_decode_mocha).

Lemma events_emit e e' w : e ∈ events (emit e' w) ↔ e ∈ events w ∨ e = e'.
Proof. unfold emit; cbn. rewrite elem_of_app, list_elem_of_singleton. tauto. Qed.

Lemma dirs_emit e w : dirs (emit e w) = dirs w.
Proof. reflexivity. Qed.

Lemma cleanup_events env t w e : e ∈ events w → e ∈ events (cleanup env t w).
Proof.
  intros H. unfold cleanup. destruct t as [[|c d]|]; try assumption.
  case_bool_decide; try assumption.
  destruct (rmtree_error env); rewrite !events_emit; cbn; tauto.
Qed.

Lemma timed_out_shape timeout :
  success (timed_out timeout) = false
  ∧ (exit_code (timed_out timeout) < 0)%Z
  ∧ errors (timed_out timeout) = "Execution timed out after " ++ str_of_Z timeout ++ "s"
  ∧ contains "timed out" (errors (timed_out timeout)) = true.
Proof. repeat split. Qed.

Lemma snd_caught x : snd (caught x) = snd x.
Proof. now destruct x as [[r | msg] w]. Qed.

Lemma fst_caught x :
  fst (caught x)
  = match fst x with Returns r => Returns r | Raises msg => Returns (synthetic_failure msg) end.
Proof. now destruct x as [[r | msg] w]. Qed.

Lemma on_timeout_events timeout c env w e :
  e ∈ events (snd (on_timeout timeout c env w)) ↔ e ∈ events w ∨ e = DockerKill c.
Proof. unfold on_timeout. destruct (kill_error env); cbn [snd]; apply events_emit. Qed.

Lemma on_timeout_result timeout c env w :
  fst (on_timeout timeout c env w)
  = match kill_error env with
    | None => Returns (timed_out timeout)
    | Some msg => Raises msg
    end.
Proof. unfold on_timeout. now destruct (kill_error env). Qed.

(** What the three pipelines do when [subprocess.run] raises
    [TimeoutExpired]: the Java and the JavaScript pipeline are called
    inside the [try] block of the orchestrator, the Python path is that
    block itself. *)
Lemma pipeline_timeout test_code source_code language timeout config env w d :
  outcome env = TimeoutExpired →
  let container := "genai-test-" ++ uuid8 env in
  let detected_language := _detect_language source_code test_code language in
  let x :=
    if String.eqb detected_language "java"
    then caught (execute_java_tests timeout d container env w)
    else if str_in detected_language ["javascript"; "typescript"]
    then caught (execute_js test_code timeout config container env w)
    else python_result timeout container env w in
  DockerKill container ∈ events (snd x)
  ∧ fst x = match kill_error env with
            | None => Returns (timed_out timeout)
            | Some msg =>
                if String.eqb detected_language "java" || is_js detected_language
                then Returns (synthetic_failure msg) else Raises msg
            end.
Proof.
  intros Ho. cbn zeta. unfold is_js.
  destruct (String.eqb _ "java"); [ | destruct (str_in _ _)]; cbn [orb];
    rewrite ?snd_caught, ?fst_caught;
    unfold execute_java_tests, execute_javascript_tests, python_result;
    rewrite Ho, on_timeout_result;
    (split; [apply on_timeout_events; now right | now destruct (kill_error env)]).
Qed.


Lemma makedirs_mono base segs fs p : p ∈ fs → p ∈ makedirs base segs fs.
Proof.
  revert base fs. induction segs as [|s segs IH]; intros base fs H; cbn.
  - set_solver.
  - apply IH. set_solver.
Qed.

(** No pipeline removes a directory. *)
Lemma pipeline_keeps_dirs test_code source_code language timeout config env w d p :
  p ∈ dirs w →
  let container := "genai-test-" ++ uuid8 env in
  let detected_language := _detect_language source_code test_code language in
  p ∈ dirs (snd (if String.eqb detected_language "java"
                 then caught (execute_java_tests timeout d container env w)
                 else if str_in detected_language ["javascript"; "typescript"]
                 then caught (execute_js test_code timeout config container env w)
                 else python_result timeout container env w)).
Proof.
  intros H. cbn zeta.
  destruct (String.eqb _ "java"); [ | destruct (str_in _ _)]; rewrite ?snd_caught;
    unfold execute_java_tests, execute_javascript_tests, python_result, on_timeout.
  - destruct (outcome env) as [rc out err | | [] msg];
      try destruct (java_summary _); try destruct (kill_error env); cbn [snd];
      rewrite ?dirs_emit; cbn [dirs]; try assumption;
      unfold java_dirs; auto using makedirs_mono.
  - destruct (outcome env) as [rc out err | | [] msg];
      try destruct (kill_error env); cbn [snd];
      rewrite ?dirs_emit; assumption.
  - destruct (outcome env) as [rc out err | | [] msg];
      try destruct (kill_error env); cbn [snd];
      rewrite ?dirs_emit; assumption.
Qed.

Lemma under_self d : under d d = true.
Proof. unfold under. now rewrite String.eqb_refl. Qed.

Lemma rmtree_spec d fs p : p ∈ rmtree d fs ↔ p ∈ fs ∧ under d p = false.
Proof. unfold rmtree. rewrite elem_of_filter. tauto. Qed.

Lemma cleanup_removes env d w p :
  d ≠ "" → rmtree_error env = None → d ∈ dirs w →
  p ∈ dirs (cleanup env (Some d) w) → under d p = false.
Proof.
  intros Hne Hok Hin. unfold cleanup. destruct d as [|c d']; [congruence|].
  rewrite bool_decide_true by assumption. rewrite Hok, dirs_emit. cbn [dirs].
  rewrite rmtree_spec. tauto.
Qed.

Lemma cleanup_absent env d w :
  d ≠ "" → rmtree_error env = None → d ∉ dirs (cleanup env (Some d) w).
Proof.
  intros Hne Hok. destruct (decide (d ∈ dirs w)) as [Hin | Hout].
  - intros H. apply (cleanup_removes env d w d Hne Hok Hin) in H.
    rewrite under_self in H. discriminate.
  - unfold cleanup. destruct d as [|c d']; [congruence|].
    now rewrite bool_decide_false by assumption.
Qed.

Lemma cleanup_attempted env d w :
  d ≠ "" → d ∈ dirs w → Rmtree d ∈ events (cleanup env (Some d) w).
Proof.
  intros Hne Hin. unfold cleanup. destruct d as [|c d']; [congruence|].
  rewrite bool_decide_true by assumption.
  destruct (rmtree_error env); rewrite !events_emit; tauto.
Qed.

Lemma create_job_dir_dirs env w d :
  fst (create_job_dir env w) = CreatedAt d → d ∈ dirs (snd (create_job_dir env w)).
Proof.
  unfold create_job_dir.
  destruct (truthy _ && truthy _);
    [destruct (makedirs_error env) | destruct (mkdtemp env)]; cbn;
    first [intros [= <-] | intros [=]]; set_solver.
Qed.

(** C6 (amended): whatever the pipeline does (success, failure, timeout or
    an exception in a stage), [shutil.rmtree] is called for the job
    directory that was created, and when that call does not itself raise
    the directory, with everything under it, no longer exists after
    [execute_tests_in_docker] returns. *)
Theorem C6_cleanup test_code source_code language timeout config env w d :
  d ≠ "" →
  fst (create_job_dir env w) = CreatedAt d →
  let w' := snd (execute test_code source_code language timeout config env w) in
  Rmtree d ∈ events w'
  ∧ (rmtree_error env = None →
     (d ∉ dirs w') ∧ (∀ p, p ∈ dirs w' → under d p = false)).
Proof.
  intros Hne Hd. cbn zeta. unfold execute_tests_in_docker.
  pose proof (create_job_dir_dirs env w d Hd) as Hin.
  destruct (create_job_dir env w) as [c w1]. cbn in Hd, Hin. subst c.
  pose proof (pipeline_keeps_dirs test_code source_code language timeout config env
                w1 d d Hin) as Hk. cbn zeta in Hk.
  destruct (if String.eqb _ "java" then _ else _) as [r w2]. cbn [snd temp_dir_of] in *.
  split; [now apply cleanup_attempted | ].
  intros Hok. split; [now apply cleanup_absent | ].
  intros p. now apply cleanup_removes.
Qed.

End Lifecycle.



(** The theorem at a Java run that exits with 1. *)
Lemma C6_witness :
  let w' := snd (run_local "" "" (Some "java") no_config (Completed 1 "" "")) in
  Rmtree "/tmp/genai_exec_k3x9" ∈ events w'
  ∧ (rmtree_error (local_env (Completed 1 "" "")) = None →
     ("/tmp/genai_exec_k3x9" ∉ dirs w')
     ∧ (∀ p, p ∈ dirs w' → under "/tmp/genai_exec_k3x9" p = false)).
Proof.
  apply (C6_cleanup no_jest no_mocha no_raw_decode "" "" (Some "java") 120 no_config
           (local_env (Completed 1 "" "")) empty_world "/tmp/genai_exec_k3x9");
    [discriminate | reflexivity].
Defined.

(** C6 (as stated) fails: the container leaves files that the engine may
    not delete, [shutil.rmtree] raises, the error is logged and swallowed,
    and the job directory still exists after the call. *)
Lemma C6_counterexample :
  let w' := snd (execute_tests_in_docker no_jest no_mocha no_raw_decode "" ""
                   (Some "java") 120 no_config (stuck_env (Completed 1 "" "")) empty_world) in
  "/tmp/genai_exec_k3x9" ∈ dirs w'
  ∧ List.last (events w') (Rmtree "")
    = LogError "Failed to clean up temp dir: [Errno 13] Permission denied: 'target'".
Proof.
  split; [ | vm_compute; reflexivity].
  refine (bool_decide_unpack _ _). vm_compute. exact I.
Qed.

(* ===================================================================== *)
(** * Declared languages that the detector does not know *)
(* ===================================================================== *)

(** C9 (amended): for a declared language whose lower-cased, stripped form
    is not empty and not one of python, java, typescript, ts, javascript,
    js, and a source and test text without TypeScript marker, the detector
    returns that lower-cased, stripped form (so the caller's string itself
    when it is already in that form): the detected language is not confined
    to the four supported values. *)
Theorem C9_unrecognized_language source_code test_code language :
  let lang := strip (lower language) in
  lang ≠ "" →
  str_in lang recognized_languages = false →
  has_ts_syntax source_code test_code = false →
  _detect_language source_code test_code (Some language) = lang
  ∧ (lang = language → _detect_language source_code test_code (Some language) = language).
Proof.
  intros lang Hne Hrec Hts. subst lang.
  remember (strip (lower language)) as lang eqn:El.
  assert (E : _detect_language source_code test_code (Some language) = lang).
  { unfold _detect_language. change (default "" (Some language)) with language.
    rewrite <- El.
    unfold str_in, recognized_languages in Hrec. cbn [existsb] in Hrec.
    repeat (apply orb_false_elim in Hrec; destruct Hrec as [? Hrec]).
    unfold has_ts_syntax in Hts. unfold str_in. cbn [existsb].
    repeat match goal with H : String.eqb lang _ = false |- _ => rewrite H; clear H end.
    rewrite Hts. cbn [orb].
    destruct lang; [congruence | reflexivity]. }
  split; [exact E | intros <-; exact E].
Qed.

(** The theorem at the declared language "ruby". *)
Lemma C9_witness :
  _detect_language "puts 1" "" (Some "ruby") = "ruby"
  ∧ ("ruby" = "ruby" → _detect_language "puts 1" "" (Some "ruby") = "ruby").
Proof.
  apply (C9_unrecognized_language "puts 1" "" "ruby");
    [discriminate | reflexivity | vm_compute; reflexivity].
Defined.

(** C9 (as stated) fails: "Ruby" is not empty, is none of the six known
    values, the texts hold no TypeScript marker, and the detector returns
    "ruby", not the caller's string. *)
Lemma C9_counterexample :
  "Ruby" ≠ ""
  ∧ str_in "Ruby" recognized_languages = false
  ∧ has_ts_syntax "puts 1" "" = false
  ∧ _detect_language "puts 1" "" (Some "Ruby") = "ruby"
  ∧ _detect_language "puts 1" "" (Some "Ruby") ≠ "Ruby".
Proof. repeat split; try discriminate; vm_compute; (reflexivity || discriminate). Qed.

(* ===================================================================== *)
(** * The parsers of the JavaScript pipeline and of pytest output *)
(* ===================================================================== *)

Section Parsers.

Variable loads_jest : string -> option JestReport.
Variable loads_mocha : string -> option MochaReport.
Variable raw_decode_mocha : string -> Z -> option MochaReport.

Local Abbreviation execute_js :=
  (execute_javascript_tests loads_jest loads_mocha raw_decode_mocha).
Local Abbreviation js_tests := (js_parsed_tests loads_jest loads_mocha raw_decode_mocha).
Local Abbreviation mocha_json := (_parse_mocha_json loads_mocha raw_decode_mocha).
Local Abbreviation mocha_tests := (parse_mocha loads_mocha raw_decode_mocha).
Local Abbreviation jest_parsed := (parse_jest loads_jest).

Lemma nonempty_list_spec {A} (l : list A) : nonempty_list l = true ↔ l ≠ [].
Proof. destruct l; cbn; split; congruence. Qed.

Lemma nonempty_list_false {A} (l : list A) : nonempty_list l = false ↔ l = [].
Proof. destruct l; cbn; split; congruence. Qed.

Lemma jest_tests_cases data : _jest_json_to_tests data = jest_case <$> jest_tests data.
Proof.
  unfold _jest_json_to_tests, jest_tests.
  induction (testResults data) as [|suite rest IH]; [reflexivity|].
  cbn. rewrite IH, fmap_app. f_equal.
Qed.

Lemma jest_case_status t :
  tc_status (jest_case t) = if bool_decide (jt_status t = Some "passed") then passed else failed.
Proof.
  unfold jest_case; cbn. destruct (jt_status t) as [s|]; cbn.
  - destruct (String.eqb_spec s "passed") as [-> | Hn].
    + now rewrite bool_decide_true.
    + rewrite bool_decide_false; [reflexivity | congruence].
  - now rewrite bool_decide_false.
Qed.

(** A list of failed tests only, not empty, makes the run a failure
    whatever the exit code. *)
Lemma all_failed_summary tests_ raw :
  tests_ ≠ [] → Forall (fun t => tc_status t = failed) tests_ →
  let s := _build_js_test_results tests_ raw in
  (0 <? total s)%Z = true ∧ (failed_count s =? 0)%Z = false.
Proof.
  intros Hne Hall. cbn.
  assert (E : filter (fun t => tc_status t = passed) tests_ = []).
  { clear Hne. induction Hall as [|t ts Ht _ IH]; [reflexivity|].
    rewrite filter_cons_False by congruence. apply IH. }
  rewrite E. cbn [length]. destruct tests_ as [|t ts]; [congruence|].
  cbn [length]. split; [apply Z.ltb_lt | apply Z.eqb_neq]; lia.
Qed.

Lemma js_result_all_failed fw rc out err :
  js_tests fw (out ++ NL ++ err) ≠ [] →
  Forall (fun t => tc_status t = failed) (js_tests fw (out ++ NL ++ err)) →
  success (js_result loads_jest loads_mocha raw_decode_mocha fw rc out err) = false.
Proof.
  intros Hne Hall. unfold js_result.
  destruct (all_failed_summary _ (out ++ NL ++ err) Hne Hall) as [Ht Hf].
  cbn zeta in Ht, Hf. cbn [success]. now rewrite Ht, Hf.
Qed.

Lemma mocha_report_tests raw data :
  mocha_json raw = Some data → _mocha_json_to_tests data ≠ [] →
  mocha_tests raw = _mocha_json_to_tests data.
Proof.
  intros Hd Hne. unfold parse_mocha. rewrite Hd.
  apply nonempty_list_spec in Hne. now rewrite !Hne.
Qed.

Lemma jest_report_tests raw data :
  find JEST_START raw ≠ (-1)%Z → find JEST_END raw ≠ (-1)%Z →
  loads_jest (strip (slice (find JEST_START raw + len JEST_START) (find JEST_END raw) raw))
  = Some data →
  _jest_json_to_tests data ≠ [] →
  jest_parsed raw = _jest_json_to_tests data.
Proof.
  intros Hs He Hd Hne. unfold parse_jest.
  apply Z.eqb_neq in Hs, He. rewrite Hs, He. cbn [negb andb]. rewrite Hd.
  apply nonempty_list_spec in Hne. now rewrite !Hne.
Qed.

(** The first markers of an output that begins with the echo of the Jest
    script are those of the echo. *)
Lemma jest_echo_markers ext body tail :
  ext ∈ ["js"; "ts"] →
  let raw := (npm_echo (jest_test_script ext) ++ body) ++ tail in
  find JEST_START raw ≠ (-1)%Z
  ∧ find JEST_END raw ≠ (-1)%Z
  ∧ strip (slice (find JEST_START raw + len JEST_START) (find JEST_END raw) raw)
    = jest_echo_blob.
Proof.
  intros Hext. apply elem_of_cons in Hext as [-> | Hext];
    [ | apply list_elem_of_singleton in Hext as ->];
    cbn zeta; vm_compute; repeat split; discriminate.
Qed.



End Parsers.





(* ===================================================================== *)
(** * Dependency inference *)
(* ===================================================================== *)

Lemma str_le_cases a b : str_le a b ↔ a = b ∨ OrderedTypeEx.String_as_OT.lt a b.
Proof.
  unfold str_le, String.leb.
  pose proof (OrderedTypeEx.String_as_OT.cmp_eq a b) as He.
  pose proof (OrderedTypeEx.String_as_OT.cmp_lt a b) as Hl.
  unfold OrderedTypeEx.String_as_OT.cmp in He, Hl.
  destruct (String.compare a b) eqn:E.
  - split; [intros _; left; now apply He | reflexivity].
  - split; [intros _; right; now apply Hl | reflexivity].
  - split; [discriminate | ].
    intros [H | H]; [apply He in H | apply Hl in H]; congruence.
Qed.

#[global] Instance str_le_trans : Transitive str_le.
Proof.
  intros a b c. rewrite !str_le_cases.
  intros [-> | H1] [-> | H2]; auto.
  right. eapply OrderedTypeEx.String_as_OT.lt_trans; eassumption.
Qed.

Lemma StronglySorted_filter {A} (R : relation A) (P : A → Prop) `{!∀ x, Decision (P x)} l :
  StronglySorted R l → StronglySorted R (filter P l).
Proof.
  induction 1 as [|x l Hl IH Hx]; [constructor|].
  rewrite filter_cons. destruct (decide (P x)); [ | exact IH].
  constructor; [exact IH | ].
  apply Forall_forall. intros y Hy. apply list_elem_of_filter in Hy as [_ Hy].
  rewrite Forall_forall in Hx. now apply Hx.
Qed.

Lemma sorted_spec (s : gset string) :
  StronglySorted str_le (sorted s) ∧ NoDup (sorted s) ∧ ∀ x, x ∈ sorted s ↔ x ∈ s.
Proof.
  unfold sorted. split; [apply StronglySorted_merge_sort; apply _ | split].
  - rewrite merge_sort_Permutation. apply NoDup_elements.
  - intros x. rewrite merge_sort_Permutation. apply elem_of_elements.
Qed.

Section Dependencies.

Variable stdlib_module_names : list string.
Variable ast_parse : string -> option module_view.

Lemma collect_import_spec acc node x :
  x ∈ collect_import acc node ↔ x ∈ acc ∨ x ∈ names_of node.
Proof.
  destruct node as [names | [m|] names [|lvl]]; cbn.
  - now rewrite elem_of_union, elem_of_list_to_set.
  - destruct (nonempty m); [ | rewrite elem_of_nil; tauto].
    rewrite elem_of_union, list_elem_of_singleton. set_solver.
  - rewrite elem_of_nil; tauto.
  - rewrite elem_of_nil; tauto.
  - rewrite elem_of_nil; tauto.
Qed.

Lemma top_level_imports_spec tree x :
  x ∈ top_level_imports tree ↔ ∃ node, node ∈ walk_imports tree ∧ x ∈ names_of node.
Proof.
  unfold top_level_imports.
  assert (G : ∀ nodes acc,
            x ∈ fold_left collect_import nodes acc
            ↔ x ∈ acc ∨ ∃ node, node ∈ nodes ∧ x ∈ names_of node).
  { induction nodes as [|n nodes IH]; intros acc; cbn.
    - split; [tauto | ]. intros [H | (node & Hn & _)]; [exact H | ].
      now apply elem_of_nil in Hn.
    - rewrite IH, collect_import_spec. split.
      + intros [[H | H] | (node & Hn & Hx)]; eauto.
        * right. exists n. split; [left | exact H].
        * right. exists node. split; [now right | exact Hx].
      + intros [H | (node & Hn & Hx)]; [tauto | ].
        apply elem_of_cons in Hn as [-> | Hn]; eauto. }
  rewrite G. split; [ | eauto]. intros [H | H]; [ | exact H].
  now apply not_elem_of_empty in H.
Qed.

(** C8 (amended): dependency inference collects the top-level imported
    module names, drops the standard-library names and the excluded local
    names, maps each remaining name through the import-to-package table,
    and returns the packages in the ascending (code point) order of the
    import names, each name once. *)
Theorem C8_packages_sorted_by_import_name test_code exclude tree :
  ast_parse test_code = Some tree →
  ∃ names : list string,
    _auto_detect_pip_requirements stdlib_module_names ast_parse test_code exclude
    = join NL (pip_name <$> names)
    ∧ StronglySorted str_le names
    ∧ NoDup names
    ∧ ∀ m, m ∈ names ↔
           (∃ node, node ∈ walk_imports tree ∧ m ∈ names_of node)
           ∧ (m ∉ _STDLIB_MODULES stdlib_module_names)
           ∧ excluded exclude m = false.
Proof.
  intros Hp. unfold _auto_detect_pip_requirements. rewrite Hp.
  unfold packages_of.
  destruct (sorted_spec (top_level_imports tree)) as (Hs & Hn & Hm).
  eexists. split; [reflexivity | split; [ | split]].
  - now apply StronglySorted_filter.
  - now apply NoDup_filter.
  - intros m. rewrite list_elem_of_filter, Hm, top_level_imports_spec.
    unfold in_set. rewrite bool_decide_eq_false. tauto.
Qed.

End Dependencies.

(** The theorem at a test file that imports [yaml], then [bs4]. *)
Lemma C8_witness :
  ∃ names : list string,
    _auto_detect_pip_requirements [] parse_yaml_then_bs4 yaml_then_bs4 None
    = join NL (pip_name <$> names)
    ∧ StronglySorted str_le names
    ∧ NoDup names
    ∧ ∀ m, m ∈ names ↔
           (∃ node, node ∈ walk_imports yaml_then_bs4_tree ∧ m ∈ names_of node)
           ∧ (m ∉ _STDLIB_MODULES [])
           ∧ excluded None m = false.
Proof.
  apply (C8_packages_sorted_by_import_name [] parse_yaml_then_bs4 yaml_then_bs4 None
           yaml_then_bs4_tree).
  reflexivity.
Defined.

(** C8 (as stated) fails: the test file imports [yaml] and then [bs4]; in
    discovery order the packages are PyYAML, beautifulsoup4, and the
    engine returns beautifulsoup4, PyYAML. *)
Lemma C8_counterexample :
  join NL (packages_in_discovery_order [] yaml_then_bs4_tree None)
  = "PyYAML" ++ NL ++ "beautifulsoup4"
  ∧ _auto_detect_pip_requirements [] parse_yaml_then_bs4 yaml_then_bs4 None
    = "beautifulsoup4" ++ NL ++ "PyYAML"
  ∧ _auto_detect_pip_requirements [] parse_yaml_then_bs4 yaml_then_bs4 None
    ≠ join NL (packages_in_discovery_order [] yaml_then_bs4_tree None).
Proof.
  split; [vm_compute; reflexivity | split; [vm_compute; reflexivity | ]].
  vm_compute. discriminate.
Qed.

(* ===================================================================== *)
(** * Requirements merging *)
(* ===================================================================== *)

Lemma append_cons c (s t : string) : String c s ++ t = String c (s ++ t).
Proof. reflexivity. Qed.

Lemma append_nil (t : string) : "" ++ t = t.
Proof. reflexivity. Qed.

Lemma append_empty_r (s : string) : s ++ "" = s.
Proof. induction s as [|c s IH]; [reflexivity | now rewrite append_cons, IH]. Qed.

Lemma lines_from_one_line l s :
  one_line l = true →
  lines_from (l ++ s) = (l ++ fst (lines_from s), snd (lines_from s)).
Proof.
  induction l as [|c l IH]; cbn [one_line]; intros H.
  - rewrite !append_nil. now destruct (lines_from s).
  - apply andb_true_iff in H as [Hc Hl]. apply negb_true_iff in Hc.
    rewrite !append_cons. cbn [lines_from]. rewrite (IH Hl), Hc. reflexivity.
Qed.

Lemma lines_from_LF r :
  r ≠ "" → lines_from (String LF r) = ("", fst (lines_from r) :: snd (lines_from r)).
Proof.
  intros Hr. cbn [lines_from]. destruct (lines_from r) as [cur rest].
  destruct r; [congruence | reflexivity].
Qed.

Lemma join_cons sep l l' L : join sep (l :: l' :: L) = l ++ sep ++ join sep (l' :: L).
Proof. reflexivity. Qed.

Lemma join_nonempty sep l L : l ≠ "" → join sep (l :: L) ≠ "".
Proof.
  intros Hl. destruct L; cbn; [exact Hl | ].
  destruct l; [congruence | discriminate].
Qed.

Lemma lines_from_join l L :
  one_line l = true →
  Forall (fun x => one_line x = true ∧ x ≠ "") L →
  lines_from (join NL (l :: L)) = (l, L).
Proof.
  intros Hl HL. revert l Hl.
  induction HL as [|l' L [Hl' Hne] _ IH]; intros l Hl.
  - change (join NL [l]) with l. rewrite <- (append_empty_r l) at 1.
    rewrite lines_from_one_line by assumption. cbn. now rewrite append_empty_r.
  - rewrite join_cons. rewrite lines_from_one_line by assumption.
    change (NL ++ join NL (l' :: L)) with (String LF (join NL (l' :: L))).
    rewrite lines_from_LF by now apply join_nonempty.
    rewrite (IH l' Hl'). cbn. now rewrite append_empty_r.
Qed.

(** Joining lines with "\n" and splitting again gives the lines back. *)
Lemma splitlines_join L :
  Forall (fun x => one_line x = true ∧ x ≠ "") L → splitlines (join NL L) = L.
Proof.
  intros HL. destruct HL as [|l L [Hl Hne] HL]; [reflexivity|].
  unfold splitlines. rewrite lines_from_join by assumption.
  pose proof (join_nonempty NL l L Hne) as Hj.
  destruct (join NL (l :: L)); [congruence | reflexivity].
Qed.

Lemma lines_from_one_lines s :
  one_line (fst (lines_from s)) = true
  ∧ Forall (fun x => one_line x = true) (snd (lines_from s)).
Proof.
  induction s as [|c s [IH1 IH2]]; cbn [lines_from]; [split; [reflexivity | constructor]|].
  destruct (lines_from s) as [cur rest]. cbn [fst snd] in IH1, IH2.
  destruct (is_linebreak c) eqn:Hc.
  - destruct (Ascii.eqb c CR && _); cbn [fst snd]; [now split | ].
    split; [reflexivity | ]. destruct s; [exact IH2 | now constructor].
  - cbn [fst snd one_line]. rewrite Hc. now split.
Qed.

Lemma splitlines_one_line s : Forall (fun x => one_line x = true) (splitlines s).
Proof.
  unfold splitlines. destruct s as [|c s]; [constructor|].
  destruct (lines_from_one_lines (String c s)) as [H1 H2].
  destruct (lines_from (String c s)). now constructor.
Qed.

Lemma one_line_lstrip s : one_line s = true → one_line (lstrip s) = true.
Proof.
  induction s as [|c s IH]; [reflexivity|]. intros H. cbn [lstrip].
  destruct (is_space c); [ | exact H].
  apply IH. cbn in H. now apply andb_true_iff in H as [_ H].
Qed.

Lemma one_line_rstrip s : one_line s = true → one_line (rstrip s) = true.
Proof.
  induction s as [|c s IH]; [reflexivity|]. cbn [one_line rstrip]. intros H.
  apply andb_true_iff in H as [Hc Hs]. specialize (IH Hs).
  destruct (rstrip s) as [|d r].
  - destruct (is_space c); [reflexivity | ]. cbn. now rewrite Hc.
  - cbn [one_line] in IH |- *. now rewrite Hc, IH.
Qed.

Lemma one_line_strip s : one_line s = true → one_line (strip s) = true.
Proof. intros H. unfold strip. now apply one_line_rstrip, one_line_lstrip. Qed.

Lemma rstrip_idem s : rstrip (rstrip s) = rstrip s.
Proof.
  induction s as [|c s IH]; [reflexivity|]. cbn [rstrip].
  destruct (rstrip s) as [|d r] eqn:E.
  - destruct (is_space c) eqn:Hc; [reflexivity | ]. cbn. now rewrite Hc.
  - cbn [rstrip]. cbn [rstrip] in IH. rewrite IH. reflexivity.
Qed.

Lemma rstrip_head c s :
  is_space c = false → ∃ r, rstrip (String c s) = String c r.
Proof.
  intros Hc. cbn [rstrip]. destruct (rstrip s); [rewrite Hc | ]; eauto.
Qed.

Lemma lstrip_head s : lstrip s = "" ∨ ∃ c r, lstrip s = String c r ∧ is_space c = false.
Proof.
  induction s as [|c s IH]; [now left|]. cbn [lstrip].
  destruct (is_space c) eqn:Hc; [exact IH | right; eauto].
Qed.

(** [strip] is idempotent. *)
Lemma strip_idem s : strip (strip s) = strip s.
Proof.
  unfold strip. destruct (lstrip_head s) as [E | (c & r & E & Hc)]; rewrite E.
  - reflexivity.
  - destruct (rstrip_head c r Hc) as [r' Er]. rewrite Er.
    cbn [lstrip]. rewrite Hc, <- Er. apply rstrip_idem.
Qed.

(** A line of a merged text: no line boundary, not blank. *)
Local Abbreviation merged_line l := (one_line l = true ∧ nonempty (strip l) = true).

Lemma merged_line_nonempty l : merged_line l → l ≠ "".
Proof. intros [_ H] ->. discriminate. Qed.

Lemma filter_all {A} (P : A → Prop) `{!∀ x, Decision (P x)} (l : list A) :
  Forall P l → filter P l = l.
Proof.
  induction 1 as [|x l Hx _ IH]; [reflexivity|].
  now rewrite filter_cons_True, IH.
Qed.

Lemma fold_user_mono L acc x : x ∈ acc → x ∈ fold_left add_user_line L acc.
Proof.
  revert acc. induction L as [|l L IH]; intros acc H; [exact H|].
  cbn [fold_left]. apply IH. unfold add_user_line.
  destruct (_ && _); [set_solver | exact H].
Qed.

Lemma fold_user_covers L acc l :
  l ∈ L → nonempty (strip l) = true → is_comment l = false →
  lower (strip l) ∈ fold_left add_user_line L acc.
Proof.
  revert acc. induction L as [|l' L IH]; intros acc Hin Hne Hc.
  - now apply elem_of_nil in Hin.
  - cbn [fold_left]. apply elem_of_cons in Hin as [<- | Hin]; [ | now apply IH].
    apply fold_user_mono. unfold add_user_line. unfold is_comment in Hc.
    rewrite Hne, Hc. cbn. set_solver.
Qed.

Lemma fold_auto_noop L auto_lines combined :
  (∀ l, l ∈ L → lower (strip l) ∈ combined) →
  fold_left add_auto_line L (auto_lines, combined) = (auto_lines, combined).
Proof.
  induction L as [|l L IH]; intros H; [reflexivity|].
  cbn [fold_left]. unfold add_auto_line at 2. unfold in_set.
  rewrite bool_decide_true by (apply H; left). rewrite andb_false_r.
  apply IH. intros l' Hl'. apply H. now right.
Qed.

Lemma fold_auto_lines L st :
  Forall (fun l => one_line l = true) L →
  Forall (fun l => merged_line l) (fst st) →
  Forall (fun l => merged_line l) (fst (fold_left add_auto_line L st)).
Proof.
  intros HL. revert st. induction HL as [|l L Hl _ IH]; intros st Hst; [exact Hst|].
  cbn [fold_left]. apply IH. unfold add_auto_line. destruct st as [auto_lines combined].
  destruct (nonempty (strip l) && _) eqn:E; [ | exact Hst].
  apply andb_true_iff in E as [E _]. cbn [fst] in *.
  apply Forall_app. split; [exact Hst | ].
  constructor; [ | constructor]. split; [now apply one_line_strip | now rewrite strip_idem].
Qed.

(** A merged text is the join of lines that are not blank. *)
Lemma merged_text_lines user_req auto_req m :
  _merge_requirements user_req auto_req = Some m →
  ∃ L, L ≠ [] ∧ m = join NL L ∧ Forall (fun l => merged_line l) L.
Proof.
  unfold _merge_requirements.
  set (user := default "" user_req).
  set (combined := fold_left add_user_line (splitlines user) ∅).
  set (auto_lines := fst (fold_left add_auto_line (splitlines auto_req) ([], combined))).
  set (all_lines := app _ auto_lines).
  assert (Hall : Forall (fun l => merged_line l) all_lines).
  { apply Forall_app. split.
    - apply Forall_forall. intros l Hl. apply list_elem_of_filter in Hl as [Hb Hl].
      split; [ | exact Hb].
      pose proof (splitlines_one_line user) as H. rewrite Forall_forall in H. now apply H.
    - apply fold_auto_lines; [apply splitlines_one_line | constructor]. }
  destruct all_lines as [|l L] eqn:E; [discriminate|].
  intros [= <-]. exists (l :: L). repeat split; [discriminate | exact Hall].
Qed.

(** C7 (amended): merging is idempotent on merged texts without comment
    line: when [m] is a result of [_merge_requirements] and no line of [m]
    is a comment (its stripped form starts with "#"), merging [m] with
    itself, as the user-declared part and as the auto-detected part, gives
    [m] again; entries are compared in lower case. *)
Theorem C7_merge_idempotent user_req auto_req m :
  _merge_requirements user_req auto_req = Some m →
  (∀ l, l ∈ splitlines m → is_comment l = false) →
  _merge_requirements (Some m) m = Some m.
Proof.
  intros Hm Hc.
  destruct (merged_text_lines _ _ _ Hm) as (L & Hne & -> & HL).
  assert (Hs : splitlines (join NL L) = L).
  { apply splitlines_join. eapply Forall_impl; [exact HL | ].
    intros l Hl. split; [apply Hl | now apply merged_line_nonempty]. }
  rewrite Hs in Hc.
  unfold _merge_requirements. change (default "" (Some (join NL L))) with (join NL L).
  rewrite Hs. rewrite fold_auto_noop.
  - cbn [fst]. rewrite app_nil_r.
    rewrite filter_all by (eapply Forall_impl; [exact HL | intros l Hl; apply Hl]).
    destruct L; [congruence | reflexivity].
  - intros l Hl. rewrite Forall_forall in HL.
    apply fold_user_covers; [exact Hl | now apply HL | now apply Hc].
Qed.

(** The theorem at the merge of a pinned Flask with an inferred PyYAML. *)
Lemma C7_witness :
  let m := "Flask==2.0" ++ NL ++ "PyYAML" in
  _merge_requirements (Some m) m = Some m.
Proof.
  apply (C7_merge_idempotent (Some "Flask==2.0") "PyYAML").
  - vm_compute. reflexivity.
  - intros l Hl. vm_compute in Hl.
    repeat (apply elem_of_cons in Hl as [-> | Hl]; [vm_compute; reflexivity | ]).
    now apply elem_of_nil in Hl.
Defined.

(** C7 (as stated) fails: a user requirements text with a comment line is
    its own merge with nothing inferred, and merging it with itself
    appends the comment line a second time. *)
Lemma C7_counterexample :
  _merge_requirements (Some pinned_flask) "" = Some pinned_flask
  ∧ _merge_requirements (Some pinned_flask) pinned_flask
    = Some (pinned_flask ++ NL ++ "# pinned for CI")
  ∧ _merge_requirements (Some pinned_flask) pinned_flask ≠ Some pinned_flask.
Proof.
  split; [vm_compute; reflexivity | split; [vm_compute; reflexivity | ]].
  vm_compute. discriminate.
Qed.

(* ===================================================================== *)
(** * The placeholder import rewriter *)
(* ===================================================================== *)

Lemma stake_sdrop n s : stake n s ++ sdrop n s = s.
Proof.
  revert s. induction n as [|n IH]; intros [|c s]; try reflexivity.
  cbn [stake sdrop]. now rewrite append_cons, IH.
Qed.

Lemma match_here_src r prev s m : match_here r prev s = Some m → mo_src m = s.
Proof. unfold match_here. destruct (run r Some _); now intros [= <-]. Qed.

(** A substitution whose replacement is the matched text changes nothing. *)
Lemma sub_go_unchanged r repl s :
  ∀ skip prev,
    (∀ m, m ∈ finditer_go r skip prev s → repl m = group0 m) →
    sub_go r repl skip prev s = sdrop skip s.
Proof.
  induction s as [|c rest IH]; intros skip prev H.
  - now destruct skip.
  - destruct skip as [|n]; cbn [sub_go finditer_go sdrop] in *.
    + destruct (match_here r prev (String c rest)) as [m|] eqn:E.
      * destruct (mo_end m) as [|n] eqn:En.
        -- now rewrite IH.
        -- rewrite (H m) by left. rewrite IH by (intros m' Hm'; apply H; now right).
           unfold group0. rewrite En, (match_here_src _ _ _ _ E).
           cbn [stake]. now rewrite append_cons, stake_sdrop.
      * now rewrite IH.
    + now apply IH.
Qed.

(** Two positions that differ at most in the character before the cursor. *)
Definition same_view (a b : mstate) : Prop :=
  m_rest a = m_rest b ∧ m_pos a = m_pos b ∧ m_groups a = m_groups b.

Definition same_result (x y : option mstate) : Prop :=
  match x, y with
  | Some a, Some b => same_view a b
  | None, None => True
  | _, _ => False
  end.

Lemma same_result_or x y x' y' :
  same_result x x' → same_result y y' →
  same_result (match x with Some s => Some s | None => y end)
              (match x' with Some s => Some s | None => y' end).
Proof. destruct x, x'; cbn; tauto. Qed.

Lemma star_loop_blind (step : cont → cont) greedy :
  (∀ k k' st st', same_view st st' →
     (∀ a b, same_view a b → same_result (k a) (k' b)) →
     same_result (step k st) (step k' st')) →
  ∀ fuel k k' st st', same_view st st' →
    (∀ a b, same_view a b → same_result (k a) (k' b)) →
    same_result (star_loop step greedy k fuel st) (star_loop step greedy k' fuel st').
Proof.
  intros Hstep. induction fuel as [|fuel IH]; intros k k' st st' Hv Hk; cbn [star_loop].
  - now apply Hk.
  - assert (Hagain :
      same_result
        (step (fun st1 => if (m_pos st <? m_pos st1)%nat
                          then star_loop step greedy k fuel st1 else None) st)
        (step (fun st1 => if (m_pos st' <? m_pos st1)%nat
                          then star_loop step greedy k' fuel st1 else None) st')).
    { apply Hstep; [exact Hv | ]. intros a b Hab.
      destruct Hv as (_ & Hp & _). destruct Hab as (Hr & Hq & Hg).
      rewrite Hp, Hq. destruct (_ <? _)%nat; [ | exact I].
      apply IH; [now split | exact Hk]. }
    destruct greedy; apply same_result_or; auto.
Qed.

(** A pattern without [^], [\b] or look-behind gives the same match
    whatever precedes the cursor. *)
Lemma run_blind r :
  blind r = true →
  ∀ k k' st st', same_view st st' →
    (∀ a b, same_view a b → same_result (k a) (k' b)) →
    same_result (run r k st) (run r k' st').
Proof.
  induction r as [ | p | a IHa b IHb | a IHa b IHb | g a IHa | i a IHa | | | | | p | p];
    cbn [blind]; intros Hb k k' st st' Hv Hk; try discriminate; cbn [run].
  - now apply Hk.
  - destruct Hv as (Hr & Hp & Hg). rewrite Hr. destruct (m_rest st') as [|c rest]; [exact I|].
    destruct (p c); [ | exact I]. apply Hk. rewrite Hp, Hg. now split.
  - apply andb_true_iff in Hb as [Ha Hb]. apply IHa; auto.
  - apply andb_true_iff in Hb as [Ha Hb]. apply same_result_or; auto.
  - destruct Hv as (Hr & Hp & Hg). rewrite Hr.
    apply star_loop_blind; [now apply IHa | now split | exact Hk].
  - apply IHa; auto. intros x y (Hr & Hp & Hg). apply Hk.
    destruct Hv as (_ & Hq & _). cbn. now rewrite Hr, Hp, Hg, Hq.
  - pose proof Hv as (Hr & _). rewrite Hr.
    destruct (m_rest st') as [|c [|d rest]] eqn:E; [now apply Hk | | exact I].
    destruct (is_LF c); [now apply Hk | exact I].
  - pose proof Hv as (Hr & _). rewrite Hr.
    destruct (m_rest st') as [|c rest] eqn:E; [now apply Hk | ].
    destruct (is_LF c); [now apply Hk | exact I].
  - pose proof Hv as (Hr & _). rewrite Hr.
    destruct (head_is p (m_rest st')) eqn:E; [exact I | now apply Hk].
Qed.

Lemma match_here_blind r prev prev' s :
  blind r = true → match_here r prev s = match_here r prev' s.
Proof.
  intros Hb. unfold match_here.
  assert (H : same_result (run r Some (MState prev s 0 []))
                          (run r Some (MState prev' s 0 []))).
  { apply run_blind; [exact Hb | repeat split | intros a b Hab; exact Hab]. }
  destruct (run r Some (MState prev s 0 [])) as [a|],
           (run r Some (MState prev' s 0 [])) as [b|]; cbn in H; try tauto.
  destruct H as (_ & -> & ->). reflexivity.
Qed.

Lemma sub_go_blind r repl skip prev prev' s :
  blind r = true → sub_go r repl skip prev s = sub_go r repl skip prev' s.
Proof.
  intros Hb. destruct s as [|c rest]; [reflexivity|]. destruct skip; [ | reflexivity].
  cbn [sub_go]. now rewrite (match_here_blind r prev prev').
Qed.

(** After the characters of a match have been passed, the scan goes on
    as on the rest alone. *)
Lemma sub_go_skip r repl a tail prev :
  blind r = true →
  sub_go r repl (String.length a) prev (a ++ tail) = sub r repl tail.
Proof.
  intros Hb. revert prev. induction a as [|c a IH]; intros prev.
  - rewrite append_nil. apply sub_go_blind, Hb.
  - rewrite append_cons. cbn [String.length sub_go]. apply IH.
Qed.

Lemma star_loop_greedy step k fuel st :
  star_loop step true k (S fuel) st
  = match step (fun st1 => if (m_pos st <? m_pos st1)%nat
                           then star_loop step true k fuel st1 else None) st with
    | Some st' => Some st'
    | None => k st
    end.
Proof. reflexivity. Qed.

Lemma run_chr p k prev c rest pos gs :
  run (Chr p) k (MState prev (String c rest) pos gs)
  = if p c then k (MState (Some c) rest (S pos) gs) else None.
Proof. reflexivity. Qed.

Lemma run_chr_end p k prev pos gs : run (Chr p) k (MState prev "" pos gs) = None.
Proof. reflexivity. Qed.

(** A greedy star over a character class passes all the characters of
    the class that stand at the cursor, when the rest of the pattern
    matches after them. *)
Lemma star_chr p (k : cont) xs rest r0 :
  all_chars p xs = true →
  head_is p rest = false →
  ∀ fuel prev pos gs,
    (String.length xs < fuel)%nat →
    (∀ pv, k (MState pv rest (pos + String.length xs) gs) = Some r0) →
    star_loop (run (Chr p)) true k fuel (MState prev (xs ++ rest) pos gs) = Some r0.
Proof.
  intros Hxs Hrest. induction xs as [|x xs IH]; intros fuel prev pos gs Hf Hk.
  - rewrite append_nil. cbn [String.length] in Hk. rewrite Nat.add_0_r in Hk.
    destruct fuel as [|fuel]; [apply Hk|]. rewrite star_loop_greedy.
    destruct rest as [|c rest]; [rewrite run_chr_end; apply Hk|].
    cbn [head_is] in Hrest. rewrite run_chr, Hrest. apply Hk.
  - cbn [all_chars] in Hxs. apply andb_true_iff in Hxs as [Hx Hxs].
    destruct fuel as [|fuel]; [cbn in Hf; lia|].
    rewrite append_cons, star_loop_greedy, run_chr, Hx.
    cbn [m_pos]. rewrite (proj2 (Nat.ltb_lt pos (S pos))) by lia.
    rewrite (IH Hxs fuel (Some x) (S pos) gs); [reflexivity | cbn in Hf; lia | ].
    intros pv. rewrite <- (Hk pv). cbn [String.length]. f_equal. f_equal. lia.
Qed.

Lemma ident_start_not_space c : ident_start c = true → is_space c = false.
Proof.
  destruct c as [[] [] [] [] [] [] [] []]; vm_compute; congruence.
Qed.

Lemma space_not_word c : is_space c = true → is_word c = false.
Proof.
  destruct c as [[] [] [] [] [] [] [] []]; vm_compute; congruence.
Qed.

Lemma length_append (a b : string) :
  String.length (a ++ b) = (String.length a + String.length b)%nat.
Proof.
  induction a as [|c a IH]; [reflexivity|].
  rewrite append_cons. cbn [String.length]. now rewrite IH.
Qed.

Lemma stake_append a b : stake (String.length a) (a ++ b) = a.
Proof.
  induction a as [|c a IH]; [now destruct b|].
  rewrite append_cons. cbn [String.length stake]. now rewrite IH.
Qed.

Lemma sdrop_append a b : sdrop (String.length a) (a ++ b) = b.
Proof.
  induction a as [|c a IH]; [reflexivity|].
  rewrite append_cons. cbn [String.length sdrop]. exact IH.
Qed.

Lemma append_assoc (a b c : string) : (a ++ b) ++ c = a ++ b ++ c.
Proof.
  induction a as [|x a IH]; [reflexivity|]. now rewrite !append_cons, IH.
Qed.

Lemma blank_run_cons ws :
  blank_run ws = true →
  ∃ w ws', ws = String w ws' ∧ is_space w = true ∧ all_chars is_space ws' = true.
Proof.
  destruct ws as [|w ws']; [discriminate|]. unfold blank_run. cbn.
  intros H. apply andb_true_iff in H as [? ?]. eauto.
Qed.

(** How [re_from_import] reads the statement [from X import]. *)
Lemma from_import_run prev ws1 X ws2 tail :
  blank_run ws1 = true → is_identifier X = true → blank_run ws2 = true →
  run re_from_import Some
      (MState prev ("from" ++ ws1 ++ X ++ ws2 ++ "import" ++ tail) 0 [])
  = Some (MState (Some "t"%char) tail
                 (4 + String.length ws1 + String.length X + String.length ws2 + 6)
                 [(1, (4 + String.length ws1,
                       4 + String.length ws1 + String.length X))%nat]).
Proof.
  intros H1 HX H2.
  apply blank_run_cons in H1 as (w1 & ws1' & -> & Hw1 & Hws1).
  apply blank_run_cons in H2 as (w2 & ws2' & -> & Hw2 & Hws2).
  destruct X as [|x X]; [discriminate|]. cbn [is_identifier] in HX.
  apply andb_true_iff in HX as [Hx HX].
  unfold re_from_import, Seqs, Some1, Plus, Many.
  change ("from" ++ String w1 ws1' ++ String x X ++ String w2 ws2' ++ "import" ++ tail)
    with (String "f" (String "r" (String "o" (String "m" (String w1
            (ws1' ++ String x (X ++ String w2 (ws2' ++ "import" ++ tail)))))))).
  cbn [run Lit m_rest m_pos m_groups m_prev is_char Ascii.eqb Bool.eqb].
  rewrite Hw1.
  apply (star_chr is_space _ ws1' (String x (X ++ String w2 (ws2' ++ "import" ++ tail)))).
  - exact Hws1.
  - cbn [head_is]. now apply ident_start_not_space.
  - cbn [m_rest]. rewrite length_append. lia.
  - intros pv. cbn [run m_rest m_pos m_groups m_prev]. rewrite Hx.
    apply (star_chr is_word _ X (String w2 (ws2' ++ "import" ++ tail))).
    + exact HX.
    + cbn [head_is]. now apply space_not_word.
    + cbn [m_rest]. rewrite length_append. lia.
    + intros pv'. cbn [run m_rest m_pos m_groups m_prev]. rewrite Hw2.
      change ("import" ++ tail)
        with (String "i" (String "m" (String "p" (String "o" (String "r"
                (String "t" tail)))))).
      apply (star_chr is_space _ ws2'
               (String "i" (String "m" (String "p" (String "o" (String "r"
                  (String "t" tail))))))).
      * exact Hws2.
      * reflexivity.
      * cbn [m_rest]. rewrite length_append. lia.
      * intros pv''.
        cbn [run Lit m_rest m_pos m_groups m_prev is_char Ascii.eqb Bool.eqb String.length].
        f_equal. apply (f_equal2 (MState (Some "t"%char) tail)); [lia | ].
        do 3 f_equal; lia.
Qed.

Lemma from_import_match prev ws1 X ws2 tail :
  blank_run ws1 = true → is_identifier X = true → blank_run ws2 = true →
  match_here re_from_import prev ("from" ++ ws1 ++ X ++ ws2 ++ "import" ++ tail)
  = Some (RMatch ("from" ++ ws1 ++ X ++ ws2 ++ "import" ++ tail)
                 (4 + String.length ws1 + String.length X + String.length ws2 + 6)
                 [(1, (4 + String.length ws1,
                       4 + String.length ws1 + String.length X))%nat]).
Proof.
  intros H1 HX H2. unfold match_here. now rewrite from_import_run.
Qed.

(** ** What a successful match has read *)

Lemma star_loop_reaches (step : cont → cont) greedy :
  (∀ k st res, step k st = Some res →
     ∃ st', k st' = Some res ∧ ∃ pre, m_rest st = pre ++ m_rest st') →
  ∀ fuel k st res, star_loop step greedy k fuel st = Some res →
    ∃ st', k st' = Some res ∧ ∃ pre, m_rest st = pre ++ m_rest st'.
Proof.
  intros Hstep. induction fuel as [|fuel IH]; intros k st res; cbn [star_loop].
  - intros H. exists st. split; [exact H | now exists ""].
  - set (K := fun st1 => if (m_pos st <? m_pos st1)%nat
                         then star_loop step greedy k fuel st1 else None).
    assert (Hagain : step K st = Some res →
              ∃ st', k st' = Some res ∧ ∃ pre, m_rest st = pre ++ m_rest st').
    { intros H. apply Hstep in H as (st1 & H1 & pre1 & E1). unfold K in H1.
      destruct (_ <? _)%nat; [ | discriminate].
      apply IH in H1 as (st' & H' & pre2 & E2). exists st'. split; [exact H' | ].
      exists (pre1 ++ pre2). now rewrite E1, E2, append_assoc. }
    assert (Hstop : k st = Some res →
              ∃ st', k st' = Some res ∧ ∃ pre, m_rest st = pre ++ m_rest st').
    { intros H. exists st. split; [exact H | now exists ""]. }
    destruct greedy.
    + destruct (step K st) as [x|] eqn:E; [intros [= ->]; now apply Hagain | exact Hstop].
    + destruct (k st) as [x|] eqn:E; [intros [= ->]; now apply Hstop | exact Hagain].
Qed.

(** When a pattern matches, the rest of the match went on from a later
    position of the same text. *)
Lemma run_reaches r :
  ∀ k st res, run r k st = Some res →
    ∃ st', k st' = Some res ∧ ∃ pre, m_rest st = pre ++ m_rest st'.
Proof.
  assert (Hhere : ∀ (k : cont) st res, k st = Some res →
            ∃ st', k st' = Some res ∧ ∃ pre, m_rest st = pre ++ m_rest st').
  { intros k st res H. exists st. split; [exact H | now exists ""]. }
  induction r as [ | p | a IHa b IHb | a IHa b IHb | g a IHa | i a IHa | | | | | p | p];
    intros k st res; cbn [run].
  - apply Hhere.
  - destruct (m_rest st) as [|c rest] eqn:E; [discriminate|].
    destruct (p c); [ | discriminate]. intros H.
    eexists. split; [exact H | ]. now exists (String c "").
  - intros H. apply IHa in H as (st1 & H1 & pre1 & E1).
    apply IHb in H1 as (st2 & H2 & pre2 & E2).
    exists st2. split; [exact H2 | ]. exists (pre1 ++ pre2).
    now rewrite E1, E2, append_assoc.
  - destruct (run a k st) as [x|] eqn:E; [intros [= ->]; now apply IHa | apply IHb].
  - apply star_loop_reaches, IHa.
  - intros H. apply IHa in H as (st1 & H1 & pre1 & E1).
    eexists. split; [exact H1 | ]. now exists pre1.
  - intros H. apply Hhere.
    destruct (m_prev st) as [c|]; [destruct (is_LF c); [ | discriminate] | ]; exact H.
  - intros H. apply Hhere.
    destruct (m_rest st) as [|c [|d rest]]; [exact H | | discriminate].
    destruct (is_LF c); [exact H | discriminate].
  - intros H. apply Hhere.
    destruct (m_rest st) as [|c rest]; [exact H | ].
    destruct (is_LF c); [exact H | discriminate].
  - intros H. apply Hhere. destruct (xorb _ _); [exact H | discriminate].
  - intros H. apply Hhere. destruct (prev_is p _); [discriminate | exact H].
  - intros H. apply Hhere. destruct (head_is p _); [discriminate | exact H].
Qed.

Lemma chr_inv c (k : cont) st res :
  run (Chr (is_char c)) k st = Some res →
  ∃ st', k st' = Some res ∧ m_rest st = String c (m_rest st').
Proof.
  cbn [run]. destruct (m_rest st) as [|d rest]; [discriminate|].
  unfold is_char. destruct (Ascii.eqb_spec c d) as [-> | ]; [ | discriminate].
  intros H. eexists. split; [exact H | reflexivity].
Qed.

(** A literal reads itself. *)
Lemma lit_inv s :
  ∀ (k : cont) st res, run (Lit s) k st = Some res →
    ∃ st', k st' = Some res ∧ m_rest st = s ++ m_rest st'.
Proof.
  induction s as [|c s IH]; intros k st res.
  - cbn [Lit run]. intros H. now exists st.
  - destruct s as [|d s].
    + cbn [Lit]. intros H. apply chr_inv in H as (st' & H & E). now exists st'.
    + change (Lit (String c (String d s))) with (Seq (Chr (is_char c)) (Lit (String d s))).
      cbn [run]. intros H. apply chr_inv in H as (st1 & H1 & E1).
      apply IH in H1 as (st2 & H2 & E2). exists st2. split; [exact H2 | ].
      now rewrite E1, E2.
Qed.

(** An alternation of literals reads one of them. *)
Lemma alts_lit_inv mods :
  ∀ (k : cont) st res, run (Alts (Lit <$> mods)) k st = Some res →
    ∃ a st', a ∈ mods ∧ k st' = Some res ∧ m_rest st = a ++ m_rest st'.
Proof.
  induction mods as [|a mods IH]; intros k st res.
  - cbn [fmap list_fmap Alts run]. destruct (m_rest st); discriminate.
  - destruct mods as [|b mods].
    + cbn [fmap list_fmap Alts]. intros H. apply lit_inv in H as (st' & H & E).
      exists a, st'. repeat split; [left | exact H | exact E].
    + change (Alts (Lit <$> a :: b :: mods))
        with (Alt (Lit a) (Alts (Lit <$> b :: mods))).
      cbn [run]. destruct (run (Lit a) k st) as [x|] eqn:E.
      * intros [= ->]. apply lit_inv in E as (st' & H & E).
        exists a, st'. repeat split; [left | exact H | exact E].
      * intros H. apply IH in H as (a' & st' & Ha & H & E').
        exists a', st'. repeat split; [now right | exact H | exact E'].
Qed.

(** A match of a patch-target pattern stands on a text that holds one of
    the module names followed by a dot. *)
Lemma patch_target_match opener mods prev s m :
  match_here (re_patch_target opener mods) prev s = Some m →
  ∃ a pre post, a ∈ mods ∧ s = pre ++ (a ++ ".") ++ post.
Proof.
  unfold match_here, re_patch_target.
  destruct (run _ Some _) as [res|] eqn:E; [ | discriminate]. intros _.
  cbn [Seqs] in E.
  change (run (Seq ?g (Seq ?h ?l)) Some ?st) with (run g (run (Seq h l) Some) st) in E.
  apply run_reaches in E as (st1 & H1 & pre & E1). cbn [m_rest] in E1.
  cbn [run] in H1. apply alts_lit_inv in H1 as (a & st2 & Ha & H2 & E2).
  apply lit_inv in H2 as (st3 & _ & E3). cbn [m_rest] in E3.
  exists a, pre, (m_rest st3). split; [exact Ha | ].
  now rewrite E1, E2, E3, append_assoc.
Qed.

Lemma prefix_append a b : String.prefix a (a ++ b) = true.
Proof.
  induction a as [|c a IH]; [now destruct b|].
  rewrite append_cons. cbn [String.prefix]. destruct (ascii_dec c c); [exact IH | congruence].
Qed.

Lemma find_from_inside sub pre post : ∀ i, find_from sub (pre ++ sub ++ post) i ≠ (-1)%Z.
Proof.
  induction pre as [|c pre IH]; intros i.
  - rewrite append_nil. destruct (sub ++ post) eqn:E; cbn [find_from];
      rewrite <- E, prefix_append; lia.
  - rewrite append_cons. cbn [find_from]. destruct (String.prefix _ _); [lia | apply IH].
Qed.

Lemma contains_inside sub pre post : contains sub (pre ++ sub ++ post) = true.
Proof. unfold contains, find. apply negb_true_iff, Z.eqb_neq, find_from_inside. Qed.

(** Every match that the scan finds stands on a tail of the text. *)
Lemma finditer_go_src r s :
  ∀ skip prev m, m ∈ finditer_go r skip prev s →
    ∃ pre prev', s = pre ++ mo_src m ∧ match_here r prev' (mo_src m) = Some m.
Proof.
  induction s as [|c rest IH]; intros skip prev m; cbn [finditer_go].
  - intros H. now apply elem_of_nil in H.
  - assert (Hlater : ∀ n, m ∈ finditer_go r n (Some c) rest →
              ∃ pre prev', String c rest = pre ++ mo_src m
                           ∧ match_here r prev' (mo_src m) = Some m).
    { intros n H. apply IH in H as (pre & prev' & E & H). exists (String c pre), prev'.
      split; [now rewrite append_cons, <- E | exact H]. }
    destruct skip as [|n]; [ | apply Hlater].
    destruct (match_here r prev (String c rest)) as [m0|] eqn:E; [ | apply Hlater].
    destruct (mo_end m0) as [|n]; [apply Hlater | ].
    intros H. apply elem_of_cons in H as [-> | H]; [ | now apply (Hlater n)].
    exists "", prev. rewrite (match_here_src _ _ _ _ E). split; [reflexivity | exact E].
Qed.

Lemma patch_target_absent opener mods test_code :
  (∀ a, a ∈ mods → contains (a ++ ".") test_code = false) →
  sub (re_patch_target opener mods) to_source test_code = test_code.
Proof.
  intros H. unfold sub. rewrite sub_go_unchanged; [reflexivity | ].
  intros m Hm. exfalso.
  apply finditer_go_src in Hm as (pre & prev' & E & Hm).
  apply patch_target_match in Hm as (a & pre' & post & Ha & E').
  specialize (H a Ha). rewrite E, E', <- append_assoc, contains_inside in H. discriminate.
Qed.

(* ===================================================================== *)
(** * Language detection, again *)
(* ===================================================================== *)

(** ** Language detection *)

Lemma lower_char_space c : is_space (lower_char c) = is_space c.
Proof. destruct c as [[] [] [] [] [] [] [] []]; reflexivity. Qed.

Lemma lower_char_idem c : lower_char (lower_char c) = lower_char c.
Proof. destruct c as [[] [] [] [] [] [] [] []]; reflexivity. Qed.

Lemma lower_idem s : lower (lower s) = lower s.
Proof.
  induction s as [|c s IH]; [reflexivity|].
  cbn [lower smap] in *. now rewrite lower_char_idem, IH.
Qed.

Lemma lower_lstrip s : lower (lstrip s) = lstrip (lower s).
Proof.
  induction s as [|c s IH]; [reflexivity|].
  cbn [lower smap lstrip] in *. rewrite lower_char_space.
  destruct (is_space c); [exact IH | reflexivity].
Qed.

Lemma lower_rstrip s : lower (rstrip s) = rstrip (lower s).
Proof.
  induction s as [|c s IH]; [reflexivity|].
  cbn [lower smap rstrip] in *. rewrite <- IH, lower_char_space.
  destruct (rstrip s) as [|d r]; cbn [smap]; [destruct (is_space c) | ]; reflexivity.
Qed.

Lemma lower_strip s : lower (strip s) = strip (lower s).
Proof. unfold strip. now rewrite lower_rstrip, lower_lstrip. Qed.

(** The normal form of a declared language is its own normal form. *)
Lemma normal_language_idem s : strip (lower (strip (lower s))) = strip (lower s).
Proof. now rewrite lower_strip, lower_idem, strip_idem. Qed.

(** X1: detection is stable: given its own answer as the declared
    language, [_detect_language] returns that answer again, on the same
    source and test text. *)
Theorem X1_detect_language_idempotent source_code test_code language :
  _detect_language source_code test_code
    (Some (_detect_language source_code test_code language))
  = _detect_language source_code test_code language.
Proof.
  unfold _detect_language at 2 3.
  set (lang := strip (lower (default "" language))).
  set (combined := source_code ++ NL ++ test_code).
  assert (Hl : strip (lower lang) = lang) by apply normal_language_idem.
  assert (Hgo : ∀ r, strip (lower r) = r →
            _detect_language source_code test_code (Some r)
            = if str_in r ["python"; "java"] then r
              else if String.eqb r "typescript" || String.eqb r "ts"
                      || any_in _TS_PATTERNS combined then "typescript"
              else if str_in r ["javascript"; "js"] then "javascript"
              else if nonempty r then r
              else if matches re_public_class combined
                      && (contains "import java." combined || contains "import org." combined)
                   then "java"
              else if any_in ["describe("; "it("; "test("; "expect("; "jest."; "require("]
                             combined
                   then (if any_in _TS_PATTERNS combined then "typescript" else "javascript")
              else "python").
  { intros r Hr. unfold _detect_language.
    change (default "" (Some r)) with r. rewrite Hr. reflexivity. }
  destruct (str_in lang ["python"; "java"]) eqn:E1.
  { rewrite (Hgo lang Hl), E1. reflexivity. }
  destruct (String.eqb lang "typescript" || String.eqb lang "ts"
            || any_in _TS_PATTERNS combined) eqn:E2.
  { rewrite (Hgo "typescript" eq_refl). reflexivity. }
  apply orb_false_elim in E2 as [E2 Ets].
  destruct (str_in lang ["javascript"; "js"]) eqn:E3.
  { rewrite (Hgo "javascript" eq_refl), Ets. reflexivity. }
  destruct (nonempty lang) eqn:E4.
  { rewrite (Hgo lang Hl), E1, E2, Ets, E3, E4. reflexivity. }
  rewrite Ets.
  destruct (matches re_public_class combined && _).
  { rewrite (Hgo "java" eq_refl). reflexivity. }
  destruct (any_in [_; _; _; _; _; _] combined).
  { rewrite (Hgo "javascript" eq_refl), Ets. reflexivity. }
  rewrite (Hgo "python" eq_refl). reflexivity.
Qed.

(** X2: when no language is declared (the argument is missing, empty
    or blank), [_detect_language] answers one of java, typescript,
    javascript and python. *)
Theorem X2_detect_language_undeclared source_code test_code language :
  strip (lower (default "" language)) = "" →
  _detect_language source_code test_code language
    ∈ ["java"; "typescript"; "javascript"; "python"].
Proof.
  intros H. unfold _detect_language. rewrite H.
  cbn [str_in existsb String.eqb orb nonempty].
  destruct (any_in _TS_PATTERNS _); [set_solver|].
  destruct (matches _ _ && _); [set_solver|].
  destruct (any_in _ _); set_solver.
Qed.

(** The theorem at a declared language of two spaces. *)
Lemma X2_witness :
  _detect_language "def add(a, b): return a + b" "def test_add(): assert add(1, 2) == 3" (Some "  ")
    ∈ ["java"; "typescript"; "javascript"; "python"].
Proof. apply X2_detect_language_undeclared. reflexivity. Defined.

(* ===================================================================== *)
(** * Requirements merging, again *)
(* ===================================================================== *)

(** ** Requirements *)

Lemma fold_user_blank L acc :
  (∀ l, l ∈ L → strip l = "") → fold_left add_user_line L acc = acc.
Proof.
  revert acc. induction L as [|l L IH]; intros acc H; [reflexivity|].
  cbn [fold_left]. unfold add_user_line at 2. rewrite (H l) by left. cbn.
  apply IH. intros l' Hl'. apply H. now right.
Qed.

Lemma fold_auto_blank L st :
  (∀ l, l ∈ L → strip l = "") → fold_left add_auto_line L st = st.
Proof.
  revert st. induction L as [|l L IH]; intros st H; [reflexivity|].
  cbn [fold_left]. unfold add_auto_line at 2. destruct st as [a c].
  rewrite (H l) by left. cbn.
  apply IH. intros l' Hl'. apply H. now right.
Qed.

Lemma fold_auto_grows L st :
  ∃ more, fst (fold_left add_auto_line L st) = (fst st ++ more)%list.
Proof.
  revert st. induction L as [|l L IH]; intros st.
  - exists []. cbn. now rewrite app_nil_r.
  - cbn [fold_left]. destruct (IH (add_auto_line st l)) as [more ->].
    unfold add_auto_line. destruct st as [a c].
    destruct (_ && _); cbn [fst]; [ | eauto].
    exists ([strip l] ++ more)%list. now rewrite app_assoc.
Qed.

Lemma nonempty_false s : nonempty s = false ↔ s = "".
Proof. destruct s; cbn; split; congruence. Qed.

Lemma fold_auto_first_blank L :
  fst (fold_left add_auto_line L ([], ∅)) = [] → ∀ l, l ∈ L → strip l = "".
Proof.
  induction L as [|l L IH]; intros H l' Hl'; [now apply elem_of_nil in Hl'|].
  cbn [fold_left] in H. unfold add_auto_line at 2 in H.
  destruct (nonempty (strip l)) eqn:E.
  - exfalso. unfold in_set in H. rewrite bool_decide_false in H by apply not_elem_of_empty.
    cbn [andb negb app] in H.
    destruct (fold_auto_grows L ([strip l], ∅ ∪ {[lower (strip l)]})) as [more Hm].
    rewrite Hm in H. discriminate.
  - cbn [andb] in H. apply nonempty_false in E.
    apply elem_of_cons in Hl' as [-> | Hl']; [exact E | now apply IH].
Qed.

(** X3: [_merge_requirements] returns [None] exactly when neither part
    has a line that is not blank. *)
Theorem X3_merge_requirements_none user_req auto_req :
  _merge_requirements user_req auto_req = None
  ↔ (∀ l, l ∈ splitlines (default "" user_req) → strip l = "")
    ∧ (∀ l, l ∈ splitlines auto_req → strip l = "").
Proof.
  unfold _merge_requirements.
  set (user := default "" user_req).
  set (kept := filter (λ l, nonempty (strip l) = true) (splitlines user)).
  assert (Hk : kept = [] ↔ ∀ l, l ∈ splitlines user → strip l = "").
  { unfold kept. split.
    - intros H l Hl. apply nonempty_false. apply not_true_is_false. intros Hn.
      assert (Hin : l ∈ filter (λ l, nonempty (strip l) = true) (splitlines user))
        by now apply list_elem_of_filter.
      rewrite H in Hin. now apply elem_of_nil in Hin.
    - intros H. induction (splitlines user) as [|l L IH]; [reflexivity|].
      rewrite filter_cons_False.
      + apply IH. intros l' Hl'. apply H. now right.
      + rewrite (H l) by left. discriminate. }
  split.
  - intros H.
    destruct (kept ++ _)%list as [|x xs] eqn:E; [ | discriminate].
    apply app_eq_nil in E as [E1 E2].
    pose proof (proj1 Hk E1) as Hu. split; [exact Hu | ].
    rewrite (fold_user_blank _ _ Hu) in E2. now apply fold_auto_first_blank.
  - intros [Hu Ha]. rewrite (proj2 Hk Hu), (fold_auto_blank _ _ Ha). reflexivity.
Qed.

Lemma lower_length s : String.length (lower s) = String.length s.
Proof. induction s as [|c s IH]; [reflexivity|]. cbn [lower smap String.length] in *. now rewrite IH. Qed.

Lemma lower_nonempty s : s ≠ "" → lower s ≠ "".
Proof. destruct s; [congruence | discriminate]. Qed.

Lemma fold_auto_inv L : ∀ acc comb,
  NoDup (lower <$> acc) → (∀ x, x ∈ acc → lower x ∈ comb) →
  let st := fold_left add_auto_line L (acc, comb) in
  NoDup (lower <$> fst st)
  ∧ (∀ x, x ∈ fst st →
       x ∈ acc ∨ (∃ l, l ∈ L ∧ x = strip l ∧ x ≠ "" ∧ lower x ∉ comb)).
Proof.
  induction L as [|l L IH]; intros acc comb Hnd Hin; cbn zeta.
  - cbn. split; [exact Hnd | tauto].
  - cbn [fold_left]. unfold add_auto_line at 2 4.
    destruct (nonempty (strip l) && negb (in_set (lower (strip l)) comb)) eqn:E.
    + apply andb_true_iff in E as [Hne Hnew]. apply negb_true_iff in Hnew.
      unfold in_set in Hnew. apply bool_decide_eq_false in Hnew.
      destruct (IH (acc ++ [strip l])%list (comb ∪ {[lower (strip l)]})) as [H1 H2].
      * rewrite fmap_app. apply NoDup_app. split; [exact Hnd | split].
        -- intros y Hy Hy'. cbn in Hy'. apply list_elem_of_singleton in Hy'. subst y.
           apply list_elem_of_fmap in Hy as (x & Hx & Hxa). apply Hnew.
           rewrite Hx. now apply Hin.
        -- cbn. apply NoDup_singleton.
      * intros x Hx. apply elem_of_app in Hx as [Hx | Hx];
          [apply elem_of_union_l; now apply Hin | ].
        apply list_elem_of_singleton in Hx. subst x.
        apply elem_of_union_r. now apply elem_of_singleton.
      * split; [exact H1 | ]. intros x Hx. apply H2 in Hx as [Hx | (l' & Hl' & Hs & Hn & Hc)].
        -- apply elem_of_app in Hx as [Hx | Hx]; [now left | right].
           apply list_elem_of_singleton in Hx. subst x. exists l.
           repeat split; [left | | exact Hnew].
           intros Hz. rewrite Hz in Hne. discriminate.
        -- right. exists l'. repeat split; [now right | exact Hs | exact Hn | ].
           intros Hq. apply Hc. now apply elem_of_union_l.
    + destruct (IH acc comb Hnd Hin) as [H1 H2]. split; [exact H1 | ].
      intros x Hx. apply H2 in Hx as [Hx | (l' & Hl' & Hrest)]; [now left | right].
      exists l'. split; [now right | exact Hrest].
Qed.

(** X4: the lines of a merged text are the user's lines that are not
    blank, unchanged and in their order, followed by added lines; an added
    line is a stripped, non-empty line of the auto-detected part, no two
    added lines are equal up to letter case, and none is equal up to
    letter case to the stripped form of a user line that is not a comment. *)
Theorem X4_merge_requirements_lines user_req auto_req m :
  _merge_requirements user_req auto_req = Some m →
  ∃ added,
    splitlines m
    = (filter (λ l, nonempty (strip l) = true) (splitlines (default "" user_req)) ++ added)%list
    ∧ NoDup (lower <$> added)
    ∧ (∀ x, x ∈ added → x ≠ "" ∧ ∃ l, l ∈ splitlines auto_req ∧ x = strip l)
    ∧ (∀ x l, x ∈ added → l ∈ splitlines (default "" user_req) →
              is_comment l = false → lower (strip l) ≠ lower x).
Proof.
  unfold _merge_requirements.
  set (user := default "" user_req).
  set (combined := fold_left add_user_line (splitlines user) ∅).
  set (auto_lines := fst (fold_left add_auto_line (splitlines auto_req) ([], combined))).
  set (kept := filter _ (splitlines user)).
  intros Hm. exists auto_lines.
  destruct (fold_auto_inv (splitlines auto_req) [] combined) as [Hnd Hfrom].
  { constructor. } { intros x Hx. now apply elem_of_nil in Hx. }
  cbn zeta in Hnd, Hfrom. fold auto_lines in Hnd, Hfrom.
  assert (Hadd : ∀ x, x ∈ auto_lines →
            ∃ l, l ∈ splitlines auto_req ∧ x = strip l ∧ x ≠ "" ∧ lower x ∉ combined).
  { intros x Hx. apply Hfrom in Hx as [Hx | Hx]; [now apply elem_of_nil in Hx | exact Hx]. }
  split; [ | split; [exact Hnd | split]].
  - assert (Hall : Forall (λ l, one_line l = true ∧ l ≠ "") (kept ++ auto_lines)).
    { apply Forall_app. split; apply Forall_forall; intros l Hl.
      - apply list_elem_of_filter in Hl as [Hb Hl]. split.
        + pose proof (splitlines_one_line user) as H. rewrite Forall_forall in H. now apply H.
        + intros ->. discriminate.
      - apply Hadd in Hl as (l' & Hl' & -> & Hne & _). split; [ | exact Hne].
        apply one_line_strip.
        pose proof (splitlines_one_line auto_req) as H. rewrite Forall_forall in H.
        now apply H. }
    destruct (kept ++ auto_lines)%list as [|x xs] eqn:E; [discriminate|].
    replace m with (join NL (x :: xs)) by congruence. now apply splitlines_join.
  - intros x Hx. apply Hadd in Hx as (l & Hl & Hs & Hne & _). eauto.
  - intros x l Hx Hl Hc Heq. apply Hadd in Hx as (l' & Hl' & Hs & Hne & Hnew).
    destruct (nonempty (strip l)) eqn:Hb.
    + apply Hnew. rewrite <- Heq. now apply fold_user_covers.
    + apply nonempty_false in Hb. rewrite Hb in Heq. cbn in Heq.
      symmetry in Heq. now apply (lower_nonempty x Hne).
Qed.

(** The theorem at a pinned Flask and an inferred flask and PyYAML. *)
Lemma X4_witness :
  ∃ added,
    splitlines ("Flask==2.0" ++ NL ++ "PyYAML")
    = (filter (λ l, nonempty (strip l) = true) (splitlines (default "" (Some "Flask==2.0")))
       ++ added)%list
    ∧ NoDup (lower <$> added)
    ∧ (∀ x, x ∈ added → x ≠ "" ∧ ∃ l, l ∈ splitlines ("flask==2.0" ++ NL ++ "PyYAML") ∧ x = strip l)
    ∧ (∀ x l, x ∈ added → l ∈ splitlines (default "" (Some "Flask==2.0")) →
              is_comment l = false → lower (strip l) ≠ lower x).
Proof.
  apply (X4_merge_requirements_lines (Some "Flask==2.0") ("flask==2.0" ++ NL ++ "PyYAML")).
  vm_compute. reflexivity.
Defined.

(* ===================================================================== *)
(** * Repairs of the test code *)
(* ===================================================================== *)

(** ** Split and join on "\n" *)

Lemma split_acc_nonempty sep s acc : split_acc sep s acc ≠ [].
Proof.
  revert acc. induction s as [|c s IH]; intros acc; cbn [split_acc]; [discriminate|].
  destruct (Ascii.eqb c sep); [discriminate | apply IH].
Qed.

Lemma rev_app_append a : ∀ b s, String.rev_app a b ++ s = String.rev_app a (b ++ s).
Proof.
  induction a as [|c a IH]; intros b s; [reflexivity|].
  cbn [String.rev_app]. now rewrite IH.
Qed.

Lemma join_split_acc s : ∀ acc, join NL (split_acc LF s acc) = String.rev acc ++ s.
Proof.
  induction s as [|c s IH]; intros acc; cbn [split_acc].
  - cbn. now rewrite append_empty_r.
  - destruct (Ascii.eqb_spec c LF) as [-> | Hc].
    + pose proof (split_acc_nonempty LF s "") as Hne. specialize (IH "").
      destruct (split_acc LF s "") as [|l L]; [congruence|].
      rewrite join_cons, IH. reflexivity.
    + rewrite IH. unfold String.rev. cbn [String.rev_app]. now rewrite !rev_app_append.
Qed.

(** Splitting at "\n" and joining with "\n" gives the text back. *)
Lemma join_split s : join NL (split LF s) = s.
Proof. unfold split. now rewrite join_split_acc. Qed.

(** ** _fix_multiline_with_statements *)

Lemma fix_with_go_unchanged lines :
  (∀ l, l ∈ lines → needs_continuation (rstrip l) = false) →
  fix_with_go 0 lines = lines.
Proof.
  induction lines as [|l lines IH]; intros H; [reflexivity|].
  cbn [fix_with_go]. rewrite (H l) by left. cbn [andb].
  rewrite IH; [reflexivity | ]. intros l' Hl'. apply H. now right.
Qed.

(** X5: a code in which no line ends with a comma (white space at the
    end of the line aside) is returned unchanged by
    [_fix_multiline_with_statements]. *)
Theorem X5_fix_multiline_with_unchanged code :
  (∀ l, l ∈ split LF code → endswith "," (rstrip l) = false) →
  _fix_multiline_with_statements code = code.
Proof.
  intros H. unfold _fix_multiline_with_statements.
  rewrite fix_with_go_unchanged; [apply join_split | ].
  intros l Hl. unfold needs_continuation. rewrite (H l Hl).
  now rewrite andb_false_r.
Qed.

(** The theorem at a [with] statement on one line. *)
Lemma X5_witness :
  _fix_multiline_with_statements
    ("with open(path) as f:" ++ NL ++ "    data = f.read()" ++ NL)
  = "with open(path) as f:" ++ NL ++ "    data = f.read()" ++ NL.
Proof.
  apply X5_fix_multiline_with_unchanged. intros l Hl. vm_compute in Hl.
  repeat (apply elem_of_cons in Hl as [-> | Hl]; [vm_compute; reflexivity | ]).
  now apply elem_of_nil in Hl.
Defined.

Lemma collect_block_length rest : (length (collect_block rest) <= length rest)%nat.
Proof.
  induction rest as [|l rest IH]; [reflexivity|]. cbn [collect_block].
  destruct (negb _); [cbn; lia|]. destruct (_ || _); cbn [length]; lia.
Qed.

Lemma fix_with_go_length lines :
  ∀ skip, length (fix_with_go skip lines) = (length lines - skip)%nat.
Proof.
  induction lines as [|l lines IH]; intros skip; [now destruct skip|].
  cbn [fix_with_go]. destruct skip as [|n]; [ | now rewrite IH].
  pose proof (collect_block_length lines) as Hc.
  destruct (_ && _ && _).
  - rewrite length_app, length_fmap, removelast_firstn_len. cbn [length].
    rewrite IH, length_take. cbn [Init.Nat.pred length]. lia.
  - cbn [length]. rewrite IH. lia.
Qed.

(** ** Line feeds *)

Lemma count_char_append x a b :
  count_char x (a ++ b) = (count_char x a + count_char x b)%nat.
Proof.
  induction a as [|c a IH]; [reflexivity|].
  rewrite append_cons. cbn [count_char]. rewrite IH. lia.
Qed.

Lemma count_char_rev_app x a : ∀ b,
  count_char x (String.rev_app a b) = (count_char x a + count_char x b)%nat.
Proof.
  induction a as [|c a IH]; intros b; [reflexivity|].
  cbn [String.rev_app count_char]. rewrite IH. cbn [count_char]. lia.
Qed.

Lemma split_acc_free s : ∀ acc,
  count_char LF acc = 0%nat →
  Forall (λ l, count_char LF l = 0%nat) (split_acc LF s acc).
Proof.
  induction s as [|c s IH]; intros acc Hacc; cbn [split_acc].
  - constructor; [ | constructor]. unfold String.rev. rewrite count_char_rev_app.
    cbn. lia.
  - destruct (Ascii.eqb c LF) eqn:Hc.
    + constructor; [ | now apply IH].
      unfold String.rev. rewrite count_char_rev_app. cbn. lia.
    + apply IH. cbn [count_char]. now rewrite Hc.
Qed.

Lemma count_char_join L :
  Forall (λ l, count_char LF l = 0%nat) L →
  count_char LF (join NL L) = (length L - 1)%nat.
Proof.
  induction 1 as [|l L Hl HL IH]; [reflexivity|].
  destruct L as [|l' L]; [cbn; exact Hl|].
  rewrite join_cons, !count_char_append, IH, Hl.
  change (count_char LF NL) with 1%nat. cbn [length]. lia.
Qed.

Lemma rstrip_free x s : count_char x s = 0%nat → count_char x (rstrip s) = 0%nat.
Proof.
  induction s as [|c s IH]; [reflexivity|]. cbn [count_char rstrip]. intros H.
  assert (Hc : (if Ascii.eqb c x then 1 else 0)%nat = 0%nat) by lia.
  assert (Hs : count_char x s = 0%nat) by lia. specialize (IH Hs).
  destruct (rstrip s) as [|d r].
  - destruct (is_space c); [reflexivity | ]. cbn [count_char]. rewrite Hc. reflexivity.
  - cbn [count_char] in IH |- *. rewrite Hc. exact IH.
Qed.

Lemma collect_block_free rest :
  Forall (λ l, count_char LF l = 0%nat) rest →
  Forall (λ l, count_char LF l = 0%nat) (collect_block rest).
Proof.
  induction 1 as [|l rest Hl _ IH]; [constructor|]. cbn [collect_block].
  destruct (negb _); [constructor|].
  destruct (_ || _); (constructor; [now apply rstrip_free | ]); [constructor | exact IH].
Qed.

Lemma fix_with_go_free lines :
  Forall (λ l, count_char LF l = 0%nat) lines →
  ∀ skip, Forall (λ l, count_char LF l = 0%nat) (fix_with_go skip lines).
Proof.
  induction 1 as [|l lines Hl Hlines IH]; intros skip; [now destruct skip|].
  cbn [fix_with_go]. destruct skip as [|n]; [ | apply IH].
  set (block := rstrip l :: collect_block lines).
  assert (Hb : Forall (λ l, count_char LF l = 0%nat) block).
  { constructor; [now apply rstrip_free | now apply collect_block_free]. }
  destruct (_ && _ && _); [ | constructor; [exact Hl | apply IH]].
  rewrite (app_removelast_last "" (l := block)) in Hb by discriminate.
  apply Forall_app in Hb as [Hb1 Hb2]. apply Forall_app. split.
  - apply Forall_fmap. eapply Forall_impl; [exact Hb1 | ].
    intros b Hb. cbn. rewrite count_char_append, Hb. reflexivity.
  - constructor; [ | apply IH]. now apply Forall_inv in Hb2.
Qed.

(** X6: [_fix_multiline_with_statements] neither adds nor removes a
    line: its result holds as many line feeds as the code. *)
Theorem X6_fix_multiline_with_keeps_lines code :
  count_char LF (_fix_multiline_with_statements code) = count_char LF code.
Proof.
  assert (Hs : Forall (λ l, count_char LF l = 0%nat) (split LF code))
    by now apply split_acc_free.
  unfold _fix_multiline_with_statements.
  rewrite count_char_join by now apply fix_with_go_free.
  rewrite fix_with_go_length. rewrite <- (join_split code) at 2.
  rewrite count_char_join by exact Hs. lia.
Qed.

(** ** Lines of a text whose last line is not empty *)

Lemma lines_from_NL : lines_from NL = ("", []).
Proof. reflexivity. Qed.

Lemma lines_from_join_last l L :
  Forall (λ x, one_line x = true) (l :: L) →
  last (l :: L) ≠ Some "" →
  lines_from (join NL (l :: L)) = (l, L).
Proof.
  revert l. induction L as [|l' L IH]; intros l HL Hlast.
  - apply Forall_inv in HL. change (join NL [l]) with l.
    rewrite <- (append_empty_r l) at 1.
    rewrite lines_from_one_line by assumption. cbn. now rewrite append_empty_r.
  - pose proof (Forall_inv HL) as Hl. apply Forall_inv_tail in HL.
    rewrite last_cons_cons in Hlast.
    rewrite join_cons. rewrite lines_from_one_line by assumption.
    change (NL ++ join NL (l' :: L)) with (String LF (join NL (l' :: L))).
    assert (Hne : join NL (l' :: L) ≠ "").
    { destruct L as [|l'' L].
      - cbn in Hlast |- *. congruence.
      - rewrite join_cons. destruct l'; discriminate. }
    rewrite lines_from_LF by exact Hne.
    rewrite (IH l' HL Hlast). cbn. now rewrite append_empty_r.
Qed.

Lemma lines_from_join_NL l L :
  Forall (λ x, one_line x = true) (l :: L) →
  lines_from (join NL (l :: L) ++ NL) = (l, L).
Proof.
  revert l. induction L as [|l' L IH]; intros l HL.
  - apply Forall_inv in HL. change (join NL [l]) with l.
    rewrite lines_from_one_line by assumption. rewrite lines_from_NL. cbn.
    now rewrite append_empty_r.
  - pose proof (Forall_inv HL) as Hl. apply Forall_inv_tail in HL.
    rewrite join_cons, !append_assoc. rewrite lines_from_one_line by assumption.
    change (NL ++ join NL (l' :: L) ++ NL) with (String LF (join NL (l' :: L) ++ NL)).
    rewrite lines_from_LF.
    + rewrite (IH l' HL). cbn. now rewrite append_empty_r.
    + destruct (join NL (l' :: L)); discriminate.
Qed.

Lemma splitlines_join_last L :
  Forall (λ x, one_line x = true) L → last L ≠ Some "" →
  splitlines (join NL L) = L.
Proof.
  intros HL Hlast. destruct L as [|l L]; [reflexivity|].
  unfold splitlines. rewrite lines_from_join_last by assumption.
  destruct (join NL (l :: L)) eqn:E; [ | reflexivity].
  exfalso. destruct L as [|l' L].
  - cbn in E, Hlast. congruence.
  - rewrite join_cons in E. destruct l; discriminate.
Qed.

Lemma splitlines_join_NL L :
  Forall (λ x, one_line x = true) L → L ≠ [] →
  splitlines (join NL L ++ NL) = L.
Proof.
  intros HL Hne. destruct L as [|l L]; [congruence|].
  unfold splitlines. rewrite lines_from_join_NL by assumption.
  destruct (join NL (l :: L) ++ NL) eqn:E; [ | reflexivity].
  exfalso. destruct (join NL (l :: L)); discriminate.
Qed.

(** ** The last line of a text that does not end with a line feed *)

Lemma endswith_NL_cons c d r :
  endswith NL (String c (String d r)) = endswith NL (String d r).
Proof.
  unfold endswith. cbn [String.length NL]. 
  replace (S (S (String.length r)) - 1)%nat with (S (String.length r)) by lia.
  replace (S (String.length r) - 1)%nat with (String.length r) by lia.
  reflexivity.
Qed.

Lemma last_line_nonempty s :
  lf_only s = true → s ≠ "" → endswith NL s = false →
  last (fst (lines_from s) :: snd (lines_from s)) ≠ Some "".
Proof.
  induction s as [|c s IH]; intros Hlf Hne Hend; [congruence|].
  unfold lf_only in Hlf. cbn [all_chars] in Hlf. apply andb_true_iff in Hlf as [Hc Hlf].
  destruct s as [|d r].
  - (* one character, not a line feed *)
    cbn [lines_from]. destruct (is_linebreak c) eqn:Hb.
    + cbn [negb orb] in Hc. apply Ascii.eqb_eq in Hc. subst c. discriminate.
    + cbn. discriminate.
  - rewrite endswith_NL_cons in Hend. specialize (IH Hlf ltac:(discriminate) Hend).
    cbn [lines_from]. cbn [lines_from] in IH.
    destruct (let '(cur, rest) := lines_from r in _) as [cur rest] eqn:E.
    cbn [fst snd] in IH.
    destruct (is_linebreak c) eqn:Hb.
    + cbn [negb orb] in Hc. apply Ascii.eqb_eq in Hc. subst c.
      change (Ascii.eqb LF CR) with false. cbn [andb fst snd].
      now rewrite last_cons_cons.
    + cbn [fst snd]. destruct rest as [|x rest].
      * cbn. discriminate.
      * rewrite last_cons_cons. now rewrite last_cons_cons in IH.
Qed.

(** ** _insert_import_after_import_block *)

(** X7: on a code whose only line boundary is the line feed,
    [_insert_import_after_import_block] adds the statement as one line and
    keeps every line of the code, in order: the lines of the result are the
    lines of the code with the statement inserted at some position. *)
Theorem X7_insert_import_keeps_lines code import_stmt :
  lf_only code = true → one_line import_stmt = true → import_stmt ≠ "" →
  ∃ k, (k <= length (splitlines code))%nat
       ∧ splitlines (_insert_import_after_import_block code import_stmt)
         = (take k (splitlines code) ++ import_stmt :: drop k (splitlines code))%list.
Proof.
  intros Hlf Hs Hne. unfold _insert_import_after_import_block. cbv zeta.
  match goal with
  | |- context [join NL (take ?k ?L ++ _ :: drop ?k ?L)] => set (i := k)
  end.
  set (L := splitlines code).
  exists (i `min` length L)%nat. split; [lia | ].
  assert (Et : take (i `min` length L) L = take i L).
  { destruct (Nat.le_ge_cases i (length L)) as [H | H].
    - now rewrite Nat.min_l.
    - rewrite Nat.min_r by exact H. now rewrite !take_ge by lia. }
  assert (Ed : drop (i `min` length L) L = drop i L).
  { destruct (Nat.le_ge_cases i (length L)) as [H | H].
    - now rewrite Nat.min_l.
    - rewrite Nat.min_r by exact H. now rewrite !drop_ge by lia. }
  rewrite Et, Ed.
  set (L' := (take i L ++ import_stmt :: drop i L)%list).
  assert (HL : Forall (λ x, one_line x = true) L).
  { apply splitlines_one_line. }
  assert (HL' : Forall (λ x, one_line x = true) L').
  { apply Forall_app. split; [now apply Forall_take | ].
    constructor; [exact Hs | now apply Forall_drop]. }
  destruct (endswith NL code) eqn:Hend.
  - apply splitlines_join_NL; [exact HL' | ]. unfold L'. now destruct (take i L).
  - rewrite append_empty_r. apply splitlines_join_last; [exact HL' | ].
    unfold L'. rewrite last_app_cons.
    destruct (drop i L) as [|x xs] eqn:Edrop; [cbn; congruence | ].
    rewrite last_cons_cons, <- Edrop.
    assert (Hlast : last L ≠ Some "").
    { unfold L, splitlines. destruct code as [|c s] eqn:Ec; [discriminate | ].
      pose proof (last_line_nonempty (String c s) Hlf ltac:(discriminate) Hend) as H.
      now destruct (lines_from (String c s)). }
    rewrite <- (take_drop i L) in Hlast. rewrite last_app in Hlast.
    destruct (last (drop i L)) eqn:El; [exact Hlast | ].
    rewrite Edrop in El. now rewrite last_cons in El; destruct (last xs).
Qed.

(** The theorem at a test that starts with [import pytest]. *)
Lemma X7_witness :
  ∃ k, (k <= length (splitlines ("import pytest" ++ NL ++ "def test_add():" ++ NL
                                  ++ "    assert add(1, 2) == 3" ++ NL)))%nat
       ∧ splitlines (_insert_import_after_import_block
                       ("import pytest" ++ NL ++ "def test_add():" ++ NL
                        ++ "    assert add(1, 2) == 3" ++ NL)
                       "from source import add")
         = (take k (splitlines ("import pytest" ++ NL ++ "def test_add():" ++ NL
                                ++ "    assert add(1, 2) == 3" ++ NL))
            ++ "from source import add"
               :: drop k (splitlines ("import pytest" ++ NL ++ "def test_add():" ++ NL
                                      ++ "    assert add(1, 2) == 3" ++ NL)))%list.
Proof.
  apply X7_insert_import_keeps_lines; [reflexivity | reflexivity | discriminate].
Defined.

(* ===================================================================== *)
(** * More on the matcher *)
(* ===================================================================== *)

(** ** General facts about the matcher *)

Lemma search_from_found r s :
  ∀ prev m, search_from r prev s = Some m →
    ∃ pre prev', s = pre ++ mo_src m ∧ match_here r prev' (mo_src m) = Some m.
Proof.
  induction s as [|c rest IH]; intros prev m; cbn [search_from].
  - destruct (match_here r prev "") as [m0|] eqn:E; [ | discriminate].
    intros [= ->]. exists "", prev. rewrite (match_here_src _ _ _ _ E). now split.
  - destruct (match_here r prev (String c rest)) as [m0|] eqn:E.
    + intros [= ->]. exists "", prev. rewrite (match_here_src _ _ _ _ E). now split.
    + intros H. apply IH in H as (pre & prev' & Hs & Hm).
      exists (String c pre), prev'. split; [now rewrite append_cons, <- Hs | exact Hm].
Qed.

Lemma search_from_at r pre t :
  (∀ p, is_Some (match_here r p t)) →
  ∀ prev, is_Some (search_from r prev (pre ++ t)).
Proof.
  intros Ht. induction pre as [|c pre IH]; intros prev.
  - rewrite append_nil. destruct t; cbn [search_from];
      destruct (Ht prev) as [m ->]; eauto.
  - rewrite append_cons. cbn [search_from].
    destruct (match_here r prev _); [eauto | apply IH].
Qed.

Lemma matches_at r pre t :
  (∀ p, is_Some (match_here r p t)) → matches r (pre ++ t) = true.
Proof.
  intros H. unfold matches, search. apply bool_decide_eq_true. now apply search_from_at.
Qed.

Lemma matches_at_start r t :
  is_Some (match_here r None t) → matches r t = true.
Proof.
  intros [m H]. unfold matches, search. apply bool_decide_eq_true.
  destruct t; cbn [search_from]; rewrite H; eauto.
Qed.

(** A literal passes over itself. *)
Lemma lit_run s :
  ∀ (k : cont) prev rest pos gs,
    ∃ prev', run (Lit s) k (MState prev (s ++ rest) pos gs)
             = k (MState prev' rest (pos + String.length s) gs).
Proof.
  induction s as [|c s IH]; intros k prev rest pos gs.
  - exists prev. cbn [Lit run String.length]. now rewrite Nat.add_0_r.
  - destruct s as [|d s].
    + exists (Some c). cbn [Lit]. rewrite append_cons, append_nil.
      cbn [run m_rest m_pos m_groups]. unfold is_char. rewrite Ascii.eqb_refl.
      cbn [String.length]. do 2 f_equal. lia.
    + change (Lit (String c (String d s))) with (Seq (Chr (is_char c)) (Lit (String d s))).
      rewrite append_cons. cbn [run m_rest m_pos m_groups].
      unfold is_char at 1. rewrite Ascii.eqb_refl.
      destruct (IH k (Some c) rest (S pos) gs) as [prev' ->]. exists prev'.
      cbn [String.length]. do 2 f_equal. lia.
Qed.

Lemma star_loop_stop step greedy (k : cont) fuel st :
  is_Some (k st) → is_Some (star_loop step greedy k fuel st).
Proof.
  intros [x Hk]. destruct fuel as [|fuel]; cbn [star_loop]; [eauto|].
  destruct greedy.
  - destruct (step _ st); eauto.
  - rewrite Hk. eauto.
Qed.

(** A text of which [sub] is a part. *)
Lemma prefix_inv a s : String.prefix a s = true → ∃ post, s = a ++ post.
Proof.
  revert s. induction a as [|c a IH]; intros s H; [now exists s|].
  destruct s as [|d s]; [discriminate|]. cbn [String.prefix] in H.
  destruct (ascii_dec c d) as [-> | ]; [ | discriminate].
  apply IH in H as [post ->]. now exists post.
Qed.

Lemma find_from_found sub s :
  ∀ i, find_from sub s i ≠ (-1)%Z →
    ∃ pre post, s = pre ++ sub ++ post
                ∧ find_from sub s i = Z.of_nat (i + String.length pre).
Proof.
  induction s as [|c s IH]; intros i; cbn [find_from].
  - destruct (String.prefix sub "") eqn:E; [ | congruence]. intros _.
    apply prefix_inv in E as [post E]. exists "", post. split; [exact E | ].
    cbn. now rewrite Nat.add_0_r.
  - destruct (String.prefix sub (String c s)) eqn:E.
    + intros _. apply prefix_inv in E as [post E]. exists "", post. split; [exact E | ].
      cbn. now rewrite Nat.add_0_r.
    + intros H. apply IH in H as (pre & post & Hs & Hf).
      exists (String c pre), post. split; [now rewrite append_cons, <- Hs | ].
      rewrite Hf. cbn [String.length]. f_equal. lia.
Qed.

Lemma contains_found sub s :
  contains sub s = true → ∃ pre post, s = pre ++ sub ++ post.
Proof.
  unfold contains, find. intros H. apply negb_true_iff, Z.eqb_neq in H.
  apply find_from_found in H as (pre & post & Hs & _). eauto.
Qed.

Lemma replace_first_found old new s :
  contains old s = true →
  ∃ pre post, s = pre ++ old ++ post ∧ replace_first old new s = pre ++ new ++ post.
Proof.
  unfold contains, find. intros H. apply negb_true_iff, Z.eqb_neq in H.
  revert H. generalize 0%nat.
  induction s as [|c s IH]; intros i; cbn [find_from replace_first].
  - destruct (String.prefix old "") eqn:E; [ | congruence]. intros _.
    apply prefix_inv in E as [post E]. exists "", post. split; [exact E | ].
    rewrite !append_nil. f_equal. rewrite E at 1. now rewrite sdrop_append.
  - destruct (String.prefix old (String c s)) eqn:E.
    + intros _. apply prefix_inv in E as [post E]. exists "", post. split; [exact E | ].
      rewrite !append_nil. f_equal. rewrite E. now rewrite sdrop_append.
    + intros H. apply IH in H as (pre & post & Hs & Hr).
      exists (String c pre), post. split; [now rewrite append_cons, <- Hs | ].
      now rewrite Hr, append_cons.
Qed.

(** ** Positions of a match *)

Lemma star_loop_reaches_pos (step : cont → cont) greedy :
  (∀ k st res, step k st = Some res →
     ∃ st', k st' = Some res
            ∧ ∃ pre, m_rest st = pre ++ m_rest st'
                     ∧ m_pos st' = (m_pos st + String.length pre)%nat) →
  ∀ fuel k st res, star_loop step greedy k fuel st = Some res →
    ∃ st', k st' = Some res
           ∧ ∃ pre, m_rest st = pre ++ m_rest st'
                    ∧ m_pos st' = (m_pos st + String.length pre)%nat.
Proof.
  intros Hstep. induction fuel as [|fuel IH]; intros k st res; cbn [star_loop].
  - intros H. exists st. split; [exact H | exists ""]. cbn. split; [reflexivity | lia].
  - set (K := fun st1 => if (m_pos st <? m_pos st1)%nat
                         then star_loop step greedy k fuel st1 else None).
    assert (Hagain : step K st = Some res →
              ∃ st', k st' = Some res
                     ∧ ∃ pre, m_rest st = pre ++ m_rest st'
                              ∧ m_pos st' = (m_pos st + String.length pre)%nat).
    { intros H. apply Hstep in H as (st1 & H1 & pre1 & E1 & P1). unfold K in H1.
      destruct (_ <? _)%nat; [ | discriminate].
      apply IH in H1 as (st' & H' & pre2 & E2 & P2). exists st'. split; [exact H' | ].
      exists (pre1 ++ pre2). rewrite E1, E2, append_assoc, length_append.
      split; [reflexivity | lia]. }
    assert (Hstop : k st = Some res →
              ∃ st', k st' = Some res
                     ∧ ∃ pre, m_rest st = pre ++ m_rest st'
                              ∧ m_pos st' = (m_pos st + String.length pre)%nat).
    { intros H. exists st. split; [exact H | exists ""]. cbn. split; [reflexivity | lia]. }
    destruct greedy.
    + destruct (step K st) as [x|] eqn:E; [intros [= ->]; now apply Hagain | exact Hstop].
    + destruct (k st) as [x|] eqn:E; [intros [= ->]; now apply Hstop | exact Hagain].
Qed.

(** When a pattern matches, the rest of the match went on from a later
    position of the same text, as many characters further as were read. *)
Lemma run_reaches_pos r :
  ∀ k st res, run r k st = Some res →
    ∃ st', k st' = Some res
           ∧ ∃ pre, m_rest st = pre ++ m_rest st'
                    ∧ m_pos st' = (m_pos st + String.length pre)%nat.
Proof.
  assert (Hhere : ∀ (k : cont) st res, k st = Some res →
            ∃ st', k st' = Some res
                   ∧ ∃ pre, m_rest st = pre ++ m_rest st'
                            ∧ m_pos st' = (m_pos st + String.length pre)%nat).
  { intros k st res H. exists st. split; [exact H | exists ""]. cbn.
    split; [reflexivity | lia]. }
  induction r as [ | p | a IHa b IHb | a IHa b IHb | g a IHa | i a IHa | | | | | p | p];
    intros k st res; cbn [run].
  - apply Hhere.
  - destruct (m_rest st) as [|c rest] eqn:E; [discriminate|].
    destruct (p c); [ | discriminate]. intros H.
    eexists. split; [exact H | ]. exists (String c ""). cbn. split; [reflexivity | lia].
  - intros H. apply IHa in H as (st1 & H1 & pre1 & E1 & P1).
    apply IHb in H1 as (st2 & H2 & pre2 & E2 & P2).
    exists st2. split; [exact H2 | ]. exists (pre1 ++ pre2).
    rewrite E1, E2, append_assoc, length_append. split; [reflexivity | lia].
  - destruct (run a k st) as [x|] eqn:E; [intros [= ->]; now apply IHa | apply IHb].
  - apply star_loop_reaches_pos, IHa.
  - intros H. apply IHa in H as (st1 & H1 & pre1 & E1 & P1).
    eexists. split; [exact H1 | ]. exists pre1. cbn. now split.
  - intros H. apply Hhere.
    destruct (m_prev st) as [c|]; [destruct (is_LF c); [ | discriminate] | ]; exact H.
  - intros H. apply Hhere.
    destruct (m_rest st) as [|c [|d rest]]; [exact H | | discriminate].
    destruct (is_LF c); [exact H | discriminate].
  - intros H. apply Hhere.
    destruct (m_rest st) as [|c rest]; [exact H | ].
    destruct (is_LF c); [exact H | discriminate].
  - intros H. apply Hhere. destruct (xorb _ _); [exact H | discriminate].
  - intros H. apply Hhere. destruct (prev_is p _); [discriminate | exact H].
  - intros H. apply Hhere. destruct (head_is p _); [discriminate | exact H].
Qed.


(** ** Literals under re.IGNORECASE *)

Lemma upper_lower_char c : upper_char (lower_char c) = upper_char c.
Proof. destruct c as [[] [] [] [] [] [] [] []]; reflexivity. Qed.

Lemma is_ascii_append a b : is_ascii (a ++ b) = is_ascii a && is_ascii b.
Proof.
  induction a as [|c a IH]; [reflexivity|].
  rewrite append_cons. unfold is_ascii in *. cbn [all_chars]. now rewrite IH, andb_assoc.
Qed.

Lemma ascii_not_byte c n :
  (code c <? 128)%nat = true → (128 <=? n)%nat = true → (n <? 256)%nat = true →
  Ascii.eqb c (byte n) = false.
Proof.
  intros Hc Hn Hm. destruct (Ascii.eqb_spec c (byte n)) as [-> | ]; [ | reflexivity].
  unfold code, byte in Hc. rewrite nat_ascii_embedding in Hc.
  - apply Nat.ltb_lt in Hc. apply Nat.leb_le in Hn. lia.
  - now apply Nat.ltb_lt.
Qed.

Lemma upper_cons2 c d r :
  upper (String c (String d r))
  = if Ascii.eqb c (byte 196) && Ascii.eqb d (byte 177) then String "I" (upper r)
    else if Ascii.eqb c (byte 197) && Ascii.eqb d (byte 191) then String "S" (upper r)
    else String (upper_char c) (upper (String d r)).
Proof. reflexivity. Qed.

(** On a text of ASCII characters [upper] works character by character. *)
Lemma upper_ascii s : is_ascii s = true → upper s = smap upper_char s.
Proof.
  induction s as [|c s IH]; [reflexivity|]. intros H.
  unfold is_ascii in H. cbn [all_chars] in H. apply andb_true_iff in H as [Hc Hs].
  specialize (IH Hs). destruct s as [|d s]; [reflexivity|].
  rewrite upper_cons2, (ascii_not_byte c 196 Hc), (ascii_not_byte c 197 Hc) by reflexivity.
  cbn [andb smap]. f_equal. exact IH.
Qed.

Lemma fold_extra_not_ascii x e w : e ∈ fold_extra x → is_ascii (e ++ w) = false.
Proof.
  unfold fold_extra. intros H.
  repeat match type of H with
         | _ ∈ (if ?b then _ else _) => destruct b
         | _ ∈ _ :: _ => apply elem_of_cons in H as [-> | H]; [reflexivity | ]
         | _ ∈ [] => now apply elem_of_nil in H
         end.
Qed.

(** A text of ASCII characters that a literal reads under re.IGNORECASE
    is the literal up to the case of its letters. *)
Lemma folded_ascii s w :
  folded s w → is_ascii w = true →
  lower w = lower s ∧ smap upper_char w = smap upper_char s.
Proof.
  induction 1 as [ | c x s w Hx _ IH | c e s w He _ IH]; intros Ha.
  - now split.
  - unfold is_ascii in Ha. cbn [all_chars] in Ha. apply andb_true_iff in Ha as [_ Ha].
    destruct (IH Ha) as [Hl Hu]. unfold lower in *. cbn [smap]. split.
    + now rewrite Hx, Hl.
    + now rewrite <- (upper_lower_char x), Hx, upper_lower_char, Hu.
  - rewrite (fold_extra_not_ascii c e w He) in Ha. discriminate.
Qed.

Lemma chr_inv_pos p (k : cont) st res :
  run (Chr p) k st = Some res →
  ∃ c st', p c = true ∧ k st' = Some res ∧ m_rest st = String c (m_rest st')
           ∧ m_pos st' = S (m_pos st).
Proof.
  cbn [run]. destruct (m_rest st) as [|d rest]; [discriminate|].
  destruct (p d) eqn:E; [ | discriminate].
  intros H. exists d. eexists. split; [exact E | split; [exact H | ]]. cbn. auto.
Qed.

Lemma lit_inv_pos s :
  ∀ (k : cont) st res, run (Lit s) k st = Some res →
    ∃ st', k st' = Some res ∧ m_rest st = s ++ m_rest st'
           ∧ m_pos st' = (m_pos st + String.length s)%nat.
Proof.
  induction s as [|c s IH]; intros k st res.
  - cbn [Lit run]. intros H. exists st. cbn. repeat split; [exact H | lia].
  - assert (Hc : ∀ d, is_char c d = true → d = c).
    { intros d Hd. unfold is_char in Hd. now apply Ascii.eqb_eq in Hd. }
    destruct s as [|d s].
    + cbn [Lit]. intros H. apply chr_inv_pos in H as (x & st' & Hx & H & E & P).
      apply Hc in Hx as ->. exists st'. cbn. repeat split; [exact H | exact E | lia].
    + change (Lit (String c (String d s))) with (Seq (Chr (is_char c)) (Lit (String d s))).
      cbn [run]. intros H. apply chr_inv_pos in H as (x & st1 & Hx & H1 & E1 & P1).
      apply Hc in Hx as ->. apply IH in H1 as (st2 & H2 & E2 & P2). exists st2.
      split; [exact H2 | ]. rewrite E1, E2, P2, P1. cbn [String.length].
      split; [reflexivity | lia].
Qed.

Lemma alts_lit_inv_pos words :
  ∀ (k : cont) st res, run (Alts (Lit <$> words)) k st = Some res →
    ∃ a st', a ∈ words ∧ k st' = Some res ∧ m_rest st = a ++ m_rest st'
             ∧ m_pos st' = (m_pos st + String.length a)%nat.
Proof.
  induction words as [|a words IH]; intros k st res.
  - cbn [fmap list_fmap Alts run]. destruct (m_rest st); discriminate.
  - destruct words as [|b words].
    + cbn [fmap list_fmap Alts]. intros H. apply lit_inv_pos in H as (st' & H & E & P).
      exists a, st'. repeat split; [left | exact H | exact E | exact P].
    + change (Alts (Lit <$> a :: b :: words))
        with (Alt (Lit a) (Alts (Lit <$> b :: words))).
      cbn [run]. destruct (run (Lit a) k st) as [x|] eqn:E.
      * intros [= ->]. apply lit_inv_pos in E as (st' & H & E & P).
        exists a, st'. repeat split; [left | exact H | exact E | exact P].
      * intros H. apply IH in H as (a' & st' & Ha & H & E' & P).
        exists a', st'. repeat split; [now right | exact H | exact E' | exact P].
Qed.

(** One character of a literal under re.IGNORECASE reads the character
    in either case, or one of the letters that fold to it. *)
Lemma chrI_inv x (k : cont) st res :
  run (ChrI x) k st = Some res →
  ∃ e st', k st' = Some res ∧ m_rest st = e ++ m_rest st'
           ∧ m_pos st' = (m_pos st + String.length e)%nat
           ∧ ((∃ c, e = String c "" ∧ lower_char c = lower_char x) ∨ e ∈ fold_extra x).
Proof.
  unfold ChrI.
  assert (Hchr : ∀ res', run (Chr (is_char_i x)) k st = Some res' →
            ∃ e st', k st' = Some res' ∧ m_rest st = e ++ m_rest st'
                     ∧ m_pos st' = (m_pos st + String.length e)%nat
                     ∧ ((∃ c, e = String c "" ∧ lower_char c = lower_char x)
                        ∨ e ∈ fold_extra x)).
  { intros res' H. apply chr_inv_pos in H as (c & st' & Hc & H & E & P).
    exists (String c ""), st'. split; [exact H | split; [exact E | split]].
    - cbn. lia.
    - left. exists c. split; [reflexivity | ].
      unfold is_char_i in Hc. now apply Ascii.eqb_eq in Hc. }
  destruct (fold_extra x) as [|e l] eqn:El.
  - cbn [fmap list_fmap Alts]. apply Hchr.
  - change (Alts (Chr (is_char_i x) :: (Lit <$> e :: l)))
      with (Alt (Chr (is_char_i x)) (Alts (Lit <$> e :: l))).
    change (run (Alt ?a ?b) k st)
      with (match run a k st with Some st' => Some st' | None => run b k st end).
    destruct (run (Chr (is_char_i x)) k st) as [y|] eqn:E.
    + intros [= ->]. now apply Hchr.
    + intros H. apply alts_lit_inv_pos in H as (a & st' & Ha & H & E' & P).
      exists a, st'. repeat split; [exact H | exact E' | exact P | now right].
Qed.

(** A literal under re.IGNORECASE reads a text that is the literal as
    [folded] has it. *)
Lemma litI_inv s :
  ∀ (k : cont) st res, run (LitI s) k st = Some res →
    ∃ w st', k st' = Some res ∧ m_rest st = w ++ m_rest st'
             ∧ folded s w ∧ m_pos st' = (m_pos st + String.length w)%nat.
Proof.
  assert (Hone : ∀ x e s w,
            (∃ c, e = String c "" ∧ lower_char c = lower_char x) ∨ e ∈ fold_extra x →
            folded s w → folded (String x s) (e ++ w)).
  { intros x e s' w [(c & -> & Hc) | He] Hw; [now apply folded_char | now apply folded_extra]. }
  induction s as [|c s IH]; intros k st res.
  - cbn [LitI run]. intros H. exists "", st. cbn.
    repeat split; [exact H | constructor | lia].
  - destruct s as [|d s].
    + cbn [LitI]. intros H. apply chrI_inv in H as (e & st' & H & E & P & He).
      exists e, st'. repeat split; [exact H | exact E | | exact P].
      rewrite <- (append_empty_r e). apply Hone; [exact He | constructor].
    + change (LitI (String c (String d s))) with (Seq (ChrI c) (LitI (String d s))).
      cbn [run]. intros H. apply chrI_inv in H as (e & st1 & H1 & E1 & P1 & He).
      apply IH in H1 as (w & st2 & H2 & E2 & Hw & P2). exists (e ++ w), st2.
      split; [exact H2 | ]. rewrite E1, E2, P2, P1, append_assoc, length_append.
      repeat split; [now apply Hone | lia].
Qed.

Lemma alts_litI_inv words :
  ∀ (k : cont) st res, run (Alts (LitI <$> words)) k st = Some res →
    ∃ a w st', a ∈ words ∧ k st' = Some res ∧ m_rest st = w ++ m_rest st'
               ∧ folded a w ∧ m_pos st' = (m_pos st + String.length w)%nat.
Proof.
  induction words as [|a words IH]; intros k st res.
  - cbn [fmap list_fmap Alts run]. destruct (m_rest st); discriminate.
  - destruct words as [|b words].
    + cbn [fmap list_fmap Alts]. intros H. apply litI_inv in H as (w & st' & H & E & Hw & P).
      exists a, w, st'. repeat split; [left | exact H | exact E | exact Hw | exact P].
    + change (Alts (LitI <$> a :: b :: words))
        with (Alt (LitI a) (Alts (LitI <$> b :: words))).
      cbn [run]. destruct (run (LitI a) k st) as [x|] eqn:E.
      * intros [= ->]. apply litI_inv in E as (w & st' & H & E & Hw & P).
        exists a, w, st'. repeat split; [left | exact H | exact E | exact Hw | exact P].
      * intros H. apply IH in H as (a' & w & st' & Ha & H & E' & Hw & P).
        exists a', w, st'. repeat split; [now right | exact H | exact E' | exact Hw | exact P].
Qed.

(* ===================================================================== *)
(** * The placeholder import rewriter, and the modules of the user *)
(* ===================================================================== *)

(** ** Text before the first match *)

Lemma sub_go_prefix_free r repl pre s :
  ∀ prev,
    (∀ pre1 c pre2, pre = pre1 ++ String c pre2 →
       match_here r (prev_after prev pre1) (String c pre2 ++ s) = None) →
    sub_go r repl 0 prev (pre ++ s) = pre ++ sub_go r repl 0 (prev_after prev pre) s.
Proof.
  induction pre as [|c pre IH]; intros prev H; [reflexivity|].
  rewrite !append_cons. cbn [sub_go].
  pose proof (H "" c pre eq_refl) as H0. cbn [prev_after] in H0.
  rewrite append_cons in H0. rewrite H0. f_equal. cbn [prev_after].
  apply IH. intros pre1 c' pre2 E. apply (H (String c pre1) c' pre2).
  now rewrite E.
Qed.

Lemma from_import_starts prev t m :
  match_here re_from_import prev t = Some m → ∃ x, t = "from" ++ x.
Proof.
  unfold match_here, re_from_import.
  destruct (run _ Some _) as [res|] eqn:E; [ | discriminate]. intros _.
  cbn [Seqs] in E.
  change (run (Seq ?a ?b) ?k ?st) with (run a (run b k) st) in E.
  apply lit_inv in E as (st' & _ & E). cbn [m_rest] in E. eauto.
Qed.

Lemma from_free_suffix pre pre1 c pre2 rest x :
  contains "from" pre = false → pre = pre1 ++ String c pre2 →
  String c pre2 ++ "from" ++ rest = "from" ++ x → False.
Proof.
  intros Hc Hp E. rewrite !append_cons in E. injection E as -> E.
  destruct pre2 as [|d pre2]; rewrite ?append_cons, ?append_nil in E; [discriminate|].
  injection E as -> E.
  destruct pre2 as [|e pre2]; rewrite ?append_cons, ?append_nil in E; [discriminate|].
  injection E as -> E.
  destruct pre2 as [|g pre2]; rewrite ?append_cons, ?append_nil in E; [discriminate|].
  injection E as -> E.
  rewrite Hp in Hc. change (String "f" (String "r" (String "o" (String "m" pre2))))
    with ("from" ++ pre2) in Hc.
  rewrite contains_inside in Hc. discriminate.
Qed.

Lemma safe_rewrite_free_prefix pre rest :
  contains "from" pre = false →
  _safe_rewrite_imports_to_source (pre ++ "from" ++ rest)
  = pre ++ _safe_rewrite_imports_to_source ("from" ++ rest).
Proof.
  intros Hc. unfold _safe_rewrite_imports_to_source, sub.
  rewrite sub_go_prefix_free.
  - now rewrite (sub_go_blind re_from_import _ 0 (prev_after None pre) None) by reflexivity.
  - intros pre1 c pre2 Hp.
    destruct (match_here re_from_import _ _) as [m|] eqn:E; [ | reflexivity].
    exfalso. apply from_import_starts in E as [x E].
    exact (from_free_suffix pre pre1 c pre2 rest x Hc Hp E).
Qed.

(** ** The import pattern of steps 0 and 3.7 *)

Lemma all_chars_append p a b : all_chars p (a ++ b) = all_chars p a && all_chars p b.
Proof.
  induction a as [|c a IH]; [reflexivity|].
  rewrite append_cons. cbn [all_chars]. now rewrite IH, andb_assoc.
Qed.

(** The text that a star over a character class reads is made of
    characters of the class. *)
Lemma star_chr_inv p greedy :
  ∀ fuel (k : cont) st res,
    star_loop (run (Chr p)) greedy k fuel st = Some res →
    ∃ xs st', all_chars p xs = true ∧ m_rest st = xs ++ m_rest st' ∧ k st' = Some res.
Proof.
  induction fuel as [|fuel IH]; intros k st res; cbn [star_loop].
  - intros H. now exists "", st.
  - set (K := fun st1 => if (m_pos st <? m_pos st1)%nat
                         then star_loop (run (Chr p)) greedy k fuel st1 else None).
    assert (Hagain : run (Chr p) K st = Some res →
              ∃ xs st', all_chars p xs = true ∧ m_rest st = xs ++ m_rest st'
                        ∧ k st' = Some res).
    { intros H. apply chr_inv_pos in H as (c & st1 & Hc & H1 & E1 & _). unfold K in H1.
      destruct (_ <? _)%nat; [ | discriminate].
      apply IH in H1 as (xs & st' & Hxs & E2 & H'). exists (String c xs), st'.
      cbn [all_chars]. rewrite Hc, Hxs, E1, E2. now repeat split. }
    assert (Hstop : k st = Some res →
              ∃ xs st', all_chars p xs = true ∧ m_rest st = xs ++ m_rest st'
                        ∧ k st' = Some res).
    { intros H. now exists "", st. }
    destruct greedy.
    + destruct (run (Chr p) K st) as [x|] eqn:E; [intros [= ->]; now apply Hagain | exact Hstop].
    + destruct (k st) as [x|] eqn:E; [intros [= ->]; now apply Hstop | exact Hagain].
Qed.

(** A match of the pattern of steps 0 and 3.7 begins at the start of a
    line and reads white space and then the word [from]. *)
Lemma from_module_inv u prev t m :
  match_here (re_from_module u) prev t = Some m →
  prev_is (fun c => negb (is_LF c)) prev = false
  ∧ ∃ a b, all_chars is_space a = true ∧ t = a ++ "from" ++ b.
Proof.
  unfold match_here, re_from_module.
  destruct (run _ Some _) as [res|] eqn:E; [ | discriminate]. intros _.
  cbn [Seqs] in E.
  change (run (Seq Bol ?r) Some ?st) with (run Bol (run r Some) st) in E.
  set (k := run _ Some) in E.
  assert (E' : prev_is (fun c => negb (is_LF c)) prev = false
               ∧ k (MState prev t 0 []) = Some res).
  { cbn [run m_prev] in E. destruct prev as [c|]; [ | now split].
    cbn [prev_is]. destruct (is_LF c); [now split | discriminate]. }
  destruct E' as [Hp E']. split; [exact Hp | ]. unfold k in E'.
  change (run (Seq ?a ?b) ?k ?st) with (run a (run b k) st) in E'.
  unfold Many in E'. cbn [run] in E'.
  apply star_chr_inv in E' as (a & st' & Ha & Ea & E').
  change (run (Seq ?a ?b) ?k ?st) with (run a (run b k) st) in E'.
  apply lit_inv in E' as (st'' & _ & Eb). cbn [m_rest] in Ea.
  exists a, (m_rest st''). split; [exact Ha | now rewrite Ea, Eb].
Qed.

Lemma contains_suffix sub a b : contains sub (a ++ b) = false → contains sub b = false.
Proof.
  intros H. destruct (contains sub b) eqn:E; [ | reflexivity].
  apply contains_found in E as (pre & post & ->).
  rewrite <- append_assoc, contains_inside in H. discriminate.
Qed.

(** In lines that hold no [from] and end with a character that is not
    white space, no white space followed by [from] begins. *)
Lemma no_stmt_in_lines c rest b :
  is_space c = false →
  ∀ a q, all_chars is_space a = true →
    contains "from" (q ++ String c NL) = false →
    q ++ String c (NL ++ rest) = a ++ "from" ++ b → False.
Proof.
  intros Hc. induction a as [|x a IH]; intros q Ha Hq E.
  - rewrite append_nil in E.
    destruct q as [|q1 q]; rewrite ?append_cons, ?append_nil in E; injection E as -> E.
    { discriminate. }
    destruct q as [|q2 q]; rewrite ?append_cons, ?append_nil in E; injection E as -> E.
    { discriminate. }
    destruct q as [|q3 q]; rewrite ?append_cons, ?append_nil in E; injection E as -> E.
    { discriminate. }
    destruct q as [|q4 q]; rewrite ?append_cons, ?append_nil in E; injection E as -> E.
    { vm_compute in Hq. discriminate. }
    change (String "f" (String "r" (String "o" (String "m" q))) ++ String c NL)
      with ("" ++ "from" ++ (q ++ String c NL)) in Hq.
    rewrite contains_inside in Hq. discriminate.
  - cbn [all_chars] in Ha. apply andb_true_iff in Ha as [Hx Ha].
    rewrite append_cons in E.
    destruct q as [|q1 q]; rewrite ?append_cons, ?append_nil in E; injection E as -> E.
    + congruence.
    + apply (IH q Ha); [ | exact E].
      apply (contains_suffix "from" (String x "")). exact Hq.
Qed.

(** A part of [p ++ c ++ LF] that is not empty is the end of [p] with
    [c] and the line feed, or the line feed alone. *)
Lemma suffix_of_lines p c :
  ∀ pre1 d pre2 prev,
    pre1 ++ String d pre2 = p ++ String c NL →
    (∃ q0 q, p = q0 ++ q ∧ String d pre2 = q ++ String c NL)
    ∨ (String d pre2 = NL ∧ prev_after prev pre1 = Some c).
Proof.
  induction p as [|y p IH]; intros pre1 d pre2 prev E.
  - rewrite append_nil in E.
    destruct pre1 as [|z pre1]; rewrite ?append_cons, ?append_nil in E.
    + left. exists "", "". now rewrite E.
    + injection E as -> E. right.
      destruct pre1 as [|z pre1]; rewrite ?append_cons, ?append_nil in E.
      * injection E as -> ->. now split.
      * injection E as _ E. destruct pre1; discriminate.
  - destruct pre1 as [|z pre1]; rewrite ?append_cons, ?append_nil in E.
    + left. exists "", (String y p). now rewrite E.
    + injection E as -> E. apply (IH _ _ _ (Some y)) in E as [(q0 & q & -> & E) | [E1 E2]].
      * left. exists (String y q0), q. now split.
      * right. now split.
Qed.

Lemma from_module_free_lines u pre rest :
  contains "from" pre = false →
  pre = "" ∨ (∃ p c, pre = p ++ String c NL ∧ is_space c = false) →
  ∀ pre1 d pre2, pre = pre1 ++ String d pre2 →
    match_here (re_from_module u) (prev_after None pre1) (String d pre2 ++ rest) = None.
Proof.
  intros Hc Hpre pre1 d pre2 E.
  destruct Hpre as [-> | (p & c & Hp & Hsp)]; [destruct pre1; discriminate | ].
  destruct (match_here _ _ _) as [m|] eqn:Em; [exfalso | reflexivity].
  apply from_module_inv in Em as (Hprev & a & b & Ha & Et).
  rewrite Hp in E. symmetry in E.
  destruct (suffix_of_lines p c pre1 d pre2 None E) as [(q0 & q & Hq & Es) | [Es Ep]].
  - rewrite Es, append_assoc, append_cons in Et.
    apply (no_stmt_in_lines c rest b Hsp a q Ha); [ | exact Et].
    rewrite Hp, Hq, append_assoc in Hc. now apply contains_suffix in Hc.
  - rewrite Ep in Hprev. cbn [prev_is] in Hprev. apply negb_false_iff in Hprev.
    assert (is_space c = true); [ | congruence].
    unfold is_LF in Hprev. apply Ascii.eqb_eq in Hprev. now subst c.
Qed.

Lemma star_chr_ex p (k : cont) xs rest (P : mstate → Prop) :
  all_chars p xs = true →
  head_is p rest = false →
  ∀ fuel prev pos gs,
    (String.length xs < fuel)%nat →
    (∀ pv, ∃ r0, k (MState pv rest (pos + String.length xs) gs) = Some r0 ∧ P r0) →
    ∃ r0, star_loop (run (Chr p)) true k fuel (MState prev (xs ++ rest) pos gs) = Some r0
          ∧ P r0.
Proof.
  intros Hxs Hrest. induction xs as [|x xs IH]; intros fuel prev pos gs Hf Hk.
  - rewrite append_nil. cbn [String.length] in Hk. rewrite Nat.add_0_r in Hk.
    destruct fuel as [|fuel]; [apply Hk|]. rewrite star_loop_greedy.
    destruct rest as [|c rest]; [rewrite run_chr_end; apply Hk|].
    cbn [head_is] in Hrest. rewrite run_chr, Hrest. apply Hk.
  - cbn [all_chars] in Hxs. apply andb_true_iff in Hxs as [Hx Hxs].
    destruct fuel as [|fuel]; [cbn in Hf; lia|].
    rewrite append_cons, star_loop_greedy, run_chr, Hx.
    cbn [m_pos]. rewrite (proj2 (Nat.ltb_lt pos (S pos))) by lia.
    destruct (IH Hxs fuel (Some x) (S pos) gs) as (r0 & E & HP).
    + cbn in Hf; lia.
    + intros pv. destruct (Hk pv) as (r0 & E & HP). exists r0. split; [ | exact HP].
      rewrite <- E. cbn [String.length]. do 2 f_equal. lia.
    + exists r0. now rewrite E.
Qed.

Lemma word_not_space c : is_word c = true → is_space c = false.
Proof.
  intros H. destruct (is_space c) eqn:E; [ | reflexivity].
  apply space_not_word in E. congruence.
Qed.

Lemma run_seq a b (k : cont) st : run (Seq a b) k st = run a (run b k) st.
Proof. reflexivity. Qed.

Lemma many_chr_ex p (k : cont) xs rest (P : mstate → Prop) prev pos gs :
  all_chars p xs = true → head_is p rest = false →
  (∀ pv, ∃ r0, k (MState pv rest (pos + String.length xs) gs) = Some r0 ∧ P r0) →
  ∃ r0, run (Many p) k (MState prev (xs ++ rest) pos gs) = Some r0 ∧ P r0.
Proof.
  intros Hxs Hrest Hk. unfold Many.
  change (run (Star true (Chr p)) k ?st)
    with (star_loop (run (Chr p)) true k (S (String.length (m_rest st))) st).
  apply star_chr_ex; [exact Hxs | exact Hrest | | exact Hk].
  cbn [m_rest]. rewrite length_append. lia.
Qed.

Lemma some1_chr_ex p (k : cont) ws rest (P : mstate → Prop) prev pos gs :
  nonempty ws && all_chars p ws = true → head_is p rest = false →
  (∀ pv, ∃ r0, k (MState pv rest (pos + String.length ws) gs) = Some r0 ∧ P r0) →
  ∃ r0, run (Some1 p) k (MState prev (ws ++ rest) pos gs) = Some r0 ∧ P r0.
Proof.
  intros Hws Hrest Hk. destruct ws as [|w ws]; [discriminate|].
  cbn [nonempty all_chars andb] in Hws. apply andb_true_iff in Hws as [Hw Hws].
  unfold Some1, Plus. rewrite run_seq, append_cons, run_chr, Hw.
  apply many_chr_ex; [exact Hws | exact Hrest | ].
  intros pv. destruct (Hk pv) as (r0 & E & HP). exists r0. split; [ | exact HP].
  rewrite <- E. cbn [String.length]. do 2 f_equal. lia.
Qed.

(** How the pattern of steps 0 and 3.7 reads a line [from u import ]. *)
Lemma from_module_match u ws1 ws2 ws3 tail prev :
  prev_is (fun c => negb (is_LF c)) prev = false →
  u ≠ "" → all_chars is_word u = true →
  blank_run ws1 = true → blank_run ws2 = true → blank_run ws3 = true →
  head_is is_space tail = false →
  match_here (re_from_module u) prev ("from" ++ ws1 ++ u ++ ws2 ++ "import" ++ ws3 ++ tail)
  = Some (RMatch ("from" ++ ws1 ++ u ++ ws2 ++ "import" ++ ws3 ++ tail)
                 (4 + String.length ws1 + String.length u + String.length ws2 + 6
                  + String.length ws3) []).
Proof.
  intros Hp Hu Hw H1 H2 H3 Ht.
  set (n := (4 + String.length ws1 + String.length u + String.length ws2 + 6
             + String.length ws3)%nat).
  assert (Hrun : ∃ r0, run (re_from_module u) Some
                         (MState prev ("from" ++ ws1 ++ u ++ ws2 ++ "import" ++ ws3 ++ tail)
                                 0 []) = Some r0
                       ∧ (m_pos r0 = n ∧ m_groups r0 = [])).
  { assert (Hx : head_is is_space (u ++ ws2 ++ "import" ++ ws3 ++ tail) = false).
    { destruct u as [|x u']; [congruence|]. rewrite append_cons. cbn [head_is].
      cbn [all_chars] in Hw. apply andb_true_iff in Hw as [Hx _]. now apply word_not_space. }
    change (re_from_module u)
      with (Seq Bol (Seq (Many is_space) (Seq (Lit "from") (Seq (Some1 is_space)
              (Seq (Lit u) (Seq (Some1 is_space) (Seq (Lit "import")
                 (Some1 is_space)))))))).
    rewrite !run_seq.
    match goal with |- ∃ r0, run Bol ?k ?st = Some r0 ∧ _ =>
      assert (Ebol : run Bol k st = k st) end.
    { cbn [run m_prev]. destruct prev as [c|]; [ | reflexivity].
      cbn [prev_is] in Hp. apply negb_false_iff in Hp. now rewrite Hp. }
    rewrite Ebol. clear Ebol. rewrite run_seq.
    match goal with |- ∃ r0, run (Many _) ?k _ = Some r0 ∧ _ =>
      apply (many_chr_ex is_space k ""
               ("from" ++ ws1 ++ u ++ ws2 ++ "import" ++ ws3 ++ tail))
    end; [reflexivity | reflexivity | ].
    intros pv. rewrite run_seq.
    match goal with |- context [run (Lit ?s) ?k (MState ?p (?s ++ ?rest) ?pos ?gs)] =>
      destruct (lit_run s k p rest pos gs) as [pv1 ->] end.
    rewrite run_seq.
    match goal with |- ∃ r0, run (Some1 _) ?k (MState _ (?ws ++ ?rest) _ _) = _ ∧ _ =>
      apply (some1_chr_ex is_space k ws rest) end; [exact H1 | exact Hx | ].
    intros pv2. rewrite run_seq.
    match goal with |- context [run (Lit ?s) ?k (MState ?p (?s ++ ?rest) ?pos ?gs)] =>
      destruct (lit_run s k p rest pos gs) as [pv3 ->] end.
    rewrite run_seq.
    match goal with |- ∃ r0, run (Some1 _) ?k (MState _ (?ws ++ ?rest) _ _) = _ ∧ _ =>
      apply (some1_chr_ex is_space k ws rest) end; [exact H2 | reflexivity | ].
    intros pv4. rewrite run_seq.
    match goal with |- context [run (Lit ?s) ?k (MState ?p (?s ++ ?rest) ?pos ?gs)] =>
      destruct (lit_run s k p rest pos gs) as [pv5 ->] end.
    match goal with |- ∃ r0, run (Some1 _) ?k (MState _ (?ws ++ ?rest) _ _) = _ ∧ _ =>
      apply (some1_chr_ex is_space k ws rest) end; [exact H3 | exact Ht | ].
    intros pv6. eexists. split; [reflexivity | ]. cbn [m_pos m_groups].
    split; [ | reflexivity]. unfold n. cbn [String.length]. lia. }
  destruct Hrun as (r0 & E & Hpos & Hgs). unfold match_here. now rewrite E, Hpos, Hgs.
Qed.

Lemma sub_go_skip_prev r repl a tail :
  ∀ prev, sub_go r repl (String.length a) prev (a ++ tail)
          = sub_go r repl 0 (prev_after prev a) tail.
Proof.
  induction a as [|c a IH]; intros prev.
  - rewrite append_nil. cbn [String.length prev_after]. now destruct tail.
  - rewrite append_cons. cbn [String.length sub_go prev_after]. apply IH.
Qed.

Lemma prev_after_last a c : ∀ prev, prev_after prev (a ++ String c "") = Some c.
Proof.
  induction a as [|x a IH]; intros prev; [reflexivity|].
  rewrite append_cons. cbn [prev_after]. apply IH.
Qed.

Lemma from_module_absent u repl tail prev :
  contains "from" tail = false →
  sub_go (re_from_module u) repl 0 prev tail = tail.
Proof.
  intros H. rewrite sub_go_unchanged; [reflexivity | ].
  intros m Hm. exfalso.
  apply finditer_go_src in Hm as (pre & prev' & E & Hm).
  apply from_module_inv in Hm as (_ & a & b & _ & E').
  rewrite E, E', <- append_assoc, contains_inside in H. discriminate.
Qed.

Lemma repoint_import_statement u pre ws1 ws2 ws3 tail :
  u ≠ "" → all_chars is_word u = true →
  contains "from" pre = false →
  pre = "" ∨ (∃ p c, pre = p ++ String c NL ∧ is_space c = false) →
  blank_run ws1 = true → blank_run ws2 = true → blank_run ws3 = true →
  head_is is_space tail = false →
  contains "from" tail = false →
  repoint_import u (pre ++ "from" ++ ws1 ++ u ++ ws2 ++ "import" ++ ws3 ++ tail)
  = pre ++ "from source import " ++ tail.
Proof.
  intros Hu Hw Hc Hpre H1 H2 H3 Ht Hct. unfold repoint_import, sub.
  rewrite sub_go_prefix_free by (now apply from_module_free_lines).
  f_equal.
  assert (Hp : prev_is (fun c => negb (is_LF c)) (prev_after None pre) = false).
  { destruct Hpre as [-> | (p & c & -> & _)]; [reflexivity | ].
    replace (p ++ String c NL) with ((p ++ String c "") ++ String LF "")
      by now rewrite append_assoc.
    now rewrite prev_after_last. }
  pose proof (from_module_match u ws1 ws2 ws3 tail _ Hp Hu Hw H1 H2 H3 Ht) as Hm.
  set (stmt := "from" ++ ws1 ++ u ++ ws2 ++ "import" ++ ws3).
  assert (Es : "from" ++ ws1 ++ u ++ ws2 ++ "import" ++ ws3 ++ tail
               = String "f" (("rom" ++ ws1 ++ u ++ ws2 ++ "import" ++ ws3) ++ tail)).
  { now rewrite !append_assoc. }
  assert (El : (4 + String.length ws1 + String.length u + String.length ws2 + 6
                + String.length ws3
                = S (String.length ("rom" ++ ws1 ++ u ++ ws2 ++ "import" ++ ws3)))%nat).
  { rewrite !length_append. cbn [String.length]. lia. }
  rewrite El in Hm. rewrite Es in Hm |- *. cbn [sub_go]. rewrite Hm. cbn [mo_end].
  rewrite sub_go_skip_prev. now rewrite from_module_absent.
Qed.

(** ** The modules that step 0 takes for the user's own *)

Lemma str_in_spec x l : str_in x l = true ↔ x ∈ l.
Proof.
  unfold str_in. induction l as [|y l IH]; cbn [existsb].
  - split; [discriminate | intros H; now apply elem_of_nil in H].
  - rewrite orb_true_iff, IH, elem_of_cons, String.eqb_eq. tauto.
Qed.

Lemma set_add_spec x m l : x ∈ set_add m l ↔ x ∈ l ∨ x = m.
Proof.
  unfold set_add. destruct (str_in m l) eqn:E.
  - apply str_in_spec in E. split; [tauto | intros [H | ->]; assumption].
  - rewrite elem_of_app, list_elem_of_singleton. tauto.
Qed.

(** How [re_file_header] reads a header [# File: u.py]. *)
Lemma file_header_match u ws1 ws2 rest prev :
  u ≠ "" → all_chars is_word u = true →
  all_chars is_space ws1 = true → all_chars is_space ws2 = true →
  ∃ m, match_here re_file_header prev ("#" ++ ws1 ++ "File:" ++ ws2 ++ u ++ ".py" ++ rest)
       = Some m
       ∧ group 1 m = Some u.
Proof.
  intros Hu Hw H1 H2.
  set (text := "#" ++ ws1 ++ "File:" ++ ws2 ++ u ++ ".py" ++ rest).
  set (a := String.length ("#" ++ ws1 ++ "File:" ++ ws2)).
  assert (Hrun : ∃ r0, run re_file_header Some (MState prev text 0 []) = Some r0
                       ∧ m_groups r0 = [(1, (a, a + String.length u))%nat]).
  { change re_file_header
      with (Seq (Lit "#") (Seq (Many is_space) (Seq (Lit "File:") (Seq (Many is_space)
              (Seq (Group 1 (Some1 is_word)) (Lit ".py")))))).
    unfold text. rewrite run_seq.
    match goal with |- context [run (Lit ?s) ?k (MState ?p (?s ++ ?r) ?pos ?gs)] =>
      destruct (lit_run s k p r pos gs) as [pv1 ->] end.
    rewrite run_seq.
    match goal with |- ∃ r0, run (Many _) ?k (MState _ (?ws ++ ?r) _ _) = Some r0 ∧ _ =>
      apply (many_chr_ex is_space k ws r) end; [exact H1 | reflexivity | ].
    intros pv2. rewrite run_seq.
    match goal with |- context [run (Lit ?s) ?k (MState ?p (?s ++ ?r) ?pos ?gs)] =>
      destruct (lit_run s k p r pos gs) as [pv3 ->] end.
    rewrite run_seq.
    match goal with |- ∃ r0, run (Many _) ?k (MState _ (?ws ++ ?r) _ _) = Some r0 ∧ _ =>
      apply (many_chr_ex is_space k ws r) end; [exact H2 | | ].
    { destruct u as [|x u']; [congruence|]. rewrite append_cons. cbn [head_is].
      cbn [all_chars] in Hw. apply andb_true_iff in Hw as [Hx _]. now apply word_not_space. }
    intros pv4. rewrite run_seq.
    change (run (Group 1 ?r) ?k ?st)
      with (run r (fun st1 => k (MState (m_prev st1) (m_rest st1) (m_pos st1)
                                        ((1%nat, (m_pos st, m_pos st1)) :: m_groups st1))) st).
    match goal with |- ∃ r0, run (Some1 _) ?k (MState _ (?ws ++ ?r) _ _) = Some r0 ∧ _ =>
      apply (some1_chr_ex is_word k ws r) end; [ | reflexivity | ].
    { destruct u; [congruence | exact Hw]. }
    intros pv5. cbn [m_prev m_rest m_pos m_groups].
    match goal with |- context [run (Lit ?s) ?k (MState ?p (?s ++ ?r) ?pos ?gs)] =>
      destruct (lit_run s k p r pos gs) as [pv6 ->] end.
    eexists. split; [reflexivity | ]. cbn [m_groups]. unfold a.
    rewrite !length_append. cbn [String.length]. do 3 f_equal; lia. }
  destruct Hrun as (r0 & E & Hg). unfold match_here. rewrite E. eexists. split; [reflexivity | ].
  unfold group. cbn [mo_groups mo_src]. rewrite Hg. cbn [span_of Nat.eqb]. f_equal.
  replace (a + String.length u - a)%nat with (String.length u) by lia.
  unfold text, a.
  replace ("#" ++ ws1 ++ "File:" ++ ws2 ++ u ++ ".py" ++ rest)
    with (("#" ++ ws1 ++ "File:" ++ ws2) ++ u ++ ".py" ++ rest)
    by now rewrite !append_assoc.
  rewrite sdrop_append. apply stake_append.
Qed.

Section UserModules.

Variable stdlib_module_names : list string.
Variable ast_parse : string -> option module_view.

Local Abbreviation user_modules := (user_source_modules stdlib_module_names ast_parse).
Local Abbreviation user_module := (user_module_of stdlib_module_names).

Lemma fold_user_module_keeps defs l :
  ∀ acc x, x ∈ acc →
    x ∈ fold_left (fun acc node => match user_module defs node with
                                   | Some m => set_add m acc
                                   | None => acc
                                   end) l acc.
Proof.
  induction l as [|node l IH]; intros acc x H; [exact H|]. cbn [fold_left]. apply IH.
  destruct (user_module defs node); [apply set_add_spec; now left | exact H].
Qed.

Lemma fold_user_module_adds defs l node m :
  node ∈ l → user_module defs node = Some m →
  ∀ acc, m ∈ fold_left (fun acc node => match user_module defs node with
                                        | Some m => set_add m acc
                                        | None => acc
                                        end) l acc.
Proof.
  intros Hn Hm. induction l as [|n l IH]; intros acc; [now apply elem_of_nil in Hn|].
  cbn [fold_left]. apply elem_of_cons in Hn as [<- | Hn]; [ | now apply IH].
  rewrite Hm. apply fold_user_module_keeps, set_add_spec. now right.
Qed.

(** The module of a header [# File: u.py] at the start of the source is
    in [user_source_modules]. *)
Lemma header_module test_code u ws1 ws2 rest :
  u ≠ "" → all_chars is_word u = true →
  all_chars is_space ws1 = true → all_chars is_space ws2 = true →
  u ∈ user_modules test_code ("#" ++ ws1 ++ "File:" ++ ws2 ++ u ++ ".py" ++ rest).
Proof.
  intros Hu Hw H1 H2. unfold user_source_modules.
  destruct (file_header_match u ws1 ws2 rest None Hu Hw H1 H2) as (m & Hm & Hg).
  set (source_code := "#" ++ ws1 ++ "File:" ++ ws2 ++ u ++ ".py" ++ rest) in *.
  assert (Es : search re_file_header source_code = Some m).
  { unfold search. destruct source_code; cbn [search_from]; now rewrite Hm. }
  rewrite Es. unfold group_or. rewrite Hg. cbn [default from_option]. unfold id.
  destruct (match ast_parse source_code with Some t => top_defs t | None => [] end);
    [left | ].
  destruct (ast_parse test_code); [ | left].
  apply fold_user_module_keeps. left.
Qed.

(** A module from which the test imports, at level 0, a name that the
    source defines at top level, or everything, is in
    [user_source_modules], unless it is [source] or a module of the
    standard library. *)
Lemma imported_module test_code source_code src_tree test_tree m names a :
  ast_parse source_code = Some src_tree →
  ast_parse test_code = Some test_tree →
  top_defs src_tree ≠ [] →
  ImportFrom (Some m) names 0 ∈ walk_imports test_tree →
  m ≠ "" →
  before "." m ∉ _STDLIB_MODULES stdlib_module_names →
  before "." m ≠ "source" →
  a ∈ names →
  alias_name a = "*" ∨ alias_name a ∈ top_defs src_tree →
  before "." m ∈ user_modules test_code source_code.
Proof.
  intros Hs Ht Hd Hn Hm Hstd Hsrc Ha Hname. unfold user_source_modules.
  rewrite Hs, Ht. destruct (top_defs src_tree) as [|d ds] eqn:Ed; [congruence|].
  apply (fold_user_module_adds _ _ (ImportFrom (Some m) names 0)); [exact Hn | ].
  unfold user_module_of. destruct m as [|c m']; [congruence|]. cbn [nonempty].
  unfold in_set. rewrite bool_decide_false by exact Hstd.
  apply String.eqb_neq in Hsrc. rewrite Hsrc. cbn [orb].
  assert (He : existsb (fun a => String.eqb (alias_name a) "*" || str_in (alias_name a) (d :: ds))
                       names = true).
  { apply existsb_exists. exists a. split; [now apply list_elem_of_In | ].
    destruct Hname as [-> | Hin]; [reflexivity | ].
    apply str_in_spec in Hin. rewrite Hin. apply orb_true_r. }
  now rewrite He.
Qed.

End UserModules.

(** ** The placeholder step on one statement *)

Lemma safe_rewrite_statement ws1 X ws2 tail :
  blank_run ws1 = true → is_identifier X = true → blank_run ws2 = true →
  _safe_rewrite_imports_to_source ("from" ++ ws1 ++ X ++ ws2 ++ "import" ++ tail)
  = (if str_in X _ALLOWED_REWRITE_MODULES then "from source import"
     else "from" ++ ws1 ++ X ++ ws2 ++ "import")
    ++ _safe_rewrite_imports_to_source tail.
Proof.
  intros H1 HX H2. unfold _safe_rewrite_imports_to_source, sub.
  fold repl_placeholder.
  set (stmt := ws1 ++ X ++ ws2 ++ "import").
  assert (Es : "from" ++ ws1 ++ X ++ ws2 ++ "import" ++ tail
               = String "f" (("rom" ++ stmt) ++ tail)).
  { unfold stmt. now rewrite !append_assoc. }
  assert (El : (4 + String.length ws1 + String.length X + String.length ws2 + 6
                = S (String.length ("rom" ++ stmt)))%nat).
  { unfold stmt. rewrite !length_append. cbn [String.length]. lia. }
  pose proof (from_import_match None ws1 X ws2 tail H1 HX H2) as Hm.
  rewrite El in Hm. rewrite Es in Hm |- * at 1.
  cbn [sub_go]. rewrite Hm. cbn [mo_end].
  rewrite sub_go_skip by reflexivity. unfold sub. f_equal.
  unfold repl_placeholder, group_or, group, group0.
  cbn [mo_groups mo_src mo_end span_of Nat.eqb].
  assert (E1 : stake (4 + String.length ws1 + String.length X - (4 + String.length ws1))
                 (sdrop (4 + String.length ws1)
                        ("from" ++ ws1 ++ X ++ ws2 ++ "import" ++ tail)) = X).
  { replace (4 + String.length ws1 + String.length X - (4 + String.length ws1))%nat
      with (String.length X) by lia.
    replace (4 + String.length ws1)%nat with (String.length ("from" ++ ws1))
      by (rewrite length_append; reflexivity).
    rewrite <- (append_assoc "from" ws1), sdrop_append. apply stake_append. }
  rewrite Es in E1. rewrite E1. cbn [default from_option]. unfold id.
  destruct (str_in X _ALLOWED_REWRITE_MODULES); [reflexivity | ].
  cbn [stake]. now rewrite stake_append.
Qed.




(* ===================================================================== *)
(** * Imports and fixtures that preprocessing adds *)
(* ===================================================================== *)

(** ** _ensure_import *)

Lemma matches_found r s :
  matches r s = true →
  ∃ pre prev m, s = pre ++ mo_src m ∧ match_here r prev (mo_src m) = Some m.
Proof.
  unfold matches, search. intros H. apply bool_decide_eq_true in H as [m H].
  apply search_from_found in H as (pre & prev & Hs & Hm). eauto.
Qed.

Lemma import_line_match import_line prev s m :
  match_here (re_import_line import_line) prev s = Some m →
  ∃ post, s = import_line ++ post.
Proof.
  unfold match_here, re_import_line.
  destruct (run _ Some _) as [res|] eqn:E; [ | discriminate]. intros _.
  cbn [Seqs] in E.
  change (run (Seq Bol ?r) Some ?st) with (run Bol (run r Some) st) in E.
  assert (E' : run (Seq (Lit import_line) (Seq (Many is_space) Eol)) Some
                 (MState prev s 0 []) = Some res).
  { cbn [run m_prev] in E |- *. destruct prev as [c|]; [ | exact E].
    destruct (is_LF c); [exact E | discriminate]. }
  cbn [run] in E'. apply lit_inv in E' as (st' & _ & E'). cbn [m_rest] in E'. eauto.
Qed.

(** X8: the result of [_ensure_import] always holds the import line. *)
Theorem X8_ensure_import_contains test_code import_line :
  contains import_line (_ensure_import test_code import_line) = true.
Proof.
  unfold _ensure_import.
  destruct (matches (re_import_line import_line) test_code) eqn:Em.
  - apply matches_found in Em as (pre & prev & m & Hs & Hm).
    apply import_line_match in Hm as [post Hp]. rewrite Hs, Hp. apply contains_inside.
  - destruct (contains "import pytest" test_code) eqn:Ec.
    + destruct (replace_first_found "import pytest" ("import pytest" ++ NL ++ import_line)
                  test_code Ec) as (pre & post & _ & ->).
      rewrite (append_assoc "import pytest" (NL ++ import_line) post).
      rewrite <- (append_assoc pre "import pytest").
      rewrite (append_assoc NL import_line post).
      rewrite <- (append_assoc (pre ++ "import pytest") NL).
      apply contains_inside.
    + apply (contains_inside import_line "").
Qed.

Lemma import_line_present import_line rest :
  matches (re_import_line import_line) (import_line ++ NL ++ rest) = true.
Proof.
  apply matches_at_start. unfold match_here, re_import_line. cbn [Seqs].
  change (run (Seq Bol (Seq ?a ?b)) Some ?st) with (run Bol (run a (run b Some)) st).
  set (k := run (Seq (Many is_space) Eol) Some).
  set (k1 := run (Lit import_line) k).
  cbn [run m_prev]. unfold k1.
  destruct (lit_run import_line k None (NL ++ rest) 0 []) as [prev' ->].
  match goal with |- is_Some (match ?x with _ => _ end) => assert (H : is_Some x) end.
  { unfold k. cbn [run Many]. apply star_loop_stop. cbn [run m_rest].
    change (NL ++ rest) with (String LF rest). cbn. eauto. }
  destruct H as [x ->]. eauto.
Qed.

(** X9: on a code without the text [import pytest], [_ensure_import]
    is idempotent: the line it has put at the top is found by the second
    call, which changes nothing. *)
Theorem X9_ensure_import_idempotent test_code import_line :
  contains "import pytest" test_code = false →
  _ensure_import (_ensure_import test_code import_line) import_line
  = _ensure_import test_code import_line.
Proof.
  intros Hc.
  assert (E : _ensure_import test_code import_line
              = if matches (re_import_line import_line) test_code then test_code
                else import_line ++ NL ++ test_code).
  { unfold _ensure_import. now rewrite Hc. }
  rewrite E. destruct (matches (re_import_line import_line) test_code) eqn:Em.
  - unfold _ensure_import. now rewrite Em.
  - unfold _ensure_import. now rewrite import_line_present.
Qed.

(** The theorem at a test that reads the environment. *)
Lemma X9_witness :
  _ensure_import (_ensure_import "def test_env(): assert os.getenv('HOME')" "import os")
                 "import os"
  = _ensure_import "def test_env(): assert os.getenv('HOME')" "import os".
Proof. apply X9_ensure_import_idempotent. reflexivity. Defined.


(** ** _detect_flask_app_var *)

Lemma space_head_not_word ws tail c :
  all_chars is_space ws = true → is_word c = false →
  head_is is_word (ws ++ String c tail) = false.
Proof.
  destruct ws as [|w ws]; cbn [all_chars]; intros H Hc.
  - exact Hc.
  - apply andb_true_iff in H as [Hw _]. cbn [head_is]. rewrite append_cons.
    now apply space_not_word.
Qed.

Lemma flask_app_run X ws1 ws2 tail :
  is_identifier X = true → all_chars is_space ws1 = true → all_chars is_space ws2 = true →
  ∃ e, run re_flask_app Some
           (MState None (X ++ ws1 ++ "=" ++ ws2 ++ "Flask(" ++ tail) 0 [])
       = Some (MState (Some "("%char) tail e [(1, (0, String.length X))%nat]).
Proof.
  intros HX H1 H2. destruct X as [|x X]; [discriminate|]. cbn [is_identifier] in HX.
  apply andb_true_iff in HX as [Hx HX].
  eexists. unfold re_flask_app, Seqs, Many.
  change (run (Seq Bol ?r) Some ?st) with (run Bol (run r Some) st).
  cbn [run m_prev m_rest]. rewrite append_cons.
  apply (star_chr is_space _ "" (String x (X ++ ws1 ++ "=" ++ ws2 ++ "Flask(" ++ tail))).
  - reflexivity.
  - cbn [head_is]. now apply ident_start_not_space.
  - cbn [String.length]. lia.
  - intros pv. cbn [run m_rest m_pos m_groups m_prev]. rewrite Hx.
    apply (star_chr is_word _ X (ws1 ++ "=" ++ ws2 ++ "Flask(" ++ tail)).
    + exact HX.
    + now apply space_head_not_word.
    + cbn [m_rest]. rewrite length_append. lia.
    + intros pv0. cbn [run m_rest m_pos m_groups m_prev].
      apply (star_chr is_space _ ws1 ("=" ++ ws2 ++ "Flask(" ++ tail)).
      * exact H1.
      * reflexivity.
      * cbn [m_rest]. rewrite length_append. lia.
      * intros pv1. change ("=" ++ ws2 ++ "Flask(" ++ tail)
          with (String "=" (ws2 ++ "Flask(" ++ tail)).
        cbn [run Lit m_rest m_pos m_groups m_prev is_char Ascii.eqb Bool.eqb].
        apply (star_chr is_space _ ws2 ("Flask(" ++ tail)).
        -- exact H2.
        -- reflexivity.
        -- cbn [m_rest]. rewrite length_append. lia.
        -- intros pv2.
           change ("Flask(" ++ tail)
             with (String "F" (String "l" (String "a" (String "s" (String "k"
                     (String "(" tail)))))).
           cbn [run Lit m_rest m_pos m_groups m_prev is_char Ascii.eqb Bool.eqb].
           apply (star_chr is_space _ "" (String "(" tail)).
           ++ reflexivity.
           ++ reflexivity.
           ++ cbn [String.length]. lia.
           ++ intros pv3.
              cbn [run Lit m_rest m_pos m_groups m_prev is_char Ascii.eqb Bool.eqb].
              reflexivity.
Qed.

(** X10: a source that starts with [X = Flask(], with any white space
    (or none) around the equals sign and [X] an identifier, has [X] as
    its Flask application variable. *)
Theorem X10_detect_flask_app_var_found X ws1 ws2 tail :
  is_identifier X = true → all_chars is_space ws1 = true → all_chars is_space ws2 = true →
  _detect_flask_app_var (X ++ ws1 ++ "=" ++ ws2 ++ "Flask(" ++ tail) = Some X.
Proof.
  intros HX H1 H2. unfold _detect_flask_app_var, search.
  destruct (flask_app_run X ws1 ws2 tail HX H1 H2) as [e He].
  assert (Hm : match_here re_flask_app None (X ++ ws1 ++ "=" ++ ws2 ++ "Flask(" ++ tail)
               = Some (RMatch (X ++ ws1 ++ "=" ++ ws2 ++ "Flask(" ++ tail) e
                              [(1, (0, String.length X))%nat])).
  { unfold match_here. now rewrite He. }
  destruct (X ++ ws1 ++ "=" ++ ws2 ++ "Flask(" ++ tail) as [|c s] eqn:Es;
    cbn [search_from]; rewrite Hm; unfold group; cbn [mo_groups mo_src span_of Nat.eqb sdrop];
    rewrite Nat.sub_0_r, <- Es; now rewrite stake_append.
Qed.

(** The theorem at [app = Flask(__name__)]. *)
Lemma X10_witness :
  _detect_flask_app_var ("app" ++ " " ++ "=" ++ " " ++ "Flask(" ++ "__name__)") = Some "app".
Proof. apply X10_detect_flask_app_var_found; reflexivity. Defined.

(** ** _inject_flask_client_fixture *)

Lemma client_fixture_here p tail :
  is_Some (match_here re_client_fixture p ("@pytest.fixture" ++ NL ++ "def client(" ++ tail)).
Proof.
  destruct (match_here _ _ _) eqn:E; [eauto | ]. vm_compute in E. discriminate.
Qed.

Lemma fixture_code_present a v b :
  matches re_client_fixture (a ++ fixture_code v ++ b) = true.
Proof.
  assert (E : a ++ fixture_code v ++ b
              = (a ++ NL ++ NL)
                ++ ("@pytest.fixture" ++ NL ++ "def client("
                    ++ "):" ++ NL ++ ("    from source import " ++ v ++ " as _app" ++ NL
                    ++ "    _app.config[" ++ String DQ "TESTING" ++ String DQ "] = True" ++ NL
                    ++ "    with _app.test_client() as c:" ++ NL
                    ++ "        yield c" ++ NL) ++ b)).
  { unfold fixture_code. rewrite !append_assoc. reflexivity. }
  rewrite E. apply matches_at. intros p. apply client_fixture_here.
Qed.

(** X11: [_inject_flask_client_fixture] is idempotent: once the
    fixture is in the test code, a second call finds it and changes
    nothing. *)
Theorem X11_inject_flask_client_fixture_idempotent test_code flask_app_var :
  _inject_flask_client_fixture (_inject_flask_client_fixture test_code flask_app_var)
                               flask_app_var
  = _inject_flask_client_fixture test_code flask_app_var.
Proof.
  set (injected := if contains "import pytest" test_code
                  then replace_first "import pytest"
                         ("import pytest" ++ fixture_code flask_app_var) test_code
                  else "import pytest" ++ fixture_code flask_app_var ++ NL ++ test_code).
  assert (E : _inject_flask_client_fixture test_code flask_app_var
              = if negb (matches re_client_arg test_code)
                   || matches re_client_fixture test_code
                then test_code else injected) by reflexivity.
  rewrite E.
  destruct (negb (matches re_client_arg test_code) || matches re_client_fixture test_code)
    eqn:Eb.
  - unfold _inject_flask_client_fixture. now rewrite Eb.
  - assert (H : ∃ a b, injected = a ++ fixture_code flask_app_var ++ b).
    { unfold injected. destruct (contains "import pytest" test_code) eqn:Ec.
      - destruct (replace_first_found "import pytest"
                    ("import pytest" ++ fixture_code flask_app_var) test_code Ec)
          as (pre & post & _ & ->).
        exists (pre ++ "import pytest"), post. now rewrite !append_assoc.
      - exists "import pytest", (NL ++ test_code). reflexivity. }
    destruct H as (a & b & ->).
    unfold _inject_flask_client_fixture. rewrite fixture_code_present.
    now rewrite orb_true_r.
Qed.

(* ===================================================================== *)
(** * Sources in several files, and modules of JavaScript *)
(* ===================================================================== *)

(** ** _split_source_files *)

Lemma lower_append a b : lower (a ++ b) = lower a ++ lower b.
Proof.
  induction a as [|c a IH]; [reflexivity|].
  rewrite append_cons. cbn [lower smap] in *. now rewrite IH, append_cons.
Qed.

Lemma file_marker_match prev s m :
  match_here re_file_marker prev s = Some m →
  ∃ pre w post, s = pre ++ w ++ post ∧ folded "File:" w.
Proof.
  unfold match_here, re_file_marker.
  destruct (run _ Some _) as [res|] eqn:E; [ | discriminate]. intros _.
  cbn [Seqs] in E.
  repeat match type of E with
         | run (Seq (LitI _) _) _ _ = _ => fail 1
         | run (Seq ?a ?b) ?k ?st = _ =>
             change (run (Seq a b) k st) with (run a (run b k) st) in E;
             let st1 := fresh "st" in let pre := fresh "pre" in
             let E1 := fresh "E" in
             apply run_reaches in E as (st1 & E & pre & E1)
         end.
  change (run (Seq ?a ?b) ?k ?st) with (run a (run b k) st) in E.
  apply litI_inv in E as (w & st' & _ & Ew & Hw & _).
  cbn [m_rest] in *. exists (pre ++ pre0 ++ pre1 ++ pre2), w, (m_rest st').
  split; [ | exact Hw].
  rewrite E0, E1, E2, E3, Ew. now rewrite !append_assoc.
Qed.

(** X12: a source of ASCII characters that nowhere holds the text
    [file:], in any letter case, has no file marker: [_split_source_files]
    returns [None] and the source is handled as a single file. *)
Theorem X12_split_source_files_single source_code :
  is_ascii source_code = true →
  contains "file:" (lower source_code) = false →
  _split_source_files source_code = None.
Proof.
  intros Ha H. unfold _split_source_files.
  destruct (finditer re_file_marker source_code) as [|m ms] eqn:E; [reflexivity|].
  exfalso. assert (Hm : m ∈ finditer re_file_marker source_code) by (rewrite E; left).
  unfold finditer in Hm. apply finditer_go_src in Hm as (pre & prev' & Es & Hm).
  apply file_marker_match in Hm as (pre' & w & post & Ew & Hw).
  rewrite Es, Ew, !is_ascii_append in Ha.
  apply andb_true_iff in Ha as [_ Ha]. apply andb_true_iff in Ha as [_ Ha].
  apply andb_true_iff in Ha as [Ha _].
  destruct (folded_ascii _ _ Hw Ha) as [Hl _].
  rewrite Es, Ew, !lower_append, Hl, <- append_assoc in H.
  change (lower "File:") with "file:" in H. rewrite contains_inside in H. discriminate.
Qed.

(** The theorem at a source of one function. *)
Lemma X12_witness :
  _split_source_files ("def add(a, b):" ++ NL ++ "    return a + b" ++ NL) = None.
Proof. apply X12_split_source_files_single; reflexivity. Defined.

(** ** _convert_esm_to_cjs *)

Lemma bol_lit_starts w r prev s m :
  match_here (Seq Bol (Seq (Lit w) r)) prev s = Some m → ∃ post, s = w ++ post.
Proof.
  unfold match_here.
  destruct (run _ Some _) as [res|] eqn:E; [ | discriminate]. intros _.
  change (run (Seq Bol (Seq ?a ?b)) Some ?st) with (run Bol (run a (run b Some)) st) in E.
  set (k := run (Lit w) (run r Some)) in E.
  assert (E' : k (MState prev s 0 []) = Some res).
  { cbn [run m_prev] in E. destruct prev as [c|]; [ | exact E].
    destruct (is_LF c); [exact E | discriminate]. }
  unfold k in E'. apply lit_inv in E' as (st' & _ & E'). cbn [m_rest] in E'. eauto.
Qed.

(** A substitution for a line that starts with a word changes nothing in
    a text where the word does not occur. *)
Lemma sub_bol_lit_absent w r repl code :
  contains w code = false → sub (Seq Bol (Seq (Lit w) r)) repl code = code.
Proof.
  intros H. unfold sub. rewrite sub_go_unchanged; [reflexivity | ].
  intros m Hm. exfalso.
  apply finditer_go_src in Hm as (pre & prev' & E & Hm).
  apply bol_lit_starts in Hm as [post E'].
  rewrite E, E', contains_inside in H. discriminate.
Qed.

(** X13: [_convert_esm_to_cjs] returns unchanged a code that holds
    neither the word [import] nor the word [export]. *)
Theorem X13_convert_esm_to_cjs_unchanged code :
  contains "import" code = false → contains "export" code = false →
  _convert_esm_to_cjs code = code.
Proof.
  intros Hi He. unfold _convert_esm_to_cjs.
  unfold re_import_named, re_import_namespace, re_import_default, re_import_bare,
    re_export_default, re_export_names, re_export_declaration.
  cbn [Seqs].
  rewrite !(sub_bol_lit_absent "import" _ _ code Hi).
  rewrite !(sub_bol_lit_absent "export" _ _ code He).
  reflexivity.
Qed.

(** The theorem at a function definition. *)
Lemma X13_witness :
  _convert_esm_to_cjs "const add = (a, b) => a + b;" = "const add = (a, b) => a + b;".
Proof. apply X13_convert_esm_to_cjs_unchanged; reflexivity. Defined.

(* ===================================================================== *)
(** * The Java source file *)
(* ===================================================================== *)

Lemma package_match prev s m :
  match_here re_package prev s = Some m → ∃ pre post, s = pre ++ "package" ++ post.
Proof.
  unfold match_here, re_package.
  destruct (run _ Some _) as [res|] eqn:E; [ | discriminate]. intros _.
  cbn [Seqs] in E.
  change (run (Seq ?a ?b) ?k ?st) with (run a (run b k) st) in E.
  apply run_reaches in E as (st1 & E & pre1 & E1).
  change (run (Seq ?a ?b) ?k ?st) with (run a (run b k) st) in E.
  apply run_reaches in E as (st2 & E & pre2 & E2).
  change (run (Seq ?a ?b) ?k ?st) with (run a (run b k) st) in E.
  apply lit_inv in E as (st3 & _ & E3). cbn [m_rest] in *.
  exists (pre1 ++ pre2), (m_rest st3). rewrite E1, E2, E3. now rewrite !append_assoc.
Qed.

Lemma contains_longer a b s : contains a s = false → contains (a ++ b) s = false.
Proof.
  intros H. destruct (contains (a ++ b) s) eqn:E; [ | reflexivity].
  apply contains_found in E as (pre & post & ->).
  rewrite append_assoc, contains_inside in H. discriminate.
Qed.

Lemma java_source_text_without_package source_code :
  contains "package" source_code = false →
  java_source_text source_code = "package com.test;" ++ NL ++ NL ++ source_code.
Proof.
  intros H. unfold java_source_text. cbv zeta.
  assert (E : sub re_package (fun _ => "package com.test;") source_code = source_code).
  { unfold sub. rewrite sub_go_unchanged; [reflexivity | ].
    intros m Hm. exfalso. apply finditer_go_src in Hm as (pre & prev' & Es & Hm).
    apply package_match in Hm as (pre' & post & E').
    rewrite Es, E', <- append_assoc, contains_inside in H. discriminate. }
  rewrite E. change "package com.test;" with ("package" ++ " com.test;") at 1.
  now rewrite (contains_longer "package" " com.test;" source_code H).
Qed.

Lemma class_name_match prev s m :
  match_here re_class_name prev s = Some m → ∃ post, s = "public" ++ post.
Proof.
  unfold match_here, re_class_name.
  destruct (run _ Some _) as [res|] eqn:E; [ | discriminate]. intros _.
  cbn [Seqs] in E.
  change (run (Seq ?a ?b) ?k ?st) with (run a (run b k) st) in E.
  apply lit_inv in E as (st' & _ & E). cbn [m_rest] in E. eauto.
Qed.

(** X14: a Java source that nowhere holds the word [package] is
    written as the line [package com.test;], an empty line and the source,
    unchanged, to the file of [src/main/java/com/test] that is named after
    the source class; the name is [Application] when the source nowhere
    holds the word [public]. *)
Theorem X14_java_source_file_without_package temp_dir source_code :
  contains "package" source_code = false →
  java_source_file temp_dir source_code
  = (path_join (src_main temp_dir) (source_class_name source_code ++ ".java"),
     "package com.test;" ++ NL ++ NL ++ source_code)
  ∧ (contains "public" source_code = false →
     fst (java_source_file temp_dir source_code)
     = path_join (src_main temp_dir) "Application.java").
Proof.
  intros H. unfold java_source_file. rewrite (java_source_text_without_package _ H).
  split; [reflexivity | ]. intros Hp. cbn [fst]. do 2 f_equal.
  unfold source_class_name.
  destruct (search re_class_name source_code) as [m|] eqn:E; [exfalso | reflexivity].
  unfold search in E. apply search_from_found in E as (pre & prev' & Es & Hm).
  apply class_name_match in Hm as [post E'].
  rewrite Es, E', contains_inside in Hp. discriminate.
Qed.

(** The theorem at a class without package statement. *)
Lemma X14_witness :
  java_source_file "/tmp/genai_exec_k3x9" "public class Calculator { }"
  = ("/tmp/genai_exec_k3x9/src/main/java/com/test/Calculator.java",
     "package com.test;" ++ NL ++ NL ++ "public class Calculator { }").
Proof.
  exact (proj1 (X14_java_source_file_without_package "/tmp/genai_exec_k3x9"
                  "public class Calculator { }" eq_refl)).
Defined.

(* ===================================================================== *)
(** * The container command *)
(* ===================================================================== *)

(** ** Network isolation of the container *)

Lemma endswith_append suf x : endswith suf (x ++ suf) = true.
Proof.
  unfold endswith. rewrite length_append.
  rewrite (proj2 (Nat.leb_le _ _)) by lia.
  replace (String.length x + String.length suf - String.length suf)%nat
    with (String.length x) by lia.
  rewrite sdrop_append. now rewrite String.eqb_refl.
Qed.

Lemma differs_by_suffix suf x t : endswith suf t = false → x ++ suf ≠ t.
Proof. intros H <-. now rewrite endswith_append in H. Qed.

Lemma env_file_differs d t : endswith ".env" t = false → path_join d ".env" ≠ t.
Proof.
  intros H. unfold path_join. destruct (nonempty d && negb (endswith "/" d)).
  - rewrite <- append_assoc. now apply differs_by_suffix.
  - now apply differs_by_suffix.
Qed.

Section NetworkIsolation.

Variable relpath : string -> string -> string.

Lemma mount_args_no_network env job_dir :
  "--network" ∉ _get_docker_mount_args relpath env job_dir.
Proof.
  unfold _get_docker_mount_args. destruct (_ && _);
    rewrite !elem_of_cons, elem_of_nil; intros [H | [H | [H | [H | []]]]];
    try discriminate; symmetry in H; revert H;
    first [now apply differs_by_suffix | discriminate].
Qed.

Lemma env_file_args_no_network env_vars temp_dir :
  "--network" ∉ env_file_args env_vars temp_dir.
Proof.
  unfold env_file_args. destruct env_vars; [apply not_elem_of_nil|].
  rewrite !elem_of_cons, elem_of_nil. intros [H | [H | []]]; [discriminate|].
  symmetry in H. revert H. now apply env_file_differs.
Qed.

Lemma image_not_network source_code test_code language config :
  _select_executor_image source_code test_code language config ≠ "--network".
Proof.
  unfold _select_executor_image.
  destruct (executor_type config) as [[|c et]|].
  2: { repeat (destruct (String.eqb _ _); [discriminate|]). discriminate. }
  all: destruct (String.eqb language "java"); [discriminate|];
       destruct (str_in language _); [discriminate|];
       destruct (any_in _ _); discriminate.
Qed.

(** X15: the Java command never carries [--network]; the JavaScript
    command carries it exactly in unit mode; the Python command carries it
    exactly in unit mode when there is no requirements text (declared or
    inferred) and [allow_network] is not set. *)
Theorem X15_network_isolation env uuid temp_dir source_code processed_test config
    execution_mode project_id env_vars merged_requirements :
  let container_name := "genai-test-" ++ uuid in
  ("--network" ∉ java_docker_cmd relpath env container_name temp_dir project_id env_vars)
  ∧ ("--network" ∈ js_docker_cmd relpath env container_name temp_dir execution_mode env_vars
     ↔ execution_mode = UNIT)
  ∧ ("--network" ∈ python_docker_cmd relpath env container_name temp_dir source_code
                     processed_test config execution_mode project_id env_vars
                     merged_requirements
     ↔ execution_mode = UNIT ∧ merged_requirements = None ∧ allow_network config = false).
Proof.
  cbn zeta.
  pose proof (mount_args_no_network env temp_dir) as Hm.
  pose proof (env_file_args_no_network env_vars temp_dir) as He.
  pose proof (image_not_network source_code processed_test "python" config) as Hi.
  split; [ | split].
  - unfold java_docker_cmd. rewrite !elem_of_app, !elem_of_cons, elem_of_nil.
    destruct (truthy_id project_id); rewrite ?elem_of_cons, ?elem_of_nil;
      intuition discriminate.
  - unfold js_docker_cmd. rewrite !elem_of_app, !elem_of_cons, elem_of_nil.
    case_bool_decide as Hu; rewrite ?elem_of_cons, ?elem_of_nil; cbn;
      split; intros H; try tauto; intuition discriminate.
  - unfold python_docker_cmd. rewrite !elem_of_app, !elem_of_cons, elem_of_nil.
    assert (Hlast : "--network" ∉
              (if truthy merged_requirements
               then [_select_executor_image source_code processed_test "python" config;
                     "sh"; "-c"; "pip install -r requirements.txt && " ++ pytest_cmd]
               else [_select_executor_image source_code processed_test "python" config;
                     "sh"; "-c"; pytest_cmd])).
    { destruct (truthy _); rewrite !elem_of_cons, elem_of_nil;
        intros [H | [H | [H | [H | []]]]]; try discriminate; now apply Hi. }
    assert (Hcache : "--network" ∉
              (if truthy_id project_id
               then ["-v"; "genai_project_" ++ py_id project_id
                           ++ "_pip_cache:/root/.cache/pip"] else [])).
    { destruct (truthy_id _); rewrite ?elem_of_cons, elem_of_nil;
        intuition discriminate. }
    destruct (bool_decide (execution_mode = UNIT)) eqn:Hu.
    + apply bool_decide_eq_true in Hu.
      destruct merged_requirements as [m|]; cbn [negb andb orb].
      * rewrite bool_decide_true by discriminate. cbn [negb andb orb].
        rewrite elem_of_nil. split; [ | intros (_ & ? & _); discriminate].
        intros H. exfalso. intuition discriminate.
      * rewrite bool_decide_false by (intros H; now apply H). cbn [orb].
        destruct (allow_network config); cbn [negb andb].
        -- rewrite elem_of_nil. split; [ | intros (_ & _ & ?); discriminate].
           intros H. exfalso. intuition discriminate.
        -- rewrite !elem_of_cons. split; [tauto | ]. intros _. do 3 right. left. now left.
    + apply bool_decide_eq_false in Hu. cbn [andb]. rewrite elem_of_nil.
      split; [ | tauto]. intros H. exfalso. intuition discriminate.
Qed.

End NetworkIsolation.

(* ===================================================================== *)
(** * The life of a job, again *)
(* ===================================================================== *)

Section LifecycleExtras.

Variable loads_jest : string -> option JestReport.
Variable loads_mocha : string -> option MochaReport.
Variable raw_decode_mocha : string -> Z -> option MochaReport.

Local Abbreviation execute :=
  (execute_tests_in_docker loads_jest loads_mocha raw_decode_mocha).
Local Abbreviation execute_js :=
  (execute_javascript_tests loads_jest loads_mocha raw_decode_mocha).

Lemma cleanup_other_events env t w e :
  e ∈ events (cleanup env t w) →
  e ∈ events w ∨ (∃ d, e = Rmtree d) ∨ (∃ msg, e = LogError msg).
Proof.
  unfold cleanup. destruct t as [[|c d]|]; try tauto.
  case_bool_decide; try tauto.
  destruct (rmtree_error env); rewrite !events_emit; cbn; intros Hin.
  - destruct Hin as [[Hin | ->] | ->]; eauto.
  - destruct Hin as [Hin | ->]; eauto.
Qed.

Lemma pipeline_events test_code source_code language timeout config env w d e :
  let container := "genai-test-" ++ uuid8 env in
  let detected_language := _detect_language source_code test_code language in
  e ∈ events (snd (if String.eqb detected_language "java"
                   then caught (execute_java_tests timeout d container env w)
                   else if str_in detected_language ["javascript"; "typescript"]
                   then caught (execute_js test_code timeout config container env w)
                   else python_result timeout container env w)) →
  e ∈ events w
  ∨ e = DockerRun container
  ∨ (e = DockerKill container ∧ outcome env = TimeoutExpired).
Proof.
  cbn zeta.
  destruct (String.eqb _ "java"); [ | destruct (str_in _ _)]; rewrite ?snd_caught;
    unfold execute_java_tests, execute_javascript_tests, python_result;
    destruct (outcome env) as [rc out err | | [] msg];
    try destruct (java_summary _); cbn [snd];
    rewrite ?on_timeout_events, ?events_emit; cbn [events]; tauto.
Qed.

(** X16: [docker kill] is issued by [execute_tests_in_docker] only
    when the wait for the container timed out, and then for the container
    of the job. *)
Theorem X16_kill_only_on_timeout test_code source_code language timeout config env w name :
  let w' := snd (execute_tests_in_docker loads_jest loads_mocha raw_decode_mocha
                   test_code source_code language timeout config env w) in
  DockerKill name ∈ events w' →
  DockerKill name ∈ events w
  ∨ (name = "genai-test-" ++ uuid8 env ∧ outcome env = TimeoutExpired).
Proof.
  cbn zeta. unfold execute_tests_in_docker.
  destruct (create_job_dir env w) as [[d | msg d] w1] eqn:Ec.
  - assert (Ew : events w1 = events w).
    { unfold create_job_dir in Ec.
      destruct (truthy _ && truthy _);
        [destruct (makedirs_error env) | destruct (mkdtemp env)];
        injection Ec as _ <-; reflexivity. }
    pose proof (pipeline_events test_code source_code language timeout config env w1 d
                  (DockerKill name)) as Hp. cbn zeta in Hp.
    destruct (if String.eqb _ "java" then _ else _) as [r w2]. cbn [snd] in *.
    intros H. apply cleanup_other_events in H as [H | [[d' H] | [m H]]]; try discriminate.
    apply Hp in H as [H | [H | [H Ho]]]; [left; now rewrite <- Ew | discriminate | right].
    injection H as ->. now split.
  - assert (Ew : events w1 = events w).
    { unfold create_job_dir in Ec.
      destruct (truthy _ && truthy _);
        [destruct (makedirs_error env) | destruct (mkdtemp env)];
        injection Ec as _ _ <- || injection Ec as _ <-; reflexivity. }
    cbn [snd]. intros H.
    apply cleanup_other_events in H as [H | [[d' H] | [m H]]]; try discriminate.
    left. now rewrite <- Ew.
Qed.

Lemma create_job_dir_world env w :
  events (snd (create_job_dir env w)) = events w
  ∧ (∀ p, p ∈ dirs w → p ∈ dirs (snd (create_job_dir env w)))
  ∧ (∀ msg d, fst (create_job_dir env w) = CreateFailed msg d →
              snd (create_job_dir env w) = w).
Proof.
  unfold create_job_dir.
  destruct (truthy _ && truthy _);
    [destruct (makedirs_error env) | destruct (mkdtemp env)]; cbn;
    repeat split; try discriminate; try tauto; set_solver.
Qed.


(** X18: a directory that existed before the call and does not lie
    in the job directory still exists after [execute_tests_in_docker]
    returns. *)
Theorem X18_cleanup_spares_other_directories test_code source_code language timeout config env w p :
  p ∈ dirs w →
  (∀ d, temp_dir_of (fst (create_job_dir env w)) = Some d → under d p = false) →
  p ∈ dirs (snd (execute test_code source_code language timeout config env w)).
Proof.
  intros Hp Hout. unfold execute_tests_in_docker.
  destruct (create_job_dir_world env w) as (_ & Hd & _). specialize (Hd p Hp).
  destruct (create_job_dir env w) as [c w1]. cbn [fst snd] in *.
  assert (Hclean : ∀ w2, p ∈ dirs w2 → p ∈ dirs (cleanup env (temp_dir_of c) w2)).
  { intros w2 H2. unfold cleanup. destruct (temp_dir_of c) as [[|x d]|]; try exact H2.
    case_bool_decide; [ | exact H2].
    destruct (rmtree_error env); rewrite !dirs_emit; cbn [dirs]; [exact H2 | ].
    unfold rmtree. apply elem_of_filter. split; [now apply Hout | exact H2]. }
  destruct c as [d | msg d]; cbn [snd].
  - pose proof (pipeline_keeps_dirs loads_jest loads_mocha raw_decode_mocha
                  test_code source_code language timeout config env w1 d p Hd) as Hk.
    cbn zeta in Hk.
    destruct (if String.eqb _ "java" then _ else _) as [r w2]. cbn [snd] in *.
    now apply Hclean.
  - now apply Hclean.
Qed.

End LifecycleExtras.

(** The theorem at a Python run that times out. *)
Lemma X16_witness :
  DockerKill "genai-test-1a2b3c4d" ∈ events empty_world
  ∨ ("genai-test-1a2b3c4d" = "genai-test-" ++ uuid8 (local_env TimeoutExpired)
     ∧ outcome (local_env TimeoutExpired) = TimeoutExpired).
Proof.
  apply (X16_kill_only_on_timeout no_jest no_mocha no_raw_decode "def test_slow(): pass" ""
           (Some "python") 120 no_config (local_env TimeoutExpired) empty_world).
  refine (bool_decide_unpack _ _). vm_compute. exact I.
Defined.


(** The theorem at a host with an upload directory. *)
Lemma X18_witness :
  "/srv/uploads"
    ∈ dirs (snd (execute_tests_in_docker no_jest no_mocha no_raw_decode
                   "def test_ok(): pass" "" (Some "python") 120 no_config
                   (local_env (Completed 0 "1 passed" "")) busy_world)).
Proof.
  apply (X18_cleanup_spares_other_directories no_jest no_mocha no_raw_decode).
  - change ("/srv/uploads" ∈ ({[ "/srv/uploads" ]} : gset string)).
    now apply elem_of_singleton.
  - intros d [= <-]. reflexivity.
Defined.

(* ===================================================================== *)
(** * Reports of the runners *)
(* ===================================================================== *)

(** ** A Surefire report with an attribute that cannot be read *)

(** X19: when the only Surefire report has a [tests] attribute [n]
    and a [failures] attribute that is not a number, the report is returned,
    its [n] tests count as passed, no failure is recorded, and a run with
    exit code 0 is a success. *)
Theorem X19_unreadable_failures_count_as_passed f root n timeout temp_dir container env w
    stdout stderr :
  endswith ".xml" (rf_name f) = true →
  rf_root f = Some root →
  rr_tests root = AttrInt n →
  rr_failures root = AttrBad →
  outcome env = Completed 0 stdout stderr →
  surefire env = Some [f] →
  ∃ r, fst (execute_java_tests timeout temp_dir container env w) = Returns r
       ∧ test_results_json r
         = Some {| total := n; passed_count := n; failed_count := 0; skipped := 0;
                   failures := []; tests := None |}
       ∧ xml_reports r = Some [rr_xml root]
       ∧ success r = true.
Proof.
  intros Hx Hr Ht Hf Ho Hs.
  assert (E : java_summary (Some [f])
              = ({| total := n; passed_count := n; failed_count := 0; skipped := 0;
                    failures := []; tests := None |}, [rr_xml root])).
  { unfold java_summary. cbn [default from_option]. unfold id.
    change (fold_left read_report [f] (empty_summary, []))
      with (read_report (empty_summary, []) f).
    unfold read_report. rewrite Hx, Hr, Ht. cbn [read_attr]. rewrite Hf.
    cbn [read_attr with_total empty_summary total failed_count skipped failures
         passed_count tests app].
    rewrite Z.add_0_l. do 2 f_equal. lia. }
  unfold execute_java_tests. rewrite Ho, Hs, E. cbn [fst].
  eexists. split; [reflexivity | ].
  cbn [test_results_json xml_reports success total failed_count].
  repeat split. now destruct (0 <? n)%Z.
Qed.

(** The theorem at a report with three tests. *)
Lemma X19_witness :
  ∃ r, fst (execute_java_tests 120 "/tmp/genai_exec_k3x9" "genai-test-1a2b3c4d"
              damaged_env empty_world) = Returns r
       ∧ test_results_json r
         = Some {| total := 3; passed_count := 3; failed_count := 0; skipped := 0;
                   failures := []; tests := None |}
       ∧ xml_reports r = Some ["<testsuite tests='3' failures='one'/>"]
       ∧ success r = true.
Proof.
  apply (X19_unreadable_failures_count_as_passed damaged_report
           {| rr_xml := "<testsuite tests='3' failures='one'/>";
              rr_tests := AttrInt 3; rr_failures := AttrBad;
              rr_errors := AttrAbsent; rr_skipped := AttrAbsent;
              rr_testcases := [] |}
           3 120 "/tmp/genai_exec_k3x9" "genai-test-1a2b3c4d" damaged_env empty_world
           "BUILD SUCCESS" ""); reflexivity.
Defined.

(** ** Where the Jest report is read from *)

Lemma rfind_from_found sub s :
  ∀ i, rfind_from sub s i ≠ (-1)%Z →
    ∃ pre post, s = pre ++ sub ++ post
                ∧ rfind_from sub s i = Z.of_nat (i + String.length pre).
Proof.
  induction s as [|c s IH]; intros i; cbn [rfind_from].
  - destruct (String.prefix sub "") eqn:E; [ | congruence]. intros _.
    apply prefix_inv in E as [post E]. exists "", post. split; [exact E | ].
    cbn. now rewrite Nat.add_0_r.
  - destruct (Z.eqb_spec (rfind_from sub s (S i)) (-1)) as [Hl | Hl].
    + destruct (String.prefix sub (String c s)) eqn:E; [ | congruence]. intros _.
      apply prefix_inv in E as [post E]. exists "", post. split; [exact E | ].
      cbn. now rewrite Nat.add_0_r.
    + intros _. apply IH in Hl as (pre & post & Hs & Hf).
      exists (String c pre), post. split; [now rewrite append_cons, <- Hs | ].
      rewrite Hf. cbn [String.length]. f_equal. lia.
Qed.

Section JestJson.

Variable loads_jest : string -> option JestReport.

(** X20: a report returned by [_parse_jest_json] was decoded from an
    end part of the output that starts with an opening brace and holds one
    of the keys [numFailedTestSuites] and [testResults]. *)
Theorem X20_parse_jest_json_source raw data :
  _parse_jest_json loads_jest raw = Some data →
  ∃ pre blob,
    raw = pre ++ blob
    ∧ startswith "{" blob = true
    ∧ (contains (quoted "numFailedTestSuites") blob = true
       ∨ contains (quoted "testResults") blob = true)
    ∧ loads_jest blob = Some data.
Proof.
  unfold _parse_jest_json.
  set (k1 := quoted "numFailedTestSuites"). set (k2 := quoted "testResults").
  assert (G : ∀ key, find key raw ≠ (-1)%Z →
            (if (rfind_before "{" raw (find key raw) =? -1)%Z then None
             else loads_jest (sdrop (Z.to_nat (rfind_before "{" raw (find key raw))) raw))
            = Some data →
            ∃ pre blob, raw = pre ++ blob ∧ startswith "{" blob = true
                        ∧ contains key blob = true ∧ loads_jest blob = Some data).
  { intros key Hk. unfold find in *.
    apply find_from_found in Hk as (pre' & post' & Hraw & ->). cbn [Nat.add].
    unfold rfind_before, rfind. rewrite !Nat2Z.id.
    assert (Est : stake (String.length pre') raw = pre') by (rewrite Hraw; apply stake_append).
    rewrite Est.
    destruct (Z.eqb_spec (rfind_from "{" pre' 0) (-1)) as [Hb | Hb]; [discriminate|].
    apply rfind_from_found in Hb as (pre & post & Hpre & ->). cbn [Nat.add].
    rewrite Nat2Z.id. intros Hl.
    assert (Eraw : raw = pre ++ ("{" ++ post ++ key ++ post')).
    { rewrite Hraw, Hpre. now rewrite !append_assoc. }
    exists pre, ("{" ++ post ++ key ++ post'). split; [exact Eraw | ].
    rewrite Eraw, sdrop_append in Hl. split; [apply (prefix_append "{") | split; [ | exact Hl]].
    rewrite <- (append_assoc "{" post). apply contains_inside. }
  cbv zeta. destruct (find k1 raw =? -1)%Z eqn:H1.
  - destruct (find k2 raw =? -1)%Z eqn:H2; [discriminate|].
    intros H. apply Z.eqb_neq in H2.
    destruct (G k2 H2 H) as (pre & blob & ? & ? & ? & ?). exists pre, blob. tauto.
  - rewrite H1. intros H. apply Z.eqb_neq in H1.
    destruct (G k1 H1 H) as (pre & blob & ? & ? & ? & ?). exists pre, blob. tauto.
Qed.

End JestJson.

(** The theorem at the output of a Jest run after the echo of the command. *)
Lemma X20_witness :
  ∃ pre blob,
    "> jest --json" ++ NL ++ skipped_only_json = pre ++ blob
    ∧ startswith "{" blob = true
    ∧ (contains (quoted "numFailedTestSuites") blob = true
       ∨ contains (quoted "testResults") blob = true)
    ∧ loads_skipped_only blob = Some skipped_only.
Proof.
  apply (X20_parse_jest_json_source loads_skipped_only ("> jest --json" ++ NL ++ skipped_only_json)
           skipped_only).
  vm_compute. reflexivity.
Defined.

(** ** Summaries of the JavaScript pipeline *)

Lemma status_cases (s : Status) : s = passed ∨ s = failed.
Proof. destruct s; tauto. Qed.

Lemma count_by_status (l : list TestCase) :
  length l
  = (length (filter (λ t, tc_status t = passed) l)
     + length (filter (λ t, tc_status t = failed) l))%nat.
Proof.
  induction l as [|t l IH]; [reflexivity|].
  rewrite !filter_cons. destruct (tc_status t);
    repeat (destruct (decide _); try congruence); cbn [length]; lia.
Qed.

Lemma failures_bound (l : list TestCase) raw :
  (length (failures (_build_js_test_results l raw))
   <= length (filter (λ t, tc_status t = failed) l))%nat.
Proof.
  unfold _build_js_test_results. cbn [failures].
  induction l as [|t l IH]; [reflexivity|].
  cbn [mbind list_bind]. rewrite length_app, filter_cons.
  destruct (tc_status t); destruct (decide _) as [Hd | Hd]; try congruence;
    cbn [length]; [lia | ].
  destruct (tc_error t) as [[|c e]|]; cbn [length]; lia.
Qed.

(** X21: in the summary built by [_build_js_test_results], [failed]
    is the number of failed test cases, the [failures] list is not longer
    than that, and each of its entries is the name and the non-empty error
    of a failed test case. *)
Theorem X21_build_js_test_results_counts tests_ raw_output :
  let s := _build_js_test_results tests_ raw_output in
  failed_count s = Z.of_nat (length (filter (λ t, tc_status t = failed) tests_))
  ∧ (Z.of_nat (length (failures s)) <= failed_count s)%Z
  ∧ (∀ f, f ∈ failures s →
       ∃ t e, t ∈ tests_ ∧ tc_status t = failed ∧ tc_error t = Some e ∧ e ≠ ""
              ∧ f = tc_name t ++ ": " ++ e).
Proof.
  cbn zeta. unfold _build_js_test_results. cbn [failed_count failures].
  assert (E : (Z.of_nat (length tests_)
               - Z.of_nat (length (filter (λ t, tc_status t = passed) tests_)))%Z
              = Z.of_nat (length (filter (λ t, tc_status t = failed) tests_))).
  { rewrite (count_by_status tests_) at 1. lia. }
  rewrite E. split; [reflexivity | split].
  - apply inj_le. apply (failures_bound tests_ raw_output).
  - intros f Hf. apply list_elem_of_bind in Hf as (t & Hf & Ht).
    destruct (tc_status t) eqn:Es; [now apply elem_of_nil in Hf|].
    destruct (tc_error t) as [[|c e]|] eqn:Ee; try now apply elem_of_nil in Hf.
    apply list_elem_of_singleton in Hf. exists t, (String c e).
    repeat split; try assumption. discriminate.
Qed.


(** ** Summaries of a Jest report *)

(** X22: the summary of a Jest report counts every test of every
    suite; [passed] counts the tests whose status is [passed] and [failed]
    all the others. *)
Theorem X22_jest_summary_counts data raw :
  let s := _build_js_test_results (_jest_json_to_tests data) raw in
  total s = Z.of_nat (length (jest_tests data))
  ∧ passed_count s
    = Z.of_nat (length (filter (λ t, jt_status t = Some "passed") (jest_tests data)))
  ∧ failed_count s
    = Z.of_nat (length (filter (λ t, jt_status t ≠ Some "passed") (jest_tests data))).
Proof.
  cbn zeta. rewrite jest_tests_cases.
  unfold _build_js_test_results. cbn [total passed_count failed_count].
  rewrite length_fmap.
  assert (E : length (filter (λ t, tc_status t = passed) (jest_case <$> jest_tests data))
              = length (filter (λ t, jt_status t = Some "passed") (jest_tests data))).
  { induction (jest_tests data) as [|t l IH]; [reflexivity|].
    cbn [fmap list_fmap]. cbn [fmap] in IH. rewrite !filter_cons, jest_case_status.
    destruct (decide (jt_status t = Some "passed")) as [Hp | Hp].
    - rewrite bool_decide_true by exact Hp. rewrite decide_True by reflexivity.
      cbn [length]. now rewrite IH.
    - rewrite bool_decide_false by exact Hp. rewrite decide_False by discriminate.
      exact IH. }
  rewrite E. repeat split.
  assert (Hc : ∀ l : list JestTest,
            length l = (length (filter (λ t, jt_status t = Some "passed") l)
                        + length (filter (λ t, jt_status t ≠ Some "passed") l))%nat).
  { induction l as [|t l IH]; [reflexivity|]. rewrite !filter_cons.
    destruct (decide (jt_status t = Some "passed")) as [Hp | Hp].
    - rewrite decide_False by tauto. cbn [length]. lia.
    - rewrite decide_True by exact Hp. cbn [length]. lia. }
  rewrite (Hc (jest_tests data)) at 1. lia.
Qed.


Lemma or_else_nonempty a b : b ≠ "" → or_else a b ≠ "".
Proof.
  intros Hb. unfold or_else. destruct a as [s|]; [ | exact Hb].
  destruct s; cbn; [exact Hb | discriminate].
Qed.

Lemma mocha_failure_error t :
  ∃ c e, tc_error (mocha_failure_case t) = Some (String c e).
Proof.
  unfold mocha_failure_case. cbn [tc_error].
  match goal with |- context [Some ?m] => assert (H : m ≠ "") end.
  { apply or_else_nonempty, or_else_nonempty. discriminate. }
  match goal with |- context [Some ?m] => destruct m as [|c e] end; [congruence | eauto].
Qed.

Lemma filter_status_fmap {A} (f : A → TestCase) (st : Status) (l : list A) :
  (∀ x, tc_status (f x) = st) →
  ∀ st', length (filter (λ t, tc_status t = st') (f <$> l))
         = if decide (st = st') then length l else 0%nat.
Proof.
  intros Hf st'. induction l as [|x l IH]; [now destruct (decide _)|].
  cbn [fmap list_fmap]. rewrite filter_cons, Hf.
  destruct (decide (st = st')); cbn [length]; now rewrite IH.
Qed.

Lemma mocha_failure_lines (l : list MochaTest) raw :
  length (failures (_build_js_test_results (mocha_failure_case <$> l) raw)) = length l.
Proof.
  unfold _build_js_test_results. cbn [failures].
  induction l as [|t l IH]; [reflexivity|].
  cbn [fmap list_fmap mbind list_bind]. rewrite length_app, IH.
  destruct (mocha_failure_error t) as (c & e & ->).
  reflexivity.
Qed.

Lemma mocha_pass_lines (l : list MochaTest) raw :
  failures (_build_js_test_results (mocha_pass_case <$> l) raw) = [].
Proof.
  unfold _build_js_test_results. cbn [failures].
  induction l as [|t l IH]; [reflexivity | exact IH].
Qed.

Lemma mocha_pending_lines (l : list MochaTest) raw :
  length (failures (_build_js_test_results (mocha_pending_case <$> l) raw)) = length l.
Proof.
  unfold _build_js_test_results. cbn [failures].
  induction l as [|t l IH]; [reflexivity|].
  cbn [fmap list_fmap mbind list_bind]. rewrite length_app, IH. reflexivity.
Qed.

Lemma failures_app (a b : list TestCase) raw :
  failures (_build_js_test_results (a ++ b) raw)
  = (failures (_build_js_test_results a raw) ++ failures (_build_js_test_results b raw))%list.
Proof.
  unfold _build_js_test_results. cbn [failures].
  induction a as [|t a IH]; [reflexivity|].
  cbn [app mbind list_bind]. now rewrite IH, app_assoc.
Qed.

(** X23: the summary of a Mocha report counts its passes as passed,
    its failures and its pending tests as failed, and holds one failure
    line for each failed test. *)
Theorem X23_mocha_summary_counts data raw :
  let s := _build_js_test_results (_mocha_json_to_tests data) raw in
  let n_failed := (length (mocha_failures data) + length (pending data))%nat in
  total s = Z.of_nat (length (passes data) + n_failed)
  ∧ passed_count s = Z.of_nat (length (passes data))
  ∧ failed_count s = Z.of_nat n_failed
  ∧ length (failures s) = n_failed.
Proof.
  cbn zeta.
  assert (Ep : length (filter (λ t, tc_status t = passed) (_mocha_json_to_tests data))
               = length (passes data)).
  { unfold _mocha_json_to_tests. rewrite !filter_app, !length_app.
    rewrite (filter_status_fmap mocha_pass_case passed) by reflexivity.
    rewrite (filter_status_fmap mocha_failure_case failed) by reflexivity.
    rewrite (filter_status_fmap mocha_pending_case failed) by reflexivity.
    repeat (destruct (decide _); try congruence). lia. }
  assert (El : length (_mocha_json_to_tests data)
               = (length (passes data)
                  + (length (mocha_failures data) + length (pending data)))%nat).
  { unfold _mocha_json_to_tests. now rewrite !length_app, !length_fmap. }
  unfold _build_js_test_results at 1 2 3. cbn [total passed_count failed_count].
  rewrite Ep, El. repeat split; try lia.
  unfold _mocha_json_to_tests.
  rewrite !failures_app, !length_app, mocha_failure_lines, mocha_pass_lines,
    mocha_pending_lines.
  reflexivity.
Qed.


(** ** The synthetic entry of the Mocha branch *)

Lemma length_stake n s : (String.length (stake n s) <= n)%nat.
Proof.
  revert s. induction n as [|n IH]; intros [|c s]; cbn [stake String.length]; try lia.
  specialize (IH s). lia.
Qed.

(** X24: the entry that the Mocha branch makes for a suite that did
    not run always carries an error text, not empty and at most 2000
    characters long. *)
Theorem X24_suite_failed_entry_error raw :
  ∃ e, tc_error (suite_failed_entry raw) = Some e
       ∧ e ≠ "" ∧ (String.length e <= 2000)%nat.
Proof.
  unfold suite_failed_entry. cbn [tc_error]. eexists. split; [reflexivity | split].
  - match goal with |- stake _ ?d ≠ _ => assert (H : d ≠ "") end.
    { apply or_else_nonempty. discriminate. }
    match goal with |- stake _ ?d ≠ _ => destruct d end; [congruence | discriminate].
  - apply length_stake.
Qed.

(* ===================================================================== *)
(** * The pytest output, case by case *)
(* ===================================================================== *)

(** ** What the verdict group of a pytest line holds *)

Lemma verdict_last src : reads_verdict src (run re_verdict Some).
Proof.
  intros st res H (pre & Hsrc & Hpos). unfold re_verdict in H. cbn [run] in H.
  apply alts_litI_inv in H as (a & w & st' & Ha & H & E & Hw & P).
  injection H as <-. cbn [m_pos m_groups]. exists a, w.
  split; [exact Ha | split; [exact Hw | split]].
  - unfold group. cbn [mo_groups mo_src span_of Nat.eqb]. f_equal.
    rewrite Hsrc, E, Hpos, P, Hpos. rewrite sdrop_append.
    replace (String.length pre + String.length w - String.length pre)%nat
      with (String.length w) by lia.
    apply stake_append.
  - exists pre, (m_rest st'). now rewrite Hsrc, E.
Qed.

Lemma verdict_after src r k : reads_verdict src k → reads_verdict src (run r k).
Proof.
  intros Hk st res H (pre & Hsrc & Hpos).
  apply run_reaches_pos in H as (st' & H & pre' & E & P).
  apply (Hk st' res H). exists (pre ++ pre').
  rewrite Hsrc, E, append_assoc, length_append, P, Hpos. now split.
Qed.

Lemma verdict_of_match r prev s m :
  reads_verdict s (run r Some) →
  match_here r prev s = Some m →
  ∃ a w, a ∈ ["PASSED"; "FAILED"; "ERROR"] ∧ folded a w ∧ group 2 m = Some w
         ∧ ∃ pre post, s = pre ++ w ++ post.
Proof.
  intros Hr. unfold match_here. destruct (run r Some _) as [res|] eqn:E; [ | discriminate].
  intros [= <-]. apply (Hr _ _ E). exists "". cbn. now split.
Qed.

Lemma pytest_node_verdict s : reads_verdict s (run re_pytest_node Some).
Proof.
  unfold re_pytest_node. cbn [Seqs].
  repeat match goal with
         | |- reads_verdict _ (run (Seq ?a ?b) ?k) =>
             change (run (Seq a b) k) with (run a (run b k)); apply verdict_after
         end.
  apply verdict_last.
Qed.

Lemma pytest_name_verdict s : reads_verdict s (run re_pytest_name Some).
Proof.
  unfold re_pytest_name. cbn [Seqs].
  repeat match goal with
         | |- reads_verdict _ (run (Seq ?a ?b) ?k) =>
             change (run (Seq a b) k) with (run a (run b k)); apply verdict_after
         end.
  apply verdict_last.
Qed.

Local Abbreviation consistent t :=
  (tc_duration t = 0%Z ∧ (tc_status t = passed ↔ tc_error t = None)).

(** In a line of ASCII characters the verdict group holds one of the
    three words, up to the case of its letters. *)
Lemma pytest_line_verdict line m :
  is_ascii line = true →
  search re_pytest_node line = Some m ∨ search re_pytest_name line = Some m →
  ∃ w, group 2 m = Some w ∧ upper w ∈ ["PASSED"; "FAILED"; "ERROR"].
Proof.
  intros Ha H.
  assert (Hv : ∃ pre0 a w, a ∈ ["PASSED"; "FAILED"; "ERROR"] ∧ folded a w
                           ∧ group 2 m = Some w
                           ∧ ∃ pre post, line = pre0 ++ pre ++ w ++ post).
  { destruct H as [H | H]; apply search_from_found in H as (pre0 & prev & Hl & H);
      [eapply verdict_of_match in H; [ | apply pytest_node_verdict]
      | eapply verdict_of_match in H; [ | apply pytest_name_verdict]];
      destruct H as (a & w & Ha' & Hw & Hg & pre & post & Hs);
      exists pre0, a, w; repeat split; try assumption;
      exists pre, post; now rewrite Hl, Hs. }
  destruct Hv as (pre0 & a & w & Ha' & Hw & Hg & pre & post & Hl).
  exists w. split; [exact Hg | ].
  rewrite Hl, !is_ascii_append in Ha.
  apply andb_true_iff in Ha as [_ Ha]. apply andb_true_iff in Ha as [_ Ha].
  apply andb_true_iff in Ha as [Ha _].
  destruct (folded_ascii _ _ Hw Ha) as [_ Hu]. rewrite (upper_ascii w Ha), Hu.
  repeat (apply elem_of_cons in Ha' as [-> | Ha'];
          [refine (bool_decide_unpack _ _); vm_compute; exact I | ]).
  now apply elem_of_nil in Ha'.
Qed.

Lemma pytest_line_consistent line :
  is_ascii line = true → Forall (λ t, consistent t) (pytest_line line).
Proof.
  intros Ha. unfold pytest_line.
  pose proof (pytest_line_verdict line) as H.
  destruct (search re_pytest_node line) as [m|] eqn:E1;
    [ | destruct (search re_pytest_name line) as [m|] eqn:E2; [ | constructor]].
  all: destruct (H m Ha) as (w & Hg & Hw); [tauto | ];
       constructor; [ | constructor]; cbn [tc_duration tc_status tc_error];
       unfold group_or; rewrite Hg; cbn [default from_option]; unfold id;
       repeat (apply elem_of_cons in Hw as [-> | Hw]; [cbn; split; [reflexivity | split; congruence] | ]);
       now apply elem_of_nil in Hw.
Qed.

Lemma is_ascii_join sep ls l : is_ascii (join sep ls) = true → l ∈ ls → is_ascii l = true.
Proof.
  induction ls as [|x ls IH]; intros Ha Hl; [now apply elem_of_nil in Hl|].
  destruct ls as [|y ls].
  - apply list_elem_of_singleton in Hl as ->. exact Ha.
  - rewrite join_cons, !is_ascii_append in Ha.
    apply andb_true_iff in Ha as [Hx Ha]. apply andb_true_iff in Ha as [_ Ha].
    apply elem_of_cons in Hl as [-> | Hl]; [exact Hx | now apply IH].
Qed.

(** X25: on an output of ASCII characters, every test case that
    [parse_pytest_output] returns has duration 0 and carries an error text
    exactly when it is not passed. *)
Theorem X25_pytest_cases_consistent output_ docker_data :
  is_ascii output_ = true →
  Forall (λ t, tc_duration t = 0%Z ∧ (tc_status t = passed ↔ tc_error t = None))
         (parse_pytest_output output_ docker_data).
Proof.
  intros Ha. unfold parse_pytest_output.
  assert (H1 : Forall (λ t, consistent t) (l ← split LF output_; pytest_line l)).
  { apply Forall_forall. intros t Ht. apply list_elem_of_bind in Ht as (l & Ht & Hl).
    assert (Hal : is_ascii l = true).
    { apply (is_ascii_join NL (split LF output_)); [now rewrite join_split | exact Hl]. }
    pose proof (pytest_line_consistent l Hal) as H. rewrite Forall_forall in H. now apply H. }
  destruct (nonempty_list (l ← split LF output_; pytest_line l)); cbn zeta.
  - destruct (nonempty_list _) eqn:E; [exact H1 | ].
    apply nonempty_list_false in E. rewrite E in H1.
    constructor; [ | constructor]. cbn. destruct (_ =? _)%Z; split; (reflexivity || split; congruence).
  - destruct (search re_pytest_summary output_) as [m|].
    + match goal with |- context [nonempty_list ?l] =>
        assert (H2 : Forall (λ t, consistent t) l) end.
      { apply Forall_app. split; apply Forall_fmap, Forall_forall; intros i _; cbn;
          split; (reflexivity || split; congruence). }
      destruct (nonempty_list _); [exact H2 | ].
      constructor; [ | constructor]. cbn.
      destruct (_ =? _)%Z; split; (reflexivity || split; congruence).
    + destruct (nonempty_list _); [exact H1 | ].
      constructor; [ | constructor]. cbn.
      destruct (_ =? _)%Z; split; (reflexivity || split; congruence).
Qed.

(** The theorem at the output of a run with one passed and one failed test. *)
Lemma X25_witness :
  Forall (λ t, tc_duration t = 0%Z ∧ (tc_status t = passed ↔ tc_error t = None))
         (parse_pytest_output
            ("test.py::test_add PASSED" ++ NL ++ "test.py::test_sub FAILED" ++ NL)
            (synthetic_failure "")).
Proof. apply X25_pytest_cases_consistent. reflexivity. Defined.

(* ===================================================================== *)
(** * What the route handler stores *)
(* ===================================================================== *)

(** ** The route handler on the results of the executors *)

(** The description that the route handler stores is the parsed one. *)
Local Abbreviation described t :=
  (or_else (Some (tc_description t)) (tc_name t) = tc_description t).

Lemma described_by_name t : tc_description t = tc_name t → described t.
Proof. intros ->. unfold or_else. now destruct (nonempty _). Qed.

Lemma jest_text_described raw : Forall (λ t, described t) (_parse_jest_text raw).
Proof.
  unfold _parse_jest_text. apply Forall_forall. intros t Ht.
  apply list_elem_of_bind in Ht as (l & Ht & _). unfold jest_text_line in Ht.
  destruct (rematch re_jest_passed _); [ | destruct (rematch re_jest_failed _)];
    try (now apply elem_of_nil in Ht);
    apply list_elem_of_singleton in Ht; subst t; now apply described_by_name.
Qed.

Lemma jasmine_described lines : ∀ skip, Forall (λ t, described t) (jasmine_go skip lines).
Proof.
  induction lines as [|l lines IH]; intros skip; cbn [jasmine_go]; [constructor|].
  destruct skip as [|n]; [ | apply IH].
  destruct (rematch re_jasmine_passed _); [ | destruct (rematch re_jasmine_failed _)];
    try apply IH; (constructor; [now apply described_by_name | apply IH]).
Qed.

Lemma jest_json_described data : Forall (λ t, described t) (_jest_json_to_tests data).
Proof.
  apply Forall_forall. intros t Ht. unfold _jest_json_to_tests in Ht.
  apply list_elem_of_bind in Ht as (suite & Ht & _).
  apply list_elem_of_bind in Ht as (jt & Ht & _).
  apply list_elem_of_singleton in Ht. subst t. now apply described_by_name.
Qed.

Lemma mocha_json_described data : Forall (λ t, described t) (_mocha_json_to_tests data).
Proof.
  unfold _mocha_json_to_tests. rewrite !Forall_app. repeat split;
    apply Forall_fmap, Forall_forall; intros t _; now apply described_by_name.
Qed.

Lemma described_fmap (l : list TestCase) :
  Forall (λ t, described t) l →
  (λ t, {| tc_name := tc_name t; tc_status := tc_status t;
           tc_description := or_else (Some (tc_description t)) (tc_name t);
           tc_duration := tc_duration t; tc_error := tc_error t |}) <$> l = l.
Proof.
  induction 1 as [|x xs Hx _ IH]; [reflexivity|].
  cbn [fmap list_fmap]. cbn [fmap] in IH. rewrite IH, Hx. now destruct x.
Qed.

Section RouteExtras.

Variable loads_jest : string -> option JestReport.
Variable loads_mocha : string -> option MochaReport.
Variable raw_decode_mocha : string -> Z -> option MochaReport.

Lemma js_parsed_described fw raw :
  Forall (λ t, described t) (js_parsed_tests loads_jest loads_mocha raw_decode_mocha fw raw).
Proof.
  destruct fw; cbn [js_parsed_tests].
  - unfold parse_jest.
    repeat match goal with
           | |- context [if ?b then _ else _] => destruct b
           | |- context [match ?o with Some _ => _ | None => _ end] => destruct o
           end;
      first [apply jest_json_described | apply jest_text_described | constructor].
  - unfold parse_mocha.
    repeat match goal with
           | |- context [if ?b then _ else _] => destruct b
           | |- context [match ?o with Some _ => _ | None => _ end] => destruct o
           end;
      first [apply mocha_json_described | apply jest_text_described | constructor];
      first [reflexivity | constructor].
  - unfold parse_jasmine. destruct (nonempty_list _);
      [apply jasmine_described | apply jest_text_described].
Qed.

(** X26: from a result of the JavaScript pipeline the route handler
    derives exactly the test cases that the pipeline parsed. *)
Theorem X26_route_keeps_js_tests fw returncode stdout stderr :
  route_parsed_tests (js_result loads_jest loads_mocha raw_decode_mocha fw returncode stdout stderr)
  = js_parsed_tests loads_jest loads_mocha raw_decode_mocha fw (stdout ++ NL ++ stderr).
Proof.
  unfold js_result, route_parsed_tests. cbn [test_results_json].
  pose proof (js_parsed_described fw (stdout ++ NL ++ stderr)) as Hd.
  set (parsed := js_parsed_tests _ _ _ fw (stdout ++ NL ++ stderr)) in *.
  unfold _build_js_test_results. cbn [tests failures passed_count].
  destruct parsed as [|t ts]; [reflexivity|].
  exact (described_fmap _ Hd).
Qed.

End RouteExtras.


(** ** The failure lines of the Java pipeline, read back by the route *)

Lemma split_once_spec sep a b :
  count_char sep a = 0%nat →
  split_once sep (a ++ String sep b) = (a, Some b).
Proof.
  induction a as [|c a IH]; intros H.
  - rewrite append_nil. cbn [split_once]. now rewrite Ascii.eqb_refl.
  - rewrite append_cons. cbn [split_once]. cbn [count_char] in H.
    destruct (Ascii.eqb c sep); [discriminate|]. now rewrite (IH H).
Qed.

(** X27: a failure line that the Java pipeline writes for a test
    case is read back by the route handler as a failed test case named
    [classname.name], with the stripped message as its error, when class
    name and test name hold no colon. *)
Theorem X27_java_failure_round_trip tc elem fallback :
  (te_failure tc = Some elem ∧ fallback = "Assertion Failed")
  ∨ (te_failure tc = None ∧ te_error tc = Some elem ∧ fallback = "Error") →
  let test_id := py_str (te_classname tc) ++ "." ++ py_str (te_name tc) in
  count_char ":" test_id = 0%nat →
  legacy_failure <$> failure_line tc
  = [ {| tc_name := test_id; tc_status := failed; tc_duration := 0;
         tc_description := "Java Test Case";
         tc_error := Some (strip (or_else (or_opt (me_message elem) (me_text elem))
                                          fallback)) |} ].
Proof.
  intros Hcase test_id Hid.
  assert (E : failure_line tc
              = [test_id ++ ": " ++ or_else (or_opt (me_message elem) (me_text elem)) fallback]).
  { unfold failure_line, test_id.
    destruct Hcase as [[-> ->] | (-> & -> & ->)]; now rewrite !append_assoc. }
  rewrite E. cbn [fmap list_fmap]. unfold legacy_failure.
  change (test_id ++ ": " ++ ?m) with (test_id ++ String ":" (String " " m)).
  rewrite (split_once_spec ":" test_id _ Hid). cbn [default from_option].
  f_equal.
Qed.

(** The theorem at a failed JUnit test. *)
Lemma X27_witness :
  legacy_failure <$> failure_line failed_testcase
  = [ {| tc_name := "com.test.CalculatorTest.testDivide"; tc_status := failed;
         tc_duration := 0; tc_description := "Java Test Case";
         tc_error := Some "expected: <2> but was: <3>" |} ].
Proof.
  apply (X27_java_failure_round_trip failed_testcase
           {| me_message := Some "expected: <2> but was: <3>"; me_text := None |}
           "Assertion Failed").
  - left. split; reflexivity.
  - reflexivity.
Defined.

(** ** Scenarios with an empty title *)

Lemma contains_empty s : contains "" s = true.
Proof. unfold contains, find. now destruct s. Qed.

(** X28: when the normalised test name or the normalised title of
    the first scenario is empty, [match_test_to_scenario] returns the first
    scenario, whatever the other text. *)
Theorem X28_match_test_to_scenario_empty test_name scenario rest :
  normalized_test test_name = "" ∨ normalized_title (sc_title scenario) = "" →
  match_test_to_scenario test_name (scenario :: rest) = Some scenario.
Proof.
  intros H. unfold match_test_to_scenario. cbn [List.find].
  destruct H as [-> | ->]; rewrite contains_empty; [reflexivity | now rewrite orb_true_r].
Qed.

(** The theorem at the test name [test_]. *)
Lemma X28_witness :
  match_test_to_scenario "test_"
    [ {| sc_title := "rejects an expired coupon"; sc_description := None;
         sc_category := None; sc_code := None |} ]
  = Some {| sc_title := "rejects an expired coupon"; sc_description := None;
            sc_category := None; sc_code := None |}.
Proof. apply X28_match_test_to_scenario_empty. left. reflexivity. Defined.

(* ===================================================================== *)
(** * The builder of Java test classes, checked *)
(* ===================================================================== *)

(** ** The imports of a built Java test class *)

Lemma contains_join x (L : list string) : x ∈ L → contains x (join NL L) = true.
Proof.
  induction L as [|l L IH]; intros H; [now apply elem_of_nil in H|].
  destruct L as [|l' L].
  - apply list_elem_of_singleton in H. subst. cbn [join String.concat].
    rewrite <- (append_empty_r l) at 2. apply (contains_inside l "" "").
  - rewrite join_cons. apply elem_of_cons in H as [-> | H].
    + apply (contains_inside l "").
    + apply IH, contains_found in H as (pre & post & ->).
      replace (l ++ NL ++ pre ++ x ++ post) with ((l ++ NL ++ pre) ++ x ++ post)
        by now rewrite !append_assoc.
      apply contains_inside.
Qed.

(** X29: the import lines of a built Java test class are in ascending
    order without repetition, hold the two JUnit imports and one line for
    each import of the metadata, and each of them is part of the class text. *)
Theorem X29_build_test_class_imports metadata scenarios :
  StronglySorted str_le (import_lines metadata)
  ∧ NoDup (import_lines metadata)
  ∧ "import org.junit.jupiter.api.Test;" ∈ import_lines metadata
  ∧ "import static org.junit.jupiter.api.Assertions.*;" ∈ import_lines metadata
  ∧ (∀ imp, imp ∈ jm_imports metadata → "import " ++ imp ++ ";" ∈ import_lines metadata)
  ∧ (∀ line, line ∈ import_lines metadata →
       contains line (build_test_class metadata scenarios) = true).
Proof.
  unfold import_lines.
  match goal with |- context [sorted ?s] => destruct (sorted_spec s) as (Hs & Hn & Hm) end.
  split; [exact Hs | split; [exact Hn | ]].
  split; [ | split; [ | split]].
  - apply Hm, elem_of_union_l, elem_of_union_r. now apply elem_of_singleton.
  - apply Hm, elem_of_union_r. now apply elem_of_singleton.
  - intros imp Hi. apply Hm. apply elem_of_union_l, elem_of_union_l, elem_of_list_to_set.
    apply list_elem_of_fmap. eauto.
  - intros line Hl. unfold build_test_class. apply contains_join.
    apply elem_of_app. right. apply elem_of_app. left. exact Hl.
Qed.

(* ===================================================================== *)
(** * Worked examples *)
(* ===================================================================== *)

Example splitlines_ex1 : splitlines ("a" ++ String LF "" ++ "b" ++ String LF "") = ["a"; "b"].
Proof. reflexivity. Qed.

Example splitlines_ex2 :
  splitlines ("a" ++ String CR (String LF "") ++ String LF "" ++ "b") = ["a"; ""; "b"].
Proof. reflexivity. Qed.

Example strip_ex : strip "  a b  " = "a b".
Proof. reflexivity. Qed.

Example replace_ex : replace "test_" "" "test_add_two" = "add_two".
Proof. reflexivity. Qed.

Example find_ex : find "cd" "abcdcd" = 2%Z /\ rfind "cd" "abcdcd" = 4%Z /\ find "x" "abc" = (-1)%Z.
Proof. repeat split. Qed.

Example str_of_Z_ex : str_of_Z 120 = "120" /\ str_of_Z (-1) = "-1".
Proof. split; reflexivity. Qed.

Example re_ex1 :
  group 1 <$> search (Seqs [Lit "from"; Some1 is_space; Group 1 (Some1 is_word);
                             Some1 is_space; Lit "import"]) "x = 1; from app import y"
  = Some (Some "app").
Proof. reflexivity. Qed.

Example re_ex2 :
  sub (Seq (Lit "a") (Some1 is_digit)) (fun m => "<" ++ group0 m ++ ">") "a1 b a22a3"
  = "<a1> b <a22><a3>".
Proof. reflexivity. Qed.

Example re_ex3 :
  group 1 <$> rematch (Seqs [Group 1 (PlusLazy (Chr dot));
                              Opt (Seqs [Some1 is_space; Lit "("; Some1 is_digit; Lit ")"]); Eos])
                      "adds two (12)"
  = Some (Some "adds two").
Proof. reflexivity. Qed.

Example detect_java_ex :
  _detect_language ("import java.util.List;" ++ NL ++ "public class A {}") "" (Some "Java")
  = "java".
Proof. vm_compute. reflexivity. Qed.

Example detect_java_heuristic_ex :
  _detect_language ("import java.util.List;" ++ NL ++ "public" ++ NL ++ "class A {}") "" None
  = "java".
Proof. vm_compute. reflexivity. Qed.

Example detect_js_ex :
  _detect_language "function add(a, b) { return a + b }" "test('adds', () => {})" None
  = "javascript".
Proof. vm_compute. reflexivity. Qed.

Example detect_default_ex : _detect_language "def add(a, b): return a + b" "" None = "python".
Proof. vm_compute. reflexivity. Qed.

Example merge_ex1 :
  _merge_requirements (Some ("Flask==2.0" ++ NL ++ "# pinned" ++ NL ++ "requests"))
                      ("requests" ++ NL ++ "PyYAML")
  = Some ("Flask==2.0" ++ NL ++ "# pinned" ++ NL ++ "requests" ++ NL ++ "PyYAML").
Proof. vm_compute. reflexivity. Qed.

Example merge_ex2 : _merge_requirements None "" = None.
Proof. vm_compute. reflexivity. Qed.

Example auto_detect_ex :
  _auto_detect_pip_requirements []
    (fun _ => Some {| walk_imports :=
                        [Import [Alias "yaml" None; Alias "os.path" None];
                         ImportFrom (Some "bs4") [Alias "BeautifulSoup" None] 0;
                         ImportFrom (Some "utils") [Alias "x" None] 1];
                      top_defs := []; loaded_names := []; source_attrs := [] |})
    "import yaml, os.path" None
  = "beautifulsoup4" ++ NL ++ "PyYAML".
Proof. vm_compute. reflexivity. Qed.

Example safe_rewrite_ex :
  _safe_rewrite_imports_to_source
    ("from app import helper" ++ NL ++ "from flask import Flask" ++ NL)
  = "from source import helper" ++ NL ++ "from flask import Flask" ++ NL.
Proof. vm_compute. reflexivity. Qed.

Example patch_rewrite_ex :
  _rewrite_patch_targets_to_source "@patch('main.load') def t(): patch( 'os.x')"
  = "@patch('source.load') def t(): patch( 'os.x')".
Proof. vm_compute. reflexivity. Qed.

Example fix_with_ex :
  _fix_multiline_with_statements
    ("with a()," ++ NL ++ "     b() as c:" ++ NL ++ "    pass")
  = "with a(), \" ++ NL ++ "     b() as c:" ++ NL ++ "    pass".
Proof. vm_compute. reflexivity. Qed.

Example pytest_ex1 :
  tc_name <$> parse_pytest_output
    ("test.py::test_add PASSED   [ 50%]" ++ NL ++ "test.py::TestX::test_sub FAILED [100%]")
    (synthetic_failure "")
  = ["test_add"; "test_sub"].
Proof. vm_compute. reflexivity. Qed.

Example pytest_ex2 :
  length (parse_pytest_output "==== 2 passed, 1 failed in 0.23s ====" (synthetic_failure "")) = 3.
Proof. vm_compute. reflexivity. Qed.

Example jest_text_ex :
  _parse_jest_text ("  " ++ CHECK ++ " adds (2 ms)" ++ NL ++ "  " ++ MULT_X ++ " subtracts")
  = [ {| tc_name := "adds"; tc_status := passed; tc_duration := 2;
         tc_description := "adds"; tc_error := None |};
      {| tc_name := "subtracts"; tc_status := failed; tc_duration := 0;
         tc_description := "subtracts"; tc_error := Some "See output for details" |} ].
Proof. vm_compute. reflexivity. Qed.

Example jasmine_text_ex :
  _parse_jasmine_text (BALLOT_X ++ " subtracts" ++ NL ++ "  Expected 1 to equal 2."
                       ++ NL ++ CHECK ++ " adds")
  = [ {| tc_name := "subtracts"; tc_status := failed; tc_duration := 0;
         tc_description := "subtracts"; tc_error := Some "Expected 1 to equal 2." |};
      {| tc_name := "adds"; tc_status := passed; tc_duration := 0;
         tc_description := "adds"; tc_error := None |} ].
Proof. vm_compute. reflexivity. Qed.

Example pytest_pass_scenario :
  ∃ r, fst (run_local ("from source import add" ++ NL ++ "def test_add(): assert add(2, 3) == 5")
                      "def add(a, b): return a + b" (Some "python") no_config
                      (Completed 0 "test.py::test_add PASSED                 [100%]" ""))
       = Returns r
       ∧ success r = true
       ∧ route_parsed_tests r
         = [ {| tc_name := "test_add"; tc_status := passed; tc_duration := 0;
                tc_description := "add"; tc_error := None |} ].
Proof. eexists. split; [vm_compute; reflexivity | vm_compute; split; reflexivity]. Qed.

Example pytest_fail_scenario :
  ∃ r, fst (run_local ("from source import add" ++ NL ++ "def test_add(): assert add(2, 3) == 6")
                      "def add(a, b): return a + b" (Some "python") no_config
                      (Completed 1 "test.py::test_add FAILED                 [100%]" ""))
       = Returns r
       ∧ success r = false
       ∧ route_parsed_tests r
         = [ {| tc_name := "test_add"; tc_status := failed; tc_duration := 0;
                tc_description := "add"; tc_error := Some "See output for details" |} ].
Proof. eexists. split; [vm_compute; reflexivity | vm_compute; split; reflexivity]. Qed.

(** Beyond ASCII, re.IGNORECASE takes the letter U+0130 for an [i]:
    [_split_source_files] finds a marker in a source that holds [file:] in
    no letter case, and [parse_pytest_output] reads a verdict that is none
    of the three words once in capitals, so that the test case is failed
    and carries no error text.  A verdict with U+0131 is the word FAILED
    once in capitals. *)
Example split_files_dotted_ex :
  let source := "# F" ++ DOTTED_I ++ "le: a.py" ++ NL ++ "x = 1" ++ NL in
  contains "file:" (lower source) = false
  ∧ _split_source_files source = Some [("a.py", "x = 1")].
Proof. vm_compute. split; reflexivity. Qed.

Example pytest_dotted_verdict_ex :
  parse_pytest_output ("test_x FA" ++ DOTTED_I ++ "LED") (synthetic_failure "")
  = [ {| tc_name := "test_x"; tc_status := failed; tc_duration := 0;
         tc_description := "x"; tc_error := None |} ]
  ∧ parse_pytest_output ("test_x fa" ++ DOTLESS_I ++ "led") (synthetic_failure "")
    = [ {| tc_name := "test_x"; tc_status := failed; tc_duration := 0;
           tc_description := "x"; tc_error := Some "See output for details" |} ].
Proof. vm_compute. split; reflexivity. Qed.

(** [docker kill] raises after a timeout on the Java pipeline: the
    exception is caught by the orchestrator and its text is the error. *)
Example kill_fails_java_scenario :
  fst (execute_tests_in_docker no_jest no_mocha no_raw_decode "" "" (Some "java") 120
         no_config kill_fails_env empty_world)
  = Returns (synthetic_failure "[Errno 12] Cannot allocate memory").
Proof. vm_compute. reflexivity. Qed.

Example timeout_scenario :
  fst (run_local "" "" (Some "python") no_config TimeoutExpired)
  = Returns {| success := false; exit_code := -1; output := "";
               errors := "Execution timed out after 120s"; xml_reports := None;
               test_results_json := None; container_name := None |}.
Proof. vm_compute. reflexivity. Qed.

Example surefire_scenario :
  java_summary
    (Some [ {| rf_name := "TEST-com.test.CalcTest.xml";
               rf_root := Some {| rr_xml := "<testsuite/>"; rr_tests := AttrInt 3;
                                  rr_failures := AttrInt 1; rr_errors := AttrAbsent;
                                  rr_skipped := AttrInt 1;
                                  rr_testcases :=
                                    [ {| te_name := Some "adds"; te_classname := Some "CalcTest";
                                         te_failure := Some {| me_message := Some "expected 5";
                                                               me_text := None |};
                                         te_error := None |} ] |} |};
            {| rf_name := "CalcTest.txt"; rf_root := None |} ])
  = ({| total := 3; passed_count := 1; failed_count := 1; skipped := 1;
        failures := ["CalcTest.adds: expected 5"]; tests := None |}, ["<testsuite/>"]).
Proof. vm_compute. reflexivity. Qed.
